(** * Beast zlib: the deflate compressor

    A shallow embedding of [beast/core/detail/zlib/deflate.cpp] (class
    [deflate_stream]) and of [beast/zlib/impl/basic_deflate_stream.ipp]
    (class template [basic_deflate_stream]), with the properties that the
    design document states about them.

    Conventions.
    - Every C++ integer is a [Z].  Arithmetic on an unsigned field is
      written with its wrap-around ([u8], [u16], [u32], [uLong]); [int] and
      [long] arithmetic is exact (signed overflow is undefined in C++).
    - An array is a [list Z]; a pointer into an array is an offset.  A read
      outside the array yields [0] and a write outside it is dropped (both
      are undefined in C++).
    - Loops whose exit depends on the data take a [fuel : nat]; [None] means
      that the fuel ran out.  Counted loops recurse on their counter.
    - The trees subsystem ([_tr_init], [_tr_flush_block], ...) is not part of
      these two files.  It is an interface, [Trees], over the fields that it
      owns, and every statement holds for each implementation of it. *)

From Stdlib Require Import ZArith List Lia Bool.
Import ListNotations.
Local Open Scope Z_scope.

(** ** Machine integers *)

Definition u8 (x : Z) : Z := x mod 2 ^ 8.
Definition u16 (x : Z) : Z := x mod 2 ^ 16.
Definition u32 (x : Z) : Z := x mod 2 ^ 32.
(** [uLong] and [std::size_t]: 64 bits on the LP64 targets. *)
Definition uLong (x : Z) : Z := x mod 2 ^ 64.

(** ** Arrays *)

Definition zlen (l : list Z) : Z := Z.of_nat (length l).

Definition get (l : list Z) (i : Z) : Z :=
  if i <? 0 then 0 else nth (Z.to_nat i) l 0.

Fixpoint put_nat (l : list Z) (n : nat) (v : Z) : list Z :=
  match l, n with
  | [], _ => []
  | _ :: t, O => v :: t
  | h :: t, S n' => h :: put_nat t n' v
  end.

Definition put (l : list Z) (i : Z) (v : Z) : list Z :=
  if i <? 0 then l else put_nat l (Z.to_nat i) v.

(** [std::memcpy(dst + off, src, |src|)], clipped to the end of [dst]. *)
Definition blit (dst : list Z) (off : Z) (src : list Z) : list Z :=
  let o := Z.to_nat off in
  let src' := firstn (length dst - o) src in
  firstn o dst ++ src' ++ skipn (o + length src') dst.

(** The first [n] bytes behind a pointer. *)
Definition bytes_at (p : list Z) (n : Z) : list Z := firstn (Z.to_nat n) p.

(** The pointer [p + n]. *)
Definition advance (p : list Z) (n : Z) : list Z := skipn (Z.to_nat n) p.

(** Apply [f] to the entries [l[0 .. n)]. *)
Definition map_first (n : Z) (f : Z -> Z) (l : list Z) : list Z :=
  map f (firstn (Z.to_nat n) l) ++ skipn (Z.to_nat n) l.

(** A [do { body } while (--n != 0)] loop on an unsigned 32-bit counter
    whose value on entry is [n]: the body runs [n] times, and [2^32] times
    when [n] is [0]. *)
Definition do_while_dec {A : Type} (n : Z) (body : A -> A) (a : A) : A :=
  Nat.iter (Z.to_nat (if n =? 0 then 2 ^ 32 else n)) body a.

(** ** Constants *)

(** Modelled from the spec: the constants of section 3 ([deflate_stream.hpp],
    which defines them, is not among the sources). *)
Definition MIN_MATCH : Z := 3.
Definition MAX_MATCH : Z := 258.
Definition MIN_LOOKAHEAD : Z := MAX_MATCH + MIN_MATCH + 1.
Definition WIN_INIT : Z := MAX_MATCH.
Definition TOO_FAR : Z := 4096.
Definition NIL : Z := 0.
Definition LITERALS : Z := 256.
Definition MAX_MEM_LEVEL : Z := 9.

(** Modelled from the spec: the flush modes of section 4.4, the result codes
    of section 7 and the strategies of section 3.  [zlib.hpp], which gives
    them their integer values, is not among the sources; the values are the
    ones that [RANK] and the range test of [deflate] presuppose. *)
Definition Z_NO_FLUSH : Z := 0.
Definition Z_PARTIAL_FLUSH : Z := 1.
Definition Z_SYNC_FLUSH : Z := 2.
Definition Z_FULL_FLUSH : Z := 3.
Definition Z_FINISH : Z := 4.
Definition Z_BLOCK : Z := 5.

Definition Z_OK : Z := 0.
Definition Z_STREAM_END : Z := 1.
Definition Z_STREAM_ERROR : Z := -2.
Definition Z_DATA_ERROR : Z := -3.
Definition Z_MEM_ERROR : Z := -4.
Definition Z_BUF_ERROR : Z := -5.

Definition Z_DEFAULT_COMPRESSION : Z := -1.
Definition Z_DEFAULT_STRATEGY : Z := 0.
Definition Z_FILTERED : Z := 1.
Definition Z_HUFFMAN_ONLY : Z := 2.
Definition Z_RLE : Z := 3.
Definition Z_FIXED : Z := 4.
Definition Z_DEFLATED : Z := 8.
Definition Z_UNKNOWN : Z := 2.
Definition DEF_MEM_LEVEL : Z := 8.

Definition BUSY_STATE : Z := 113.
Definition FINISH_STATE : Z := 666.

Inductive block_state : Type :=
| need_more       (* block not completed, need more input or more output *)
| block_done      (* block flush performed *)
| finish_started  (* finish started, need only more output at next deflate *)
| finish_done.    (* finish done, accept no more input or output *)

(** The engine selected by a row of the configuration table. *)
Inductive compress_func : Type :=
| func_stored | func_fast | func_slow.

Record config : Type := {
  good_length : Z;  (* reduce lazy search above this match length *)
  max_lazy : Z;     (* do not perform lazy search above this match length *)
  nice_length : Z;  (* quit search above this match length *)
  max_chain : Z;
  func : compress_func
}.

Definition configuration_table : list config :=
  [ {| good_length := 0; max_lazy := 0; nice_length := 0; max_chain := 0; func := func_stored |};
    {| good_length := 4; max_lazy := 4; nice_length := 8; max_chain := 4; func := func_fast |};
    {| good_length := 4; max_lazy := 5; nice_length := 16; max_chain := 8; func := func_fast |};
    {| good_length := 4; max_lazy := 6; nice_length := 32; max_chain := 32; func := func_fast |};
    {| good_length := 4; max_lazy := 4; nice_length := 16; max_chain := 16; func := func_slow |};
    {| good_length := 8; max_lazy := 16; nice_length := 32; max_chain := 32; func := func_slow |};
    {| good_length := 8; max_lazy := 16; nice_length := 128; max_chain := 128; func := func_slow |};
    {| good_length := 8; max_lazy := 32; nice_length := 128; max_chain := 256; func := func_slow |};
    {| good_length := 32; max_lazy := 128; nice_length := 258; max_chain := 1024; func := func_slow |};
    {| good_length := 32; max_lazy := 258; nice_length := 258; max_chain := 4096; func := func_slow |} ].

(** [configuration_table[level]]; the table has no row outside [0..9]. *)
Definition get_config (level : Z) : config :=
  if level <? 0 then
    {| good_length := 0; max_lazy := 0; nice_length := 0; max_chain := 0; func := func_stored |}
  else
    nth (Z.to_nat level) configuration_table
      {| good_length := 0; max_lazy := 0; nice_length := 0; max_chain := 0; func := func_stored |}.

(** [RANK(f)]: rank Z_BLOCK between Z_NO_FLUSH and Z_PARTIAL_FLUSH. *)
Definition RANK (f : Z) : Z := Z.shiftl f 1 - (if 4 <? f then 9 else 0).

(** Builds the setter of the field [proj] from the eta-expansion [eta] of
    its record. *)
Ltac mk_setter eta proj :=
  let e := eval cbv beta delta [eta] in eta in
  match eval pattern proj in e with
  | ?F _ => let r := eval cbv beta in (fun v => F (fun _ => v)) in exact r
  end.

(** ** The stream *)

Section Deflate.

(** The private data of the trees subsystem (bit accumulator, code tables,
    tree descriptors). *)
Context {T : Type}.

(** The fields that the trees subsystem reads and writes.  The tally macros
    of [deflate.cpp] write some of them too. *)
Record tree_state : Type := {
  tr_priv : T;
  (** the bytes [pending_out_[0 .. pending_)]: produced, not yet copied to
      [next_out] *)
  pending_out_ : list Z;
  last_lit_ : Z;          (* running index in l_buf *)
  d_buf_ : list Z;        (* distances of the tally (std::uint16_t) *)
  l_buf_ : list Z;        (* literals or match lengths of the tally (Byte) *)
  dyn_ltree_ : list Z;    (* literal and length frequencies (fc) *)
  dyn_dtree_ : list Z;    (* distance frequencies (fc) *)
  data_type : Z           (* best guess about the data type *)
}.

Definition eta_tree (t : tree_state) : tree_state :=
  {| tr_priv := tr_priv t; pending_out_ := pending_out_ t;
     last_lit_ := last_lit_ t; d_buf_ := d_buf_ t; l_buf_ := l_buf_ t;
     dyn_ltree_ := dyn_ltree_ t; dyn_dtree_ := dyn_dtree_ t;
     data_type := data_type t |}.

Definition set_pending_out_ : list Z -> tree_state -> tree_state := ltac:(mk_setter eta_tree pending_out_).
Definition set_last_lit_ : Z -> tree_state -> tree_state := ltac:(mk_setter eta_tree last_lit_).
Definition set_d_buf_ : list Z -> tree_state -> tree_state := ltac:(mk_setter eta_tree d_buf_).
Definition set_l_buf_ : list Z -> tree_state -> tree_state := ltac:(mk_setter eta_tree l_buf_).
Definition set_dyn_ltree_ : list Z -> tree_state -> tree_state := ltac:(mk_setter eta_tree dyn_ltree_).
Definition set_dyn_dtree_ : list Z -> tree_state -> tree_state := ltac:(mk_setter eta_tree dyn_dtree_).
Definition set_data_type : Z -> tree_state -> tree_state := ltac:(mk_setter eta_tree data_type).

(** Modelled from the spec: the trees subsystem of section 6.2, whose source
    is not among the files.  A pointer argument is the memory behind it
    ([None] for a null pointer). *)
Class Trees : Type := {
  (** the tables [_length_code] and [d_code] used by [_tr_tally_dist] *)
  _length_code : Z -> Z;
  d_code : Z -> Z;
  (** reset symbol tables and bit accumulator *)
  _tr_init : tree_state -> tree_state;
  (** [_tr_flush_block level strategy t buf stored_len last] *)
  _tr_flush_block : Z -> Z -> tree_state -> option (list Z) -> Z -> Z -> tree_state;
  (** [_tr_stored_block t buf stored_len last] *)
  _tr_stored_block : tree_state -> option (list Z) -> Z -> Z -> tree_state;
  _tr_align : tree_state -> tree_state;
  _tr_flush_bits : tree_state -> tree_state
}.

(** [class deflate_stream], with the [z_stream] part first. *)
Record deflate_stream : Type := {
  next_in : option (list Z);   (* the input behind next_in; None when null *)
  avail_in : Z;                (* number of bytes available at next_in *)
  total_in : Z;                (* total number of input bytes read so far *)
  next_out : option (list Z);  (* the bytes written through next_out; None when null *)
  avail_out : Z;               (* remaining free space at next_out *)
  total_out : Z;               (* total number of bytes output so far *)
  msg : option Z;              (* last error message, by result code *)

  status_ : Z;
  pending_buf_size_ : Z;       (* size of pending_buf *)
  last_flush_ : Z;             (* value of flush param for previous deflate call *)

  w_size_ : Z;                 (* LZ77 window size (32K by default) *)
  w_bits_ : Z;                 (* log2(w_size) (8..16) *)
  w_mask_ : Z;                 (* w_size - 1 *)
  window_ : list Z;            (* sliding window, twice w_size bytes *)
  window_size_ : Z;            (* actual size of window: 2*wSize *)
  prev_ : list Z;              (* link to older string with same hash index *)
  head_ : list Z;              (* heads of the hash chains or NIL *)
  ins_h_ : Z;                  (* hash index of string to be inserted *)
  hash_size_ : Z;              (* number of elements in hash table *)
  hash_bits_ : Z;              (* log2(hash_size) *)
  hash_mask_ : Z;              (* hash_size-1 *)
  hash_shift_ : Z;
  block_start_ : Z;            (* long: window position at the beginning of the current block; negative if the block is gone *)
  match_length_ : Z;           (* length of best match *)
  prev_match_ : Z;             (* previous match *)
  match_available_ : Z;        (* set if previous match exists *)
  strstart_ : Z;               (* start of string to insert *)
  match_start_ : Z;            (* start of matching string *)
  lookahead_ : Z;              (* number of valid bytes ahead in window *)
  prev_length_ : Z;            (* length of the best match at previous step *)
  max_chain_length_ : Z;
  max_lazy_match_ : Z;
  level_ : Z;                  (* compression level (0..9) *)
  strategy_ : Z;               (* favor or force Huffman coding *)
  good_match_ : Z;
  nice_match_ : Z;             (* stop searching when current match exceeds this *)
  lit_bufsize_ : Z;
  insert_ : Z;                 (* bytes at end of window left to insert *)
  high_water_ : Z;             (* bytes of the window known to be initialised *)
  tr_ : tree_state;
  (** history variable, not a field of the class: the arguments
      [(stored_len, last)] of the calls of [_tr_flush_block], oldest first *)
  blocks_ : list (Z * Z)
}.

Definition eta_stream (s : deflate_stream) : deflate_stream :=
  {| next_in := next_in s; avail_in := avail_in s; total_in := total_in s;
     next_out := next_out s; avail_out := avail_out s; total_out := total_out s;
     msg := msg s; status_ := status_ s; pending_buf_size_ := pending_buf_size_ s;
     last_flush_ := last_flush_ s; w_size_ := w_size_ s; w_bits_ := w_bits_ s;
     w_mask_ := w_mask_ s; window_ := window_ s; window_size_ := window_size_ s;
     prev_ := prev_ s; head_ := head_ s; ins_h_ := ins_h_ s;
     hash_size_ := hash_size_ s; hash_bits_ := hash_bits_ s;
     hash_mask_ := hash_mask_ s; hash_shift_ := hash_shift_ s;
     block_start_ := block_start_ s; match_length_ := match_length_ s;
     prev_match_ := prev_match_ s; match_available_ := match_available_ s;
     strstart_ := strstart_ s; match_start_ := match_start_ s;
     lookahead_ := lookahead_ s; prev_length_ := prev_length_ s;
     max_chain_length_ := max_chain_length_ s;
     max_lazy_match_ := max_lazy_match_ s; level_ := level_ s;
     strategy_ := strategy_ s; good_match_ := good_match_ s;
     nice_match_ := nice_match_ s; lit_bufsize_ := lit_bufsize_ s;
     insert_ := insert_ s; high_water_ := high_water_ s; tr_ := tr_ s;
     blocks_ := blocks_ s |}.

Definition set_next_in : option (list Z) -> deflate_stream -> deflate_stream := ltac:(mk_setter eta_stream next_in).
Definition set_avail_in : Z -> deflate_stream -> deflate_stream := ltac:(mk_setter eta_stream avail_in).
Definition set_total_in : Z -> deflate_stream -> deflate_stream := ltac:(mk_setter eta_stream total_in).
Definition set_next_out : option (list Z) -> deflate_stream -> deflate_stream := ltac:(mk_setter eta_stream next_out).
Definition set_avail_out : Z -> deflate_stream -> deflate_stream := ltac:(mk_setter eta_stream avail_out).
Definition set_total_out : Z -> deflate_stream -> deflate_stream := ltac:(mk_setter eta_stream total_out).
Definition set_msg : option Z -> deflate_stream -> deflate_stream := ltac:(mk_setter eta_stream msg).
Definition set_status_ : Z -> deflate_stream -> deflate_stream := ltac:(mk_setter eta_stream status_).
Definition set_pending_buf_size_ : Z -> deflate_stream -> deflate_stream := ltac:(mk_setter eta_stream pending_buf_size_).
Definition set_last_flush_ : Z -> deflate_stream -> deflate_stream := ltac:(mk_setter eta_stream last_flush_).
Definition set_w_size_ : Z -> deflate_stream -> deflate_stream := ltac:(mk_setter eta_stream w_size_).
Definition set_w_bits_ : Z -> deflate_stream -> deflate_stream := ltac:(mk_setter eta_stream w_bits_).
Definition set_w_mask_ : Z -> deflate_stream -> deflate_stream := ltac:(mk_setter eta_stream w_mask_).
Definition set_window_ : list Z -> deflate_stream -> deflate_stream := ltac:(mk_setter eta_stream window_).
Definition set_window_size_ : Z -> deflate_stream -> deflate_stream := ltac:(mk_setter eta_stream window_size_).
Definition set_prev_ : list Z -> deflate_stream -> deflate_stream := ltac:(mk_setter eta_stream prev_).
Definition set_head_ : list Z -> deflate_stream -> deflate_stream := ltac:(mk_setter eta_stream head_).
Definition set_ins_h_ : Z -> deflate_stream -> deflate_stream := ltac:(mk_setter eta_stream ins_h_).
Definition set_hash_size_ : Z -> deflate_stream -> deflate_stream := ltac:(mk_setter eta_stream hash_size_).
Definition set_hash_bits_ : Z -> deflate_stream -> deflate_stream := ltac:(mk_setter eta_stream hash_bits_).
Definition set_hash_mask_ : Z -> deflate_stream -> deflate_stream := ltac:(mk_setter eta_stream hash_mask_).
Definition set_hash_shift_ : Z -> deflate_stream -> deflate_stream := ltac:(mk_setter eta_stream hash_shift_).
Definition set_block_start_ : Z -> deflate_stream -> deflate_stream := ltac:(mk_setter eta_stream block_start_).
Definition set_match_length_ : Z -> deflate_stream -> deflate_stream := ltac:(mk_setter eta_stream match_length_).
Definition set_prev_match_ : Z -> deflate_stream -> deflate_stream := ltac:(mk_setter eta_stream prev_match_).
Definition set_match_available_ : Z -> deflate_stream -> deflate_stream := ltac:(mk_setter eta_stream match_available_).
Definition set_strstart_ : Z -> deflate_stream -> deflate_stream := ltac:(mk_setter eta_stream strstart_).
Definition set_match_start_ : Z -> deflate_stream -> deflate_stream := ltac:(mk_setter eta_stream match_start_).
Definition set_lookahead_ : Z -> deflate_stream -> deflate_stream := ltac:(mk_setter eta_stream lookahead_).
Definition set_prev_length_ : Z -> deflate_stream -> deflate_stream := ltac:(mk_setter eta_stream prev_length_).
Definition set_max_chain_length_ : Z -> deflate_stream -> deflate_stream := ltac:(mk_setter eta_stream max_chain_length_).
Definition set_max_lazy_match_ : Z -> deflate_stream -> deflate_stream := ltac:(mk_setter eta_stream max_lazy_match_).
Definition set_level_ : Z -> deflate_stream -> deflate_stream := ltac:(mk_setter eta_stream level_).
Definition set_strategy_ : Z -> deflate_stream -> deflate_stream := ltac:(mk_setter eta_stream strategy_).
Definition set_good_match_ : Z -> deflate_stream -> deflate_stream := ltac:(mk_setter eta_stream good_match_).
Definition set_nice_match_ : Z -> deflate_stream -> deflate_stream := ltac:(mk_setter eta_stream nice_match_).
Definition set_lit_bufsize_ : Z -> deflate_stream -> deflate_stream := ltac:(mk_setter eta_stream lit_bufsize_).
Definition set_insert_ : Z -> deflate_stream -> deflate_stream := ltac:(mk_setter eta_stream insert_).
Definition set_high_water_ : Z -> deflate_stream -> deflate_stream := ltac:(mk_setter eta_stream high_water_).
Definition set_tr_ : tree_state -> deflate_stream -> deflate_stream := ltac:(mk_setter eta_stream tr_).
Definition set_blocks_ : list (Z * Z) -> deflate_stream -> deflate_stream := ltac:(mk_setter eta_stream blocks_).

(** [s->pending_]: the number of bytes in the pending buffer. *)
Definition pending_ (s : deflate_stream) : Z := zlen (pending_out_ (tr_ s)).

(** [MAX_DIST(s)]: in order to simplify the code, particularly on 16 bit
    machines, match distances are limited to MAX_DIST instead of WSIZE. *)
Definition MAX_DIST (s : deflate_stream) : Z := w_size_ s - MIN_LOOKAHEAD.

Context `{Trees}.

(** ** Hash chains *)

(** [UPDATE_HASH(s,h,c)]: update a hash value with the given input byte.
    The mask keeps fewer than 32 bits, so that the wrap-around of the shift
    in [uInt] is not visible. *)
Definition UPDATE_HASH (s : deflate_stream) (h c : Z) : Z :=
  Z.land (Z.lxor (Z.shiftl h (hash_shift_ s)) c) (hash_mask_ s).

(** [INSERT_STRING(s, str, match_head)]: insert string [str] in the
    dictionary; the second component is [match_head], the previous head of
    the hash chain. *)
Definition INSERT_STRING (s : deflate_stream) (str : Z) : deflate_stream * Z :=
  let h := UPDATE_HASH s (ins_h_ s) (get (window_ s) (str + (MIN_MATCH - 1))) in
  let s := set_ins_h_ h s in
  let match_head := get (head_ s) h in
  let s := set_prev_ (put (prev_ s) (Z.land str (w_mask_ s)) match_head) s in
  let s := set_head_ (put (head_ s) h (u16 str)) s in
  (s, match_head).

(** [CLEAR_HASH(s)]: initialize the hash table; [prev] is initialized on
    the fly. *)
Definition CLEAR_HASH (s : deflate_stream) : deflate_stream :=
  let hd := put (head_ s) (hash_size_ s - 1) NIL in
  set_head_ (blit hd 0 (repeat 0 (Z.to_nat (hash_size_ s - 1)))) s.

(** ** The tally *)

(** [fc++] on entry [i] of a frequency table. *)
Definition incr_fc (tree : list Z) (i : Z) : list Z :=
  put tree i (u16 (get tree i + 1)).

(** [_tr_tally_lit(s, c, flush)]; the second component is [flush]. *)
Definition _tr_tally_lit (s : deflate_stream) (c : Z) : deflate_stream * bool :=
  let cc := u8 c in
  let t := tr_ s in
  let t := set_d_buf_ (put (d_buf_ t) (last_lit_ t) 0) t in
  let t := set_l_buf_ (put (l_buf_ t) (last_lit_ t) cc) t in
  let t := set_last_lit_ (u32 (last_lit_ t + 1)) t in
  let t := set_dyn_ltree_ (incr_fc (dyn_ltree_ t) cc) t in
  (set_tr_ t s, last_lit_ t =? u32 (lit_bufsize_ s - 1)).

(** [_tr_tally_dist(s, distance, length, flush)]; the second component is
    [flush]. *)
Definition _tr_tally_dist (s : deflate_stream) (distance length : Z)
  : deflate_stream * bool :=
  let len := u8 length in
  let dist := u16 distance in
  let t := tr_ s in
  let t := set_d_buf_ (put (d_buf_ t) (last_lit_ t) dist) t in
  let t := set_l_buf_ (put (l_buf_ t) (last_lit_ t) len) t in
  let t := set_last_lit_ (u32 (last_lit_ t + 1)) t in
  let dist := u16 (dist - 1) in
  let t := set_dyn_ltree_
             (incr_fc (dyn_ltree_ t) (_length_code len + LITERALS + 1)) t in
  let t := set_dyn_dtree_ (incr_fc (dyn_dtree_ t) (d_code dist)) t in
  (set_tr_ t s, last_lit_ t =? u32 (lit_bufsize_ s - 1)).

(** ** Input and output *)

(** [read_buf(strm, buf, size)], with [buf = window_ + off]: read a new
    buffer from the current input stream and update the total number of
    bytes read.  The second component is the result. *)
Definition read_buf (strm : deflate_stream) (off size : Z) : deflate_stream * Z :=
  let len := avail_in strm in
  let len := if size <? len then size else len in
  if len =? 0 then (strm, 0)
  else
    let input := match next_in strm with Some p => p | None => [] end in
    let strm' := set_avail_in (u32 (avail_in strm - len)) strm in
    let strm' := set_window_ (blit (window_ strm') off (bytes_at input len)) strm' in
    let strm' := set_next_in (option_map (fun p => advance p len) (next_in strm')) strm' in
    let strm' := set_total_in (uLong (total_in strm' + len)) strm' in
    (strm', len).

(** [flush_pending(strm)]: flush as much pending output as possible. *)
Definition flush_pending (strm : deflate_stream) : deflate_stream :=
  let s := set_tr_ (_tr_flush_bits (tr_ strm)) strm in
  let len := pending_ s in
  let len := if avail_out s <? len then avail_out s else len in
  if len =? 0 then s
  else
    let chunk := bytes_at (pending_out_ (tr_ s)) len in
    let s' := set_next_out (option_map (fun o => o ++ chunk) (next_out s)) s in
    let s' := set_tr_ (set_pending_out_ (advance (pending_out_ (tr_ s')) len) (tr_ s')) s' in
    let s' := set_total_out (uLong (total_out s' + len)) s' in
    set_avail_out (u32 (avail_out s' - len)) s'.

(** ** fill_window *)

(** The slide of [fill_window]: move the upper half of the window to the
    lower one to make room in the upper half, and slide the hash table. *)
Definition slide_window (s : deflate_stream) : deflate_stream :=
  let wsize := w_size_ s in
  let s := set_window_
             (blit (window_ s) 0 (bytes_at (advance (window_ s) wsize) wsize)) s in
  let s := set_match_start_ (u32 (match_start_ s - wsize)) s in
  let s := set_strstart_ (u32 (strstart_ s - wsize)) s in
  let s := set_block_start_ (block_start_ s - wsize) s in
  let rebase := fun m => u16 (if wsize <=? m then m - wsize else NIL) in
  let s := set_head_ (map_first (hash_size_ s) rebase (head_ s)) s in
  set_prev_ (map_first wsize rebase (prev_ s)) s.

(** The [while (s->insert_)] loop of [fill_window]; [str] is the second
    component.  The loop ends when [insert_] reaches [0], so that it runs at
    most [insert_] times. *)
Fixpoint fill_window_insert (n : nat) (s : deflate_stream) (str : Z)
  : deflate_stream :=
  match n with
  | O => s
  | S n' =>
      if insert_ s =? 0 then s
      else
        let s := set_ins_h_
                   (UPDATE_HASH s (ins_h_ s) (get (window_ s) (str + MIN_MATCH - 1))) s in
        let s := set_prev_
                   (put (prev_ s) (Z.land str (w_mask_ s)) (get (head_ s) (ins_h_ s))) s in
        let s := set_head_ (put (head_ s) (ins_h_ s) (u16 str)) s in
        let str := u32 (str + 1) in
        let s := set_insert_ (u32 (insert_ s - 1)) s in
        if u32 (lookahead_ s + insert_ s) <? MIN_MATCH then s
        else fill_window_insert n' s str
  end.

(** The part of one turn of the loop of [fill_window] that follows the
    test of [avail_in]: read into the window and initialize the hash. *)
Definition fill_window_read (s : deflate_stream) (more : Z) : deflate_stream :=
  let '(s, n) := read_buf s (strstart_ s + lookahead_ s) more in
  let s := set_lookahead_ (u32 (lookahead_ s + n)) s in
  if MIN_MATCH <=? u32 (lookahead_ s + insert_ s) then
    let str := u32 (strstart_ s - insert_ s) in
    let s := set_ins_h_ (get (window_ s) str) s in
    let s := set_ins_h_ (UPDATE_HASH s (ins_h_ s) (get (window_ s) (str + 1))) s in
    fill_window_insert (Z.to_nat (insert_ s)) s str
  else s.

(** The [do ... while] loop of [fill_window].  ([sizeof(int) <= 2] does not
    hold, so that the 64K adjustment of [more] is not compiled in.) *)
Fixpoint fill_window_loop (fuel : nat) (s : deflate_stream)
  : option deflate_stream :=
  match fuel with
  | O => None
  | S fuel' =>
      let wsize := w_size_ s in
      let more := u32 (window_size_ s - lookahead_ s - strstart_ s) in
      let '(s, more) :=
        if wsize + MAX_DIST s <=? strstart_ s
        then (slide_window s, u32 (more + wsize))
        else (s, more) in
      if avail_in s =? 0 then Some s
      else
        let s := fill_window_read s more in
        if (lookahead_ s <? MIN_LOOKAHEAD) && negb (avail_in s =? 0)
        then fill_window_loop fuel' s
        else Some s
  end.

(** The end of [fill_window]: zero the [WIN_INIT] bytes after the end of the
    current data that have never been written. *)
Definition fill_window_high_water (s : deflate_stream) : deflate_stream :=
  if high_water_ s <? window_size_ s then
    let curr := u32 (strstart_ s + lookahead_ s) in
    if high_water_ s <? curr then
      let init := u32 (window_size_ s - curr) in
      let init := if WIN_INIT <? init then WIN_INIT else init in
      let s := set_window_ (blit (window_ s) curr (repeat 0 (Z.to_nat init))) s in
      set_high_water_ (u32 (curr + init)) s
    else if high_water_ s <? u32 (curr + WIN_INIT) then
      let init := u32 (curr + WIN_INIT - high_water_ s) in
      let init := if u32 (window_size_ s - high_water_ s) <? init
                  then u32 (window_size_ s - high_water_ s) else init in
      let s := set_window_
                 (blit (window_ s) (high_water_ s) (repeat 0 (Z.to_nat init))) s in
      set_high_water_ (u32 (high_water_ s + init)) s
    else s
  else s.

Definition fill_window (fuel : nat) (s : deflate_stream) : option deflate_stream :=
  option_map fill_window_high_water (fill_window_loop fuel s).

(** ** longest_match *)

(** A group of [k] tests [*++scan == *++match]: the pointers after the last
    test made, and whether all the tests succeeded. *)
Fixpoint scan_group (k : nat) (w : list Z) (scan mtch : Z) : Z * Z * bool :=
  match k with
  | O => (scan, mtch, true)
  | S k' =>
      if get w (scan + 1) =? get w (mtch + 1)
      then scan_group k' w (scan + 1) (mtch + 1)
      else (scan + 1, mtch + 1, false)
  end.

(** The comparison loop [do { } while (8 tests && scan < strend)].  Each
    turn that goes on moves [scan] by eight; [n] bounds the number of
    turns. *)
Fixpoint scan_loop (n : nat) (w : list Z) (scan mtch strend : Z) : Z * Z :=
  let '(scan', mtch', same) := scan_group 8 w scan mtch in
  if same && (scan' <? strend) then
    match n with
    | O => (scan', mtch')
    | S n' => scan_loop n' w scan' mtch' strend
    end
  else (scan', mtch').

(** The local variables of [longest_match] that change along the chain. *)
Record chain_state : Type := {
  cur_match : Z;
  best_len : Z;           (* best match length so far *)
  scan_end1 : Z;
  scan_end : Z;
  chain_match_start : Z;  (* s->match_start_ *)
  (** history variable: [(cur_match, len)] for each candidate whose length
      was computed, latest first *)
  examined : list (Z * Z)
}.

(** The body of the chain loop; the second component tells that the loop
    was left through [break]. *)
Definition longest_match_body (s : deflate_stream) (nice_match : Z)
    (c : chain_state) : chain_state * bool :=
  let w := window_ s in
  let scan := strstart_ s in
  let strend := strstart_ s + MAX_MATCH in
  let mtch := cur_match c in
  if negb (get w (mtch + best_len c) =? scan_end c)
     || negb (get w (mtch + best_len c - 1) =? scan_end1 c)
     || negb (get w mtch =? get w scan)
     || negb (get w (mtch + 1) =? get w (scan + 1))
  then (c, false)
  else
    let '(scan', _) := scan_loop 31 w (scan + 2) (mtch + 2) strend in
    let len := MAX_MATCH - (strend - scan') in
    let c := {| cur_match := cur_match c; best_len := best_len c;
                scan_end1 := scan_end1 c; scan_end := scan_end c;
                chain_match_start := chain_match_start c;
                examined := (cur_match c, len) :: examined c |} in
    if best_len c <? len then
      if nice_match <=? len then
        ({| cur_match := cur_match c; best_len := len;
            scan_end1 := scan_end1 c; scan_end := scan_end c;
            chain_match_start := cur_match c; examined := examined c |}, true)
      else
        ({| cur_match := cur_match c; best_len := len;
            scan_end1 := get w (scan + len - 1); scan_end := get w (scan + len);
            chain_match_start := cur_match c; examined := examined c |}, false)
    else (c, false).

(** The chain loop [do body while ((cur_match = prev[cur_match & wmask])
    > limit && --chain_length != 0)], where [n] is the number of times that
    [--chain_length != 0] can still hold. *)
Fixpoint longest_match_chain (n : nat) (s : deflate_stream)
    (nice_match limit : Z) (c : chain_state) : chain_state :=
  let '(c, stop) := longest_match_body s nice_match c in
  if stop then c
  else
    let c := {| cur_match := get (prev_ s) (Z.land (cur_match c) (w_mask_ s));
                best_len := best_len c; scan_end1 := scan_end1 c;
                scan_end := scan_end c;
                chain_match_start := chain_match_start c;
                examined := examined c |} in
    if limit <? cur_match c then
      match n with
      | O => c
      | S n' => longest_match_chain n' s nice_match limit c
      end
    else c.

(** [longest_match] up to its [return]: the state of the chain loop at its
    exit. *)
Definition longest_match_search (s : deflate_stream) (cur : Z) : chain_state :=
  let chain_length := max_chain_length_ s in
  let scan := strstart_ s in
  let best := prev_length_ s in
  let nice_match := nice_match_ s in
  let limit := if MAX_DIST s <? strstart_ s
               then u32 (strstart_ s - MAX_DIST s) else NIL in
  let chain_length := if good_match_ s <=? prev_length_ s
                      then Z.shiftr chain_length 2 else chain_length in
  let nice_match := if lookahead_ s <? u32 nice_match
                    then lookahead_ s else nice_match in
  longest_match_chain (Z.to_nat (u32 (chain_length - 1))) s nice_match limit
    {| cur_match := cur; best_len := best;
       scan_end1 := get (window_ s) (scan + best - 1);
       scan_end := get (window_ s) (scan + best);
       chain_match_start := match_start_ s; examined := [] |}.

(** [longest_match(s, cur_match)]: set [match_start_] to the longest match
    starting at the given string and return its length. *)
Definition longest_match (s : deflate_stream) (cur : Z) : deflate_stream * Z :=
  let c := longest_match_search s cur in
  (set_match_start_ (chain_match_start c) s,
   if u32 (best_len c) <=? lookahead_ s then u32 (best_len c) else lookahead_ s).

(** ** Block flushing *)

(** How one turn of the main loop of an engine ends. *)
Inductive step : Type :=
| Continue (s : deflate_stream)
| Break (s : deflate_stream)
| Return (r : block_state) (s : deflate_stream).

(** [FLUSH_BLOCK_ONLY(s, last)]: flush the current block, with given
    end-of-file flag. *)
Definition FLUSH_BLOCK_ONLY (s : deflate_stream) (last : Z) : deflate_stream :=
  let buf := if 0 <=? block_start_ s
             then Some (advance (window_ s) (u32 (block_start_ s)))
             else None in
  let stored_len := u32 (strstart_ s - block_start_ s) in
  let s := set_tr_ (_tr_flush_block (level_ s) (strategy_ s) (tr_ s)
                      buf stored_len last) s in
  let s := set_blocks_ (blocks_ s ++ [(stored_len, last)]) s in
  let s := set_block_start_ (strstart_ s) s in
  flush_pending s.

(** [FLUSH_BLOCK(s, last)]: same but force premature exit if necessary.
    [ret] is the [return] of the enclosing function and [k] the code after
    the macro. *)
Definition FLUSH_BLOCK {R : Type} (ret : block_state -> deflate_stream -> R)
    (s : deflate_stream) (last : Z) (k : deflate_stream -> R) : R :=
  let s := FLUSH_BLOCK_ONLY s last in
  if avail_out s =? 0
  then ret (if last =? 0 then need_more else finish_started) s
  else k s.

(** [for (;;) body]: [inl] when the loop was left through [break], [inr]
    when the function returned from inside it. *)
Fixpoint forever (body : nat -> deflate_stream -> option step) (fuel : nat)
    (s : deflate_stream)
  : option (deflate_stream + block_state * deflate_stream) :=
  match fuel with
  | O => None
  | S fuel' =>
      match body fuel' s with
      | None => None
      | Some (Continue s') => forever body fuel' s'
      | Some (Break s') => Some (inl s')
      | Some (Return r s') => Some (inr (r, s'))
      end
  end.

(** The code of an engine after its loop, [tail], applied to the outcome of
    the loop. *)
Definition after_loop
    (r : option (deflate_stream + block_state * deflate_stream))
    (tail : deflate_stream -> block_state * deflate_stream)
  : option (block_state * deflate_stream) :=
  match r with
  | None => None
  | Some (inr x) => Some x
  | Some (inl s) => Some (tail s)
  end.

(** ** deflate_stored *)

(** Stored blocks are limited to 0xffff bytes, pending_buf is limited to
    pending_buf_size, and each stored block has a 5 byte header. *)
Definition max_block_size (s : deflate_stream) : Z :=
  if u32 (pending_buf_size_ s - 5) <? 65535
  then u32 (pending_buf_size_ s - 5) else 65535.

(** Flush if we may have to slide, otherwise [block_start] may become
    negative and the data will be gone. *)
Definition flush_if_may_slide (s : deflate_stream) : step :=
  if MAX_DIST s <=? u32 (strstart_ s - u32 (block_start_ s))
  then FLUSH_BLOCK Return s 0 Continue
  else Continue s.

(** The second part of a turn of [deflate_stored]: take the lookahead into
    the current block, and emit a stored block if [pending_buf] will be
    full. *)
Definition stored_absorb (s : deflate_stream) : step :=
  let s := set_strstart_ (u32 (strstart_ s + lookahead_ s)) s in
  let s := set_lookahead_ 0 s in
  let max_start := u32 (block_start_ s + max_block_size s) in
  if (strstart_ s =? 0) || (max_start <=? strstart_ s) then
    (* strstart == 0 is possible when wraparound on 16-bit machine *)
    let s := set_lookahead_ (u32 (strstart_ s - max_start)) s in
    let s := set_strstart_ max_start s in
    FLUSH_BLOCK Return s 0 flush_if_may_slide
  else flush_if_may_slide s.

(** The first part of a turn of [deflate_stored]: fill the window as much
    as possible. *)
Definition stored_fill (flush : Z) (fuel : nat) (s : deflate_stream)
  : option step :=
  if lookahead_ s <=? 1 then
    match fill_window fuel s with
    | None => None
    | Some s =>
        if (lookahead_ s =? 0) && (flush =? Z_NO_FLUSH)
        then Some (Return need_more s)
        else if lookahead_ s =? 0 then Some (Break s)   (* flush the current block *)
        else Some (Continue s)
    end
  else Some (Continue s).

Definition deflate_stored_body (flush : Z) (fuel : nat) (s : deflate_stream)
  : option step :=
  match stored_fill flush fuel s with
  | Some (Continue s) => Some (stored_absorb s)
  | other => other
  end.

Definition deflate_stored_tail (flush : Z) (s : deflate_stream)
  : block_state * deflate_stream :=
  let s := set_insert_ 0 s in
  if flush =? Z_FINISH then
    FLUSH_BLOCK pair s 1 (pair finish_done)
  else if block_start_ s <? strstart_ s then
    FLUSH_BLOCK pair s 0 (pair block_done)
  else (block_done, s).

(** [deflate_stored(s, flush)]: copy without compression as much as
    possible from the input stream, return the current block state. *)
Definition deflate_stored (fuel : nat) (s : deflate_stream) (flush : Z)
  : option (block_state * deflate_stream) :=
  after_loop (forever (deflate_stored_body flush) fuel s)
    (deflate_stored_tail flush).

(** ** deflate_fast *)

(** The common end of [deflate_fast], [deflate_slow], [deflate_rle] and
    [deflate_huff], after [insert_] is set. *)
Definition flush_tail (flush : Z) (s : deflate_stream)
  : block_state * deflate_stream :=
  if flush =? Z_FINISH then
    FLUSH_BLOCK pair s 1 (pair finish_done)
  else if negb (last_lit_ (tr_ s) =? 0) then
    FLUSH_BLOCK pair s 0 (pair block_done)
  else (block_done, s).

(** [if (bflush) FLUSH_BLOCK(s, 0);] at the end of a turn. *)
Definition flush_if (bflush : bool) (s : deflate_stream) : step :=
  if bflush then FLUSH_BLOCK Return s 0 Continue else Continue s.

(** The start of a turn: make sure that there is enough lookahead
    ([threshold] bytes), except at the end of the input file. *)
Definition ensure_lookahead (threshold flush : Z) (fuel : nat)
    (s : deflate_stream) : option step :=
  if lookahead_ s <? threshold then
    match fill_window fuel s with
    | None => None
    | Some s =>
        if (lookahead_ s <? threshold) && (flush =? Z_NO_FLUSH)
        then Some (Return need_more s)
        else if lookahead_ s =? 0 then Some (Break s)
        else Some (Continue s)
    end
  else Some (Continue s).

(** [hash_head = NIL; if (lookahead >= MIN_MATCH) INSERT_STRING(...)]. *)
Definition insert_current (s : deflate_stream) : deflate_stream * Z :=
  if MIN_MATCH <=? lookahead_ s then INSERT_STRING s (strstart_ s)
  else (s, NIL).

(** One turn of [do { strstart++; INSERT_STRING } while (--match_length)]. *)
Definition fast_insert_next (s : deflate_stream) : deflate_stream :=
  let s := set_strstart_ (u32 (strstart_ s + 1)) s in
  fst (INSERT_STRING s (strstart_ s)).

Definition deflate_fast_body (flush : Z) (fuel : nat) (s : deflate_stream)
  : option step :=
  match ensure_lookahead MIN_LOOKAHEAD flush fuel s with
  | Some (Continue s) =>
      let '(s, hash_head) := insert_current s in
      let s :=
        if negb (hash_head =? NIL)
           && (u32 (strstart_ s - hash_head) <=? MAX_DIST s)
        then let '(s, len) := longest_match s hash_head in
             set_match_length_ len s
        else s in
      Some
        (if MIN_MATCH <=? match_length_ s then
           let '(s, bflush) :=
             _tr_tally_dist s (u32 (strstart_ s - match_start_ s))
               (u32 (match_length_ s - MIN_MATCH)) in
           let s := set_lookahead_ (u32 (lookahead_ s - match_length_ s)) s in
           let s :=
             if (match_length_ s <=? max_lazy_match_ s)
                && (MIN_MATCH <=? lookahead_ s)
             then
               let s := set_match_length_ (u32 (match_length_ s - 1)) s in
               let s := do_while_dec (match_length_ s) fast_insert_next s in
               let s := set_match_length_ 0 s in
               set_strstart_ (u32 (strstart_ s + 1)) s
             else
               let s := set_strstart_ (u32 (strstart_ s + match_length_ s)) s in
               let s := set_match_length_ 0 s in
               let s := set_ins_h_ (get (window_ s) (strstart_ s)) s in
               set_ins_h_
                 (UPDATE_HASH s (ins_h_ s) (get (window_ s) (strstart_ s + 1))) s in
           flush_if bflush s
         else
           let '(s, bflush) := _tr_tally_lit s (get (window_ s) (strstart_ s)) in
           let s := set_lookahead_ (u32 (lookahead_ s - 1)) s in
           let s := set_strstart_ (u32 (strstart_ s + 1)) s in
           flush_if bflush s)
  | other => other
  end.

Definition deflate_fast_tail (flush : Z) (s : deflate_stream)
  : block_state * deflate_stream :=
  let s := set_insert_
             (if strstart_ s <? MIN_MATCH - 1 then strstart_ s else MIN_MATCH - 1) s in
  flush_tail flush s.

(** [deflate_fast(s, flush)]: compress as much as possible from the input
    stream, return the current block state. *)
Definition deflate_fast (fuel : nat) (s : deflate_stream) (flush : Z)
  : option (block_state * deflate_stream) :=
  after_loop (forever (deflate_fast_body flush) fuel s)
    (deflate_fast_tail flush).

(** ** deflate_slow *)

(** One turn of [do { if (++strstart <= max_insert) INSERT_STRING }
    while (--prev_length != 0)]. *)
Definition slow_insert_next (max_insert : Z) (s : deflate_stream)
  : deflate_stream :=
  let s := set_strstart_ (u32 (strstart_ s + 1)) s in
  if strstart_ s <=? max_insert then fst (INSERT_STRING s (strstart_ s))
  else s.

(** The start of a turn of [deflate_slow], from [INSERT_STRING] to the end
    of the search: insert the string [window[strstart .. strstart+2]] in the
    dictionary and find the longest match, discarding those that are not
    longer than [prev_length]. *)
Definition slow_search (s : deflate_stream) : deflate_stream :=
  let '(s, hash_head) := insert_current s in
  let s := set_prev_length_ (match_length_ s) s in
  let s := set_prev_match_ (match_start_ s) s in
  let s := set_match_length_ (MIN_MATCH - 1) s in
  if negb (hash_head =? NIL)
     && (prev_length_ s <? max_lazy_match_ s)
     && (u32 (strstart_ s - hash_head) <=? MAX_DIST s)
  then
    let '(s, len) := longest_match s hash_head in
    let s := set_match_length_ len s in
    if (match_length_ s <=? 5)
       && ((strategy_ s =? Z_FILTERED)
           || ((match_length_ s =? MIN_MATCH)
               && (TOO_FAR <? u32 (strstart_ s - match_start_ s))))
    then set_match_length_ (MIN_MATCH - 1) s
    else s
  else s.

(** The first branch of the decision of [deflate_slow], up to [strstart++]:
    output the previous match.  The second component is [bflush]. *)
Definition slow_commit (s : deflate_stream) : deflate_stream * bool :=
  let max_insert := u32 (strstart_ s + lookahead_ s - MIN_MATCH) in
  let '(s, bflush) :=
    _tr_tally_dist s (u32 (strstart_ s - 1 - prev_match_ s))
      (u32 (prev_length_ s - MIN_MATCH)) in
  let s := set_lookahead_ (u32 (lookahead_ s - u32 (prev_length_ s - 1))) s in
  let s := set_prev_length_ (u32 (prev_length_ s - 2)) s in
  let s := do_while_dec (prev_length_ s) (slow_insert_next max_insert) s in
  let s := set_prev_length_ 0 s in
  let s := set_match_available_ 0 s in
  let s := set_match_length_ (MIN_MATCH - 1) s in
  let s := set_strstart_ (u32 (strstart_ s + 1)) s in
  (s, bflush).

(** The decision of [deflate_slow], on the state left by the search. *)
Definition slow_decide (s : deflate_stream) : step :=
  if (MIN_MATCH <=? prev_length_ s) && (match_length_ s <=? prev_length_ s)
  then
    let '(s, bflush) := slow_commit s in
    flush_if bflush s
  else if negb (match_available_ s =? 0) then
    let '(s, bflush) := _tr_tally_lit s (get (window_ s) (strstart_ s - 1)) in
    let s := if bflush then FLUSH_BLOCK_ONLY s 0 else s in
    let s := set_strstart_ (u32 (strstart_ s + 1)) s in
    let s := set_lookahead_ (u32 (lookahead_ s - 1)) s in
    if avail_out s =? 0 then Return need_more s else Continue s
  else
    let s := set_match_available_ 1 s in
    let s := set_strstart_ (u32 (strstart_ s + 1)) s in
    let s := set_lookahead_ (u32 (lookahead_ s - 1)) s in
    Continue s.

Definition deflate_slow_body (flush : Z) (fuel : nat) (s : deflate_stream)
  : option step :=
  match ensure_lookahead MIN_LOOKAHEAD flush fuel s with
  | Some (Continue s) => Some (slow_decide (slow_search s))
  | other => other
  end.

Definition deflate_slow_tail (flush : Z) (s : deflate_stream)
  : block_state * deflate_stream :=
  let s :=
    if negb (match_available_ s =? 0) then
      let '(s, _) := _tr_tally_lit s (get (window_ s) (strstart_ s - 1)) in
      set_match_available_ 0 s
    else s in
  let s := set_insert_
             (if strstart_ s <? MIN_MATCH - 1 then strstart_ s else MIN_MATCH - 1) s in
  flush_tail flush s.

(** [deflate_slow(s, flush)]: same as [deflate_fast], but achieves better
    compression.  A match is finally adopted only if there is no better
    match at the next window position. *)
Definition deflate_slow (fuel : nat) (s : deflate_stream) (flush : Z)
  : option (block_state * deflate_stream) :=
  after_loop (forever (deflate_slow_body flush) fuel s)
    (deflate_slow_tail flush).

(** ** deflate_rle *)

(** A group of [k] tests [prev == *++scan]. *)
Fixpoint rle_group (k : nat) (w : list Z) (prev scan : Z) : Z * bool :=
  match k with
  | O => (scan, true)
  | S k' =>
      if prev =? get w (scan + 1) then rle_group k' w prev (scan + 1)
      else (scan + 1, false)
  end.

(** [do { } while (8 tests && scan < strend)]. *)
Fixpoint rle_loop (n : nat) (w : list Z) (prev scan strend : Z) : Z :=
  let '(scan', same) := rle_group 8 w prev scan in
  if same && (scan' <? strend) then
    match n with
    | O => scan'
    | S n' => rle_loop n' w prev scan' strend
    end
  else scan'.

(** See how many times the previous byte repeats. *)
Definition rle_match (s : deflate_stream) : deflate_stream :=
  let s := set_match_length_ 0 s in
  if (MIN_MATCH <=? lookahead_ s) && (0 <? strstart_ s) then
    let w := window_ s in
    let scan := strstart_ s - 1 in
    let prev := get w scan in
    let '(scan, same) := rle_group 3 w prev scan in
    if same then
      let strend := strstart_ s + MAX_MATCH in
      let scan := rle_loop 31 w prev scan strend in
      let s := set_match_length_ (u32 (MAX_MATCH - (strend - scan))) s in
      if lookahead_ s <? match_length_ s
      then set_match_length_ (lookahead_ s) s else s
    else s
  else s.

Definition deflate_rle_body (flush : Z) (fuel : nat) (s : deflate_stream)
  : option step :=
  match ensure_lookahead (MAX_MATCH + 1) flush fuel s with
  | Some (Continue s) =>
      let s := rle_match s in
      Some
        (if MIN_MATCH <=? match_length_ s then
           let '(s, bflush) :=
             _tr_tally_dist s 1 (u32 (match_length_ s - MIN_MATCH)) in
           let s := set_lookahead_ (u32 (lookahead_ s - match_length_ s)) s in
           let s := set_strstart_ (u32 (strstart_ s + match_length_ s)) s in
           let s := set_match_length_ 0 s in
           flush_if bflush s
         else
           let '(s, bflush) := _tr_tally_lit s (get (window_ s) (strstart_ s)) in
           let s := set_lookahead_ (u32 (lookahead_ s - 1)) s in
           let s := set_strstart_ (u32 (strstart_ s + 1)) s in
           flush_if bflush s)
  | other => other
  end.

Definition zero_insert_tail (flush : Z) (s : deflate_stream)
  : block_state * deflate_stream :=
  flush_tail flush (set_insert_ 0 s).

(** [deflate_rle(s, flush)]: for Z_RLE, simply look for runs of bytes,
    generate matches only of distance one. *)
Definition deflate_rle (fuel : nat) (s : deflate_stream) (flush : Z)
  : option (block_state * deflate_stream) :=
  after_loop (forever (deflate_rle_body flush) fuel s) (zero_insert_tail flush).

(** ** deflate_huff *)

Definition deflate_huff_body (flush : Z) (fuel : nat) (s : deflate_stream)
  : option step :=
  let literal := fun s =>
    let s := set_match_length_ 0 s in
    let '(s, bflush) := _tr_tally_lit s (get (window_ s) (strstart_ s)) in
    let s := set_lookahead_ (u32 (lookahead_ s - 1)) s in
    let s := set_strstart_ (u32 (strstart_ s + 1)) s in
    flush_if bflush s in
  if lookahead_ s =? 0 then
    match fill_window fuel s with
    | None => None
    | Some s =>
        if lookahead_ s =? 0 then
          if flush =? Z_NO_FLUSH then Some (Return need_more s)
          else Some (Break s)
        else Some (literal s)
    end
  else Some (literal s).

(** [deflate_huff(s, flush)]: for Z_HUFFMAN_ONLY, do not look for
    matches. *)
Definition deflate_huff (fuel : nat) (s : deflate_stream) (flush : Z)
  : option (block_state * deflate_stream) :=
  after_loop (forever (deflate_huff_body flush) fuel s) (zero_insert_tail flush).

(** ** The session driver *)

(** [ERR_RETURN(strm, err)]: record the message of [err] and return [err].
    The second component is the stream. *)
Definition ERR_RETURN (strm : deflate_stream) (err : Z) : Z * deflate_stream :=
  (err, set_msg (Some err) strm).

(** The engine that [deflate] runs. *)
Definition run_engine (fuel : nat) (s : deflate_stream) (flush : Z)
  : option (block_state * deflate_stream) :=
  if strategy_ s =? Z_HUFFMAN_ONLY then deflate_huff fuel s flush
  else if strategy_ s =? Z_RLE then deflate_rle fuel s flush
  else match func (get_config (level_ s)) with
       | func_stored => deflate_stored fuel s flush
       | func_fast => deflate_fast fuel s flush
       | func_slow => deflate_slow fuel s flush
       end.

Definition is_finish_started (b : block_state) : bool :=
  match b with finish_started => true | _ => false end.
Definition is_finish_done (b : block_state) : bool :=
  match b with finish_done => true | _ => false end.
Definition is_need_more (b : block_state) : bool :=
  match b with need_more => true | _ => false end.
Definition is_block_done (b : block_state) : bool :=
  match b with block_done => true | _ => false end.

(** The end of [deflate]. *)
Definition deflate_end (s : deflate_stream) (flush : Z) : Z * deflate_stream :=
  if negb (flush =? Z_FINISH) then (Z_OK, s) else (Z_STREAM_END, s).

(** [deflate] after the engine has returned [bstate]. *)
Definition deflate_after_engine (s : deflate_stream) (flush : Z)
    (bstate : block_state) : Z * deflate_stream :=
  let s := if is_finish_started bstate || is_finish_done bstate
           then set_status_ FINISH_STATE s else s in
  if is_need_more bstate || is_finish_started bstate then
    let s := if avail_out s =? 0 then set_last_flush_ (-1) s else s in
    (Z_OK, s)
  else if is_block_done bstate then
    let s :=
      if flush =? Z_PARTIAL_FLUSH then set_tr_ (_tr_align (tr_ s)) s
      else if negb (flush =? Z_BLOCK) then
        (* FULL_FLUSH or SYNC_FLUSH *)
        let s := set_tr_ (_tr_stored_block (tr_ s) None 0 0) s in
        if flush =? Z_FULL_FLUSH then
          let s := CLEAR_HASH s in   (* forget history *)
          if lookahead_ s =? 0 then
            set_insert_ 0 (set_block_start_ 0 (set_strstart_ 0 s))
          else s
        else s
      else s in
    let s := flush_pending s in
    if avail_out s =? 0 then (Z_OK, set_last_flush_ (-1) s)
    else deflate_end s flush
  else deflate_end s flush.

(** [deflate(flush)]; the result code comes first. *)
Definition deflate (fuel : nat) (strm : deflate_stream) (flush : Z)
  : option (Z * deflate_stream) :=
  if (Z_BLOCK <? flush) || (flush <? 0) then Some (Z_STREAM_ERROR, strm)
  else
    let s := strm in
    if match next_out strm with None => true | Some _ => false end
       || (match next_in strm with None => true | Some _ => false end
           && negb (avail_in strm =? 0))
       || ((status_ s =? FINISH_STATE) && negb (flush =? Z_FINISH))
    then Some (ERR_RETURN strm Z_STREAM_ERROR)
    else if avail_out strm =? 0 then Some (ERR_RETURN strm Z_BUF_ERROR)
    else
      let old_flush := last_flush_ s in
      let s := set_last_flush_ flush s in
      (* the code after the test of the pending output *)
      let go := fun s =>
        (* User must not provide more input after the first FINISH: *)
        if (status_ s =? FINISH_STATE) && negb (avail_in s =? 0)
        then Some (ERR_RETURN s Z_BUF_ERROR)
        else
          (* Start a new block or continue the current one. *)
          if negb (avail_in s =? 0) || negb (lookahead_ s =? 0)
             || (negb (flush =? Z_NO_FLUSH) && negb (status_ s =? FINISH_STATE))
          then
            match run_engine fuel s flush with
            | None => None
            | Some (bstate, s) => Some (deflate_after_engine s flush bstate)
            end
          else Some (deflate_end s flush) in
      (* Flush as much pending output as possible *)
      if negb (pending_ s =? 0) then
        let s := flush_pending s in
        if avail_out s =? 0 then Some (Z_OK, set_last_flush_ (-1) s)
        else go s
      else if (avail_in s =? 0) && (RANK flush <=? RANK old_flush)
              && negb (flush =? Z_FINISH)
      then Some (ERR_RETURN s Z_BUF_ERROR)
      else go s.

(** [lm_init(s)]: initialize the "longest match" routines for a new zlib
    stream. *)
Definition lm_init (s : deflate_stream) : deflate_stream :=
  let s := set_window_size_ (u32 (2 * w_size_ s)) s in
  let s := CLEAR_HASH s in
  let s := set_max_lazy_match_ (max_lazy (get_config (level_ s))) s in
  let s := set_good_match_ (good_length (get_config (level_ s))) s in
  let s := set_nice_match_ (nice_length (get_config (level_ s))) s in
  let s := set_max_chain_length_ (max_chain (get_config (level_ s))) s in
  let s := set_strstart_ 0 s in
  let s := set_block_start_ 0 s in
  let s := set_lookahead_ 0 s in
  let s := set_insert_ 0 s in
  let s := set_prev_length_ (MIN_MATCH - 1) s in
  let s := set_match_length_ (MIN_MATCH - 1) s in
  let s := set_match_available_ 0 s in
  set_ins_h_ 0 s.

(** [deflate_stream::deflateResetKeep(strm)] of [deflate.cpp]. *)
Definition deflateResetKeep (strm : deflate_stream) : Z * deflate_stream :=
  let strm := set_total_out 0 strm in
  let strm := set_total_in 0 strm in
  let strm := set_msg None strm in
  let strm := set_tr_ (set_data_type Z_UNKNOWN (tr_ strm)) strm in
  let s := strm in
  let s := set_tr_ (set_pending_out_ [] (tr_ s)) s in   (* pending_ = 0 *)
  let s := set_status_ BUSY_STATE s in
  let s := set_last_flush_ Z_NO_FLUSH s in
  let s := set_tr_ (_tr_init (tr_ s)) s in
  (Z_OK, s).

(** [deflate_stream::deflateReset(strm)] of [deflate.cpp]. *)
Definition deflateReset (strm : deflate_stream) : Z * deflate_stream :=
  let '(ret, strm) := deflateResetKeep strm in
  if ret =? Z_OK then (ret, lm_init strm) else (ret, strm).

(** [deflateInit2(strm, level, method, windowBits, memLevel, strategy)].
    Memory obtained from [std::malloc] is taken to hold zeros, and an
    allocation does not fail. *)
Definition deflateInit2 (strm : deflate_stream)
    (level method windowBits memLevel strategy : Z) : Z * deflate_stream :=
  let strm := set_msg None strm in
  let level := if level =? Z_DEFAULT_COMPRESSION then 6 else level in
  (* suppress zlib wrapper *)
  let windowBits := if windowBits <? 0 then - windowBits else windowBits in
  if (memLevel <? 1) || (MAX_MEM_LEVEL <? memLevel)
     || negb (method =? Z_DEFLATED)
     || (windowBits <? 8) || (15 <? windowBits)
     || (level <? 0) || (9 <? level)
     || (strategy <? 0) || (Z_FIXED <? strategy)
  then (Z_STREAM_ERROR, strm)
  else
    (* until 256-byte window bug fixed *)
    let windowBits := if windowBits =? 8 then 9 else windowBits in
    let s := strm in
    let s := set_w_bits_ windowBits s in
    let s := set_w_size_ (Z.shiftl 1 (w_bits_ s)) s in
    let s := set_w_mask_ (w_size_ s - 1) s in
    let s := set_hash_bits_ (memLevel + 7) s in
    let s := set_hash_size_ (Z.shiftl 1 (hash_bits_ s)) s in
    let s := set_hash_mask_ (hash_size_ s - 1) s in
    let s := set_hash_shift_ ((hash_bits_ s + MIN_MATCH - 1) / MIN_MATCH) s in
    let s := set_window_ (repeat 0 (Z.to_nat (w_size_ s * 2))) s in
    let s := set_prev_ (repeat 0 (Z.to_nat (w_size_ s))) s in
    let s := set_head_ (repeat 0 (Z.to_nat (hash_size_ s))) s in
    let s := set_high_water_ 0 s in   (* nothing written to window yet *)
    let s := set_lit_bufsize_ (Z.shiftl 1 (memLevel + 6)) s in
    let s := set_pending_buf_size_ (u32 (lit_bufsize_ s * 4)) s in
    let s := set_tr_ (set_d_buf_ (repeat 0 (Z.to_nat (lit_bufsize_ s))) (tr_ s)) s in
    let s := set_tr_ (set_l_buf_ (repeat 0 (Z.to_nat (lit_bufsize_ s))) (tr_ s)) s in
    let s := set_level_ level s in
    let s := set_strategy_ strategy s in
    deflateReset s.

(** [deflateInit(strm, level)]. *)
Definition deflateInit (strm : deflate_stream) (level : Z) : Z * deflate_stream :=
  deflateInit2 strm level Z_DEFLATED 15 DEF_MEM_LEVEL Z_DEFAULT_STRATEGY.

(** One turn of the [do ... while (--n)] loop of [deflateSetDictionary], on
    the stream and [str]. *)
Definition dictionary_insert (a : deflate_stream * Z) : deflate_stream * Z :=
  let '(s, str) := a in
  let s := set_ins_h_
             (UPDATE_HASH s (ins_h_ s) (get (window_ s) (str + MIN_MATCH - 1))) s in
  let s := set_prev_
             (put (prev_ s) (Z.land str (w_mask_ s)) (get (head_ s) (ins_h_ s))) s in
  let s := set_head_ (put (head_ s) (ins_h_ s) (u16 str)) s in
  (s, u32 (str + 1)).

(** The [while (s->lookahead_ >= MIN_MATCH)] loop of
    [deflateSetDictionary]. *)
Fixpoint dictionary_loop (fuel : nat) (s : deflate_stream)
  : option deflate_stream :=
  match fuel with
  | O => None
  | S fuel' =>
      if MIN_MATCH <=? lookahead_ s then
        let str := strstart_ s in
        let n := u32 (lookahead_ s - (MIN_MATCH - 1)) in
        let '(s, str) := do_while_dec n dictionary_insert (s, str) in
        let s := set_strstart_ str s in
        let s := set_lookahead_ (MIN_MATCH - 1) s in
        match fill_window fuel' s with
        | None => None
        | Some s => dictionary_loop fuel' s
        end
      else Some s
  end.

(** [deflateSetDictionary(dictionary, dictLength)]. *)
Definition deflateSetDictionary (fuel : nat) (strm : deflate_stream)
    (dictionary : option (list Z)) (dictLength : Z)
  : option (Z * deflate_stream) :=
  let s := strm in
  if negb (lookahead_ s =? 0) then Some (Z_STREAM_ERROR, strm)
  else
    (* if dictionary would fill window, just replace the history *)
    let '(s, dictionary, dictLength) :=
      if w_size_ s <=? dictLength then
        let s := CLEAR_HASH s in
        let s := set_strstart_ 0 s in
        let s := set_block_start_ 0 s in
        let s := set_insert_ 0 s in
        (* use the tail *)
        (s, option_map (fun p => advance p (u32 (dictLength - w_size_ s))) dictionary,
         w_size_ s)
      else (s, dictionary, dictLength) in
    (* insert dictionary into window and hash *)
    let avail := avail_in s in
    let next := next_in s in
    let s := set_avail_in dictLength s in
    let s := set_next_in dictionary s in
    match fill_window fuel s with
    | None => None
    | Some s =>
        match dictionary_loop fuel s with
        | None => None
        | Some s =>
            let s := set_strstart_ (u32 (strstart_ s + lookahead_ s)) s in
            let s := set_block_start_ (strstart_ s) s in
            let s := set_insert_ (lookahead_ s) s in
            let s := set_lookahead_ 0 s in
            let s := set_prev_length_ (MIN_MATCH - 1) s in
            let s := set_match_length_ (MIN_MATCH - 1) s in
            let s := set_match_available_ 0 s in
            let s := set_next_in next s in
            let s := set_avail_in avail s in
            Some (Z_OK, s)
        end
    end.

(** [deflateTune(strm, good_length, max_lazy, nice_length, max_chain)]. *)
Definition deflateTune (strm : deflate_stream)
    (good_length max_lazy nice_length max_chain : Z) : Z * deflate_stream :=
  let s := set_good_match_ (u32 good_length) strm in
  let s := set_max_lazy_match_ (u32 max_lazy) s in
  let s := set_nice_match_ nice_length s in
  let s := set_max_chain_length_ (u32 max_chain) s in
  (Z_OK, s).

(** [deflateParams(strm, level, strategy)]. *)
Definition deflateParams (fuel : nat) (strm : deflate_stream)
    (level strategy : Z) : option (Z * deflate_stream) :=
  let level := if level =? Z_DEFAULT_COMPRESSION then 6 else level in
  if (level <? 0) || (9 <? level) || (strategy <? 0) || (Z_FIXED <? strategy)
  then Some (Z_STREAM_ERROR, strm)
  else
    let same_func :=
      match func (get_config (level_ strm)), func (get_config level) with
      | func_stored, func_stored | func_fast, func_fast
      | func_slow, func_slow => true
      | _, _ => false
      end in
    let flushed :=
      if (negb (strategy =? strategy_ strm) || negb same_func)
         && negb (total_in strm =? 0)
      then
        (* Flush the last buffer: *)
        match deflate fuel strm Z_BLOCK with
        | None => None
        | Some (err, s) =>
            Some (if (err =? Z_BUF_ERROR) && (pending_ s =? 0) then Z_OK else err, s)
        end
      else Some (Z_OK, strm) in
    match flushed with
    | None => None
    | Some (err, s) =>
        let s :=
          if negb (level_ s =? level) then
            let s := set_level_ level s in
            let s := set_max_lazy_match_ (max_lazy (get_config level)) s in
            let s := set_good_match_ (good_length (get_config level)) s in
            let s := set_nice_match_ (nice_length (get_config level)) s in
            set_max_chain_length_ (max_chain (get_config level)) s
          else s in
        Some (err, set_strategy_ strategy s)
    end.

(** [deflateBound(strm, sourceLen)], in [uLong] arithmetic. *)
Definition deflateBound (strm : deflate_stream) (sourceLen : Z) : Z :=
  let add := fun a b => uLong (a + b) in
  (* conservative upper bound for compressed data *)
  let complen :=
    add (add (add sourceLen (Z.shiftr (add sourceLen 7) 3))
             (Z.shiftr (add sourceLen 63) 6)) 5 in
  (* compute wrapper length *)
  let s := strm in
  let wraplen := 0 in
  (* if not default parameters, return conservative bound *)
  if negb (w_bits_ s =? 15) || negb (hash_bits_ s =? 8 + 7)
  then add complen wraplen
  else
    (* default settings: return tight bound for that case *)
    add (uLong (add (add (add (add sourceLen (Z.shiftr sourceLen 12))
                              (Z.shiftr sourceLen 14))
                         (Z.shiftr sourceLen 25)) 13 - 6)) wraplen.

End Deflate.

Arguments tree_state : clear implicits.
Arguments deflate_stream : clear implicits.
Arguments Trees : clear implicits.
Arguments step : clear implicits.

(** ** basic_deflate_stream *)

(** The member functions of [basic_deflate_stream.ipp].  The class has the
    fields of [deflate_stream]; its byte counters [total_in] and [total_out]
    live in the caller's [z_params]. *)
Module basic_deflate_stream.
Section Impl.

Context {T : Type} `{Trees T}.

(** [basic_deflate_stream::deflateResetKeep()]. *)
Definition deflateResetKeep (s : deflate_stream T) : deflate_stream T :=
  (* VFALCO TODO: total_in = 0; total_out = 0; msg = 0; data_type = Z_UNKNOWN; *)
  let s := set_tr_ (set_pending_out_ [] (tr_ s)) s in   (* pending_ = 0 *)
  let s := set_status_ BUSY_STATE s in
  let s := set_last_flush_ Z_NO_FLUSH s in
  set_tr_ (_tr_init (tr_ s)) s.

(** [basic_deflate_stream::deflateReset()]. *)
Definition deflateReset (s : deflate_stream T) : deflate_stream T :=
  lm_init (deflateResetKeep s).

(** [basic_deflate_stream::reset(level, windowBits, memLevel, strategy)];
    [None] when it throws [std::invalid_argument].  The new buffer is taken
    to hold zeros. *)
Definition reset (s : deflate_stream T) (level windowBits memLevel strategy : Z)
  : option (deflate_stream T) :=
  let level := if level =? Z_DEFAULT_COMPRESSION then 6 else level in
  (* until 256-byte window bug fixed *)
  let windowBits := if windowBits =? 8 then 9 else windowBits in
  if (level <? 0) || (9 <? level) then None
  else if (windowBits <? 8) || (15 <? windowBits) then None
  else if (memLevel <? 1) || (MAX_MEM_LEVEL <? memLevel) then None
  else
    let s := set_w_bits_ windowBits s in
    let s := set_w_size_ (Z.shiftl 1 (w_bits_ s)) s in
    let s := set_w_mask_ (w_size_ s - 1) s in
    let s := set_hash_bits_ (memLevel + 7) s in
    let s := set_hash_size_ (Z.shiftl 1 (hash_bits_ s)) s in
    let s := set_hash_mask_ (hash_size_ s - 1) s in
    let s := set_hash_shift_ ((hash_bits_ s + MIN_MATCH - 1) / MIN_MATCH) s in
    (* 16K elements by default *)
    let s := set_lit_bufsize_ (Z.shiftl 1 (memLevel + 6)) s in
    let s := set_window_ (repeat 0 (Z.to_nat (w_size_ s * 2))) s in
    let s := set_prev_ (repeat 0 (Z.to_nat (w_size_ s))) s in
    let s := set_head_ (repeat 0 (Z.to_nat (hash_size_ s))) s in
    let s := set_high_water_ 0 s in   (* nothing written to window_ yet *)
    let s := set_pending_buf_size_ (u32 (lit_bufsize_ s * 4)) s in
    let s := set_tr_ (set_d_buf_ (repeat 0 (Z.to_nat (lit_bufsize_ s))) (tr_ s)) s in
    let s := set_tr_ (set_l_buf_ (repeat 0 (Z.to_nat (lit_bufsize_ s))) (tr_ s)) s in
    let s := set_level_ level s in
    let s := set_strategy_ strategy s in
    Some (deflateReset s).

(** [deflate_upper_bound(bytes)], in [std::size_t] arithmetic. *)
Definition deflate_upper_bound (bytes : Z) : Z :=
  let add := fun a b => uLong (a + b) in
  add (add (add (add bytes (Z.shiftr (add bytes 7) 3))
                (Z.shiftr (add bytes 63) 6)) 5) 6.

(** [basic_deflate_stream::upper_bound(sourceLen)], in [std::size_t]
    arithmetic. *)
Definition upper_bound (s : deflate_stream T) (sourceLen : Z) : Z :=
  let add := fun a b => uLong (a + b) in
  (* conservative upper bound for compressed data *)
  let complen :=
    add (add (add sourceLen (Z.shiftr (add sourceLen 7) 3))
             (Z.shiftr (add sourceLen 63) 6)) 5 in
  (* compute wrapper length *)
  let wraplen := 0 in
  (* if not default parameters, return conservative bound *)
  if negb (w_bits_ s =? 15) || negb (hash_bits_ s =? 8 + 7)
  then add complen wraplen
  else
    (* default settings: return tight bound for that case *)
    add (uLong (add (add (add (add sourceLen (Z.shiftr sourceLen 12))
                              (Z.shiftr sourceLen 14))
                         (Z.shiftr sourceLen 25)) 13 - 6)) wraplen.

End Impl.
End basic_deflate_stream.

(** ** An implementation of the trees interface *)

(** Modelled from the spec: a trees subsystem (section 6.2) that writes every
    block in stored form and keeps no statistics.  Its private data is the
    bit accumulator [(bi_buf, bi_valid)].  It serves to run the stream on
    concrete inputs. *)
Module StoredTrees.

Definition tree : Type := tree_state (Z * Z).

Definition put_byte (t : tree) (c : Z) : tree :=
  set_pending_out_ (pending_out_ t ++ [u8 c]) t.

Definition put_short (t : tree) (w : Z) : tree :=
  put_byte (put_byte t (Z.land w 255)) (Z.shiftr (u16 w) 8).

Definition set_bits (bi_buf bi_valid : Z) (t : tree) : tree :=
  {| tr_priv := (bi_buf, bi_valid); pending_out_ := pending_out_ t;
     last_lit_ := last_lit_ t; d_buf_ := d_buf_ t; l_buf_ := l_buf_ t;
     dyn_ltree_ := dyn_ltree_ t; dyn_dtree_ := dyn_dtree_ t;
     data_type := data_type t |}.

Definition send_bits (t : tree) (value length : Z) : tree :=
  let '(bi_buf, bi_valid) := tr_priv t in
  if 16 - length <? bi_valid then
    let bi_buf := u16 (Z.lor bi_buf (Z.shiftl value bi_valid)) in
    let t := put_short t bi_buf in
    set_bits (Z.shiftr (u16 value) (16 - bi_valid)) (bi_valid + length - 16) t
  else
    set_bits (u16 (Z.lor bi_buf (Z.shiftl value bi_valid))) (bi_valid + length) t.

Definition bi_flush (t : tree) : tree :=
  let '(bi_buf, bi_valid) := tr_priv t in
  if bi_valid =? 16 then set_bits 0 0 (put_short t bi_buf)
  else if 8 <=? bi_valid then
    set_bits (Z.shiftr bi_buf 8) (bi_valid - 8) (put_byte t bi_buf)
  else t.

Definition bi_windup (t : tree) : tree :=
  let '(bi_buf, bi_valid) := tr_priv t in
  if 8 <? bi_valid then set_bits 0 0 (put_short t bi_buf)
  else if 0 <? bi_valid then set_bits 0 0 (put_byte t bi_buf)
  else set_bits 0 0 t.

Definition init_block (t : tree) : tree :=
  let t := set_dyn_ltree_ (map (fun _ => 0) (dyn_ltree_ t)) t in
  let t := set_dyn_dtree_ (map (fun _ => 0) (dyn_dtree_ t)) t in
  set_last_lit_ 0 t.

Definition tr_stored_block (t : tree) (buf : option (list Z))
    (stored_len last : Z) : tree :=
  let t := send_bits t last 3 in   (* (STORED_BLOCK << 1) + last *)
  let t := bi_windup t in
  let t := put_short t stored_len in
  let t := put_short t (Z.lnot stored_len) in
  let bytes := match buf with Some p => bytes_at p stored_len | None => [] end in
  set_pending_out_ (pending_out_ t ++ map u8 bytes) t.

Definition tr_flush_block (level strategy : Z) (t : tree)
    (buf : option (list Z)) (stored_len last : Z) : tree :=
  let t := tr_stored_block t buf stored_len last in
  let t := init_block t in
  if last =? 0 then t else bi_windup t.

Definition tr_align (t : tree) : tree :=
  bi_flush (send_bits (send_bits t 2 3) 0 7).   (* STATIC_TREES << 1, END_BLOCK *)

Definition tr_init (t : tree) : tree := init_block (set_bits 0 0 t).

#[global] Instance trees : Trees (Z * Z) := {|
  _length_code := fun _ => 0;
  d_code := fun _ => 0;
  _tr_init := tr_init;
  _tr_flush_block := tr_flush_block;
  _tr_stored_block := tr_stored_block;
  _tr_align := tr_align;
  _tr_flush_bits := bi_flush
|}.

(** A stream object before [deflateInit2]. *)
Definition blank : deflate_stream (Z * Z) :=
  {| next_in := None; avail_in := 0; total_in := 0;
     next_out := None; avail_out := 0; total_out := 0;
     msg := None; status_ := 0; pending_buf_size_ := 0;
     last_flush_ := 0; w_size_ := 0; w_bits_ := 0;
     w_mask_ := 0; window_ := []; window_size_ := 0;
     prev_ := []; head_ := []; ins_h_ := 0;
     hash_size_ := 0; hash_bits_ := 0;
     hash_mask_ := 0; hash_shift_ := 0;
     block_start_ := 0; match_length_ := 0;
     prev_match_ := 0; match_available_ := 0;
     strstart_ := 0; match_start_ := 0;
     lookahead_ := 0; prev_length_ := 0;
     max_chain_length_ := 0;
     max_lazy_match_ := 0; level_ := 0;
     strategy_ := 0; good_match_ := 0;
     nice_match_ := 0; lit_bufsize_ := 0;
     insert_ := 0; high_water_ := 0;
     tr_ := {| tr_priv := (0, 0); pending_out_ := []; last_lit_ := 0;
               d_buf_ := []; l_buf_ := [];
               dyn_ltree_ := repeat 0 573; dyn_dtree_ := repeat 0 61;
               data_type := 0 |};
     blocks_ := [] |}.

(** The stream after [deflateInit2(level, Z_DEFLATED, windowBits, memLevel,
    strategy)]. *)
Definition init (level windowBits memLevel strategy : Z) : deflate_stream (Z * Z) :=
  snd (deflateInit2 blank level Z_DEFLATED windowBits memLevel strategy).

(** The caller's buffers: [input] to read, room for [room] bytes of
    output. *)
Definition with_buffers (input : list Z) (room : Z) (s : deflate_stream (Z * Z))
  : deflate_stream (Z * Z) :=
  set_avail_out room
    (set_next_out (Some [])
       (set_avail_in (zlen input) (set_next_in (Some input) s))).

End StoredTrees.

(** ** Notions used in the statements *)

(** The least integer that is not below [n / d]. *)
Definition ceil_div (n d : Z) : Z := n / d + (if n mod d =? 0 then 0 else 1).

Section Notions.
Context {T : Type} `{Trees T}.

(** What the chain loop of [longest_match] keeps true: [best_len] is the
    largest of [prev_length] and of the lengths computed so far, and every
    computed length is between [MIN_MATCH] and [MAX_MATCH]. *)
Definition chain_ok (s : deflate_stream T) (c : chain_state) : Prop :=
  best_len c = fold_right Z.max (prev_length_ s) (map snd (examined c))
  /\ Forall (fun e => MIN_MATCH <= snd e <= MAX_MATCH) (examined c).

(** The positions [a, a + 1, ..., a + n - 1]. *)
Definition zseq (a : Z) (n : nat) : list Z :=
  map (fun i => a + Z.of_nat i) (seq 0 n).

(** [INSERT_STRING] at each position of [l], in order. *)
Definition insert_strings (s : deflate_stream T) (l : list Z) : deflate_stream T :=
  fold_left (fun s p => fst (INSERT_STRING s p)) l s.

(** Two streams hold the same hash chains over the same window. *)
Definition same_hash (s1 s2 : deflate_stream T) : Prop :=
  head_ s1 = head_ s2 /\ prev_ s1 = prev_ s2 /\ ins_h_ s1 = ins_h_ s2
  /\ window_ s1 = window_ s2 /\ hash_shift_ s1 = hash_shift_ s2
  /\ hash_mask_ s1 = hash_mask_ s2 /\ w_mask_ s1 = w_mask_ s2.









(** The [i]-th position on the hash chain that starts at [cur]. *)
Fixpoint chain_pos (s : deflate_stream T) (cur : Z) (i : nat) : Z :=
  match i with
  | O => cur
  | S i' => get (prev_ s) (Z.land (chain_pos s cur i') (w_mask_ s))
  end.

(** The string at [m] and the current string have the same first [n]
    bytes. *)
Definition agree (s : deflate_stream T) (m n : Z) : Prop :=
  forall i, 0 <= i < n ->
  get (window_ s) (m + i) = get (window_ s) (strstart_ s + i).

(** The local variables [limit], [nice_match] and [chain_length] of
    [longest_match] on entry of its loop; of [chain_length], the number of
    times that [--chain_length != 0] holds. *)
Definition chain_limit (s : deflate_stream T) : Z :=
  if MAX_DIST s <? strstart_ s then u32 (strstart_ s - MAX_DIST s) else NIL.

Definition chain_nice (s : deflate_stream T) : Z :=
  if lookahead_ s <? u32 (nice_match_ s) then lookahead_ s else nice_match_ s.

Definition chain_budget (s : deflate_stream T) : nat :=
  Z.to_nat
    (u32 ((if good_match_ s <=? prev_length_ s
           then Z.shiftr (max_chain_length_ s) 2 else max_chain_length_ s) - 1)).

(** A candidate [(cur, len)] agrees with the current string over [len]
    bytes but for the third one, which [longest_match] does not compare,
    and over no more than [len] bytes unless [len] is [MAX_MATCH]. *)
Definition candidate_ok (s : deflate_stream T) (e : Z * Z) : Prop :=
  let w := window_ s in
  let '(cur, len) := e in
  MIN_MATCH <= len <= MAX_MATCH
  /\ get w cur = get w (strstart_ s)
  /\ get w (cur + 1) = get w (strstart_ s + 1)
  /\ (forall i, MIN_MATCH <= i < len -> get w (cur + i) = get w (strstart_ s + i))
  /\ (len < MAX_MATCH -> get w (cur + len) <> get w (strstart_ s + len)).

(** The match that the chain loop has recorded is the longest candidate
    compared so far, or none is longer than [prev_length] and
    [match_start_] is untouched. *)
Definition best_recorded (s : deflate_stream T) (c : chain_state) : Prop :=
  (best_len c = prev_length_ s /\ chain_match_start c = match_start_ s)
  \/ (prev_length_ s < best_len c
      /\ In (chain_match_start c, best_len c) (examined c)).

(** What a turn of an engine may do under the flush mode [flush]: leave
    the loop only when a flush is wanted, and return only [need_more], for
    lack of input without a flush or for lack of room for the output. *)
Definition step_disciplined (flush : Z) (st : step T) : Prop :=
  match st with
  | Continue _ => True
  | Break _ => flush <> Z_NO_FLUSH
  | Return b s => b = need_more /\ (flush = Z_NO_FLUSH \/ avail_out s = 0)
  end.

(** What the block state returned by an engine tells about the flush mode
    and the output. *)
Definition engine_result_ok (flush : Z) (r : block_state * deflate_stream T)
  : Prop :=
  match fst r with
  | need_more => flush = Z_NO_FLUSH \/ avail_out (snd r) = 0
  | block_done => flush <> Z_NO_FLUSH /\ flush <> Z_FINISH
  | finish_started => flush = Z_FINISH /\ avail_out (snd r) = 0
  | finish_done =>
      flush = Z_FINISH /\ avail_out (snd r) <> 0 /\ pending_ (snd r) = 0
  end.

(** What the result of [deflate] tells: [Z_STREAM_END] comes only for
    [Z_FINISH], with the stream finished, nothing pending and room left in
    the output; [Z_OK] for [Z_FINISH] comes only with the output full, and
    then [last_flush_] is reset so that the next call is not taken for a
    repeated one. *)
Definition deflate_result_ok (flush : Z) (r : Z * deflate_stream T) : Prop :=
  (fst r = Z_STREAM_END /\ flush = Z_FINISH /\ status_ (snd r) = FINISH_STATE
   /\ pending_ (snd r) = 0 /\ avail_out (snd r) <> 0)
  \/ (fst r = Z_OK
      /\ (flush = Z_FINISH -> avail_out (snd r) = 0 /\ last_flush_ (snd r) = -1))
  \/ fst r = Z_STREAM_ERROR
  \/ fst r = Z_BUF_ERROR.

(** The state that a turn leaves. *)
Definition step_state (st : step T) : deflate_stream T :=
  match st with
  | Continue s => s
  | Break s => s
  | Return _ s => s
  end.

(** The counters of the [z_stream] part are in the range of their types. *)
Definition io_ok (s : deflate_stream T) : Prop :=
  0 <= avail_in s < 2 ^ 32 /\ 0 <= avail_out s < 2 ^ 32
  /\ 0 <= total_in s < 2 ^ 64 /\ 0 <= total_out s < 2 ^ 64.

(** The [z_stream] part is the same in [s] and [s']. *)
Definition same_io (s s' : deflate_stream T) : Prop :=
  next_in s' = next_in s /\ avail_in s' = avail_in s
  /\ total_in s' = total_in s /\ next_out s' = next_out s
  /\ avail_out s' = avail_out s /\ total_out s' = total_out s.

(** From [s] to [s'], [k] bytes of input were consumed and the bytes
    [bytes] were written: the pointers moved by as much, the counts of what
    is available went down by as much, and the totals went up by as much. *)
Definition io_moved (s s' : deflate_stream T) (k : Z) (bytes : list Z) : Prop :=
  0 <= k <= avail_in s
  /\ avail_in s' = avail_in s - k
  /\ total_in s' = uLong (total_in s + k)
  /\ next_in s' = option_map (fun p => advance p k) (next_in s)
  /\ zlen bytes <= avail_out s
  /\ avail_out s' = avail_out s - zlen bytes
  /\ total_out s' = uLong (total_out s + zlen bytes)
  /\ next_out s' = option_map (fun o => o ++ bytes) (next_out s).

Definition io_step (s s' : deflate_stream T) : Prop :=
  io_ok s' /\ exists k bytes, io_moved s s' k bytes.

End Notions.

(** ** Streams for the examples *)

Module Examples.
Import StoredTrees.

(** A stream with a window of 2 * 512 bytes that is about to slide:
    [strstart_] is 800, beyond [w_size_ + MAX_DIST = 762], and the hash
    table holds positions on both sides of 512. *)
Definition before_slide : deflate_stream (Z * Z) :=
  let s := init 6 9 1 0 in
  let s := set_window_ (map (fun i => Z.of_nat i mod 256) (seq 0 1024)) s in
  let s := set_high_water_ 1024 s in
  let s := set_strstart_ 800 s in
  let s := set_lookahead_ 100 s in
  let s := set_block_start_ 780 s in
  let s := set_match_start_ 100 s in
  let s := set_head_ (put (put (head_ s) 3 600) 5 40) s in
  set_prev_ (put (put (prev_ s) 88 700) 200 511) s.

(** A stream whose window holds [abcabc...], at position 6 with 300 bytes
    of lookahead and no match so far. *)
Definition repeating : deflate_stream (Z * Z) :=
  let s := init 6 9 1 0 in
  let s := set_window_ (map (fun i => 97 + Z.of_nat i mod 3) (seq 0 1024)) s in
  let s := set_high_water_ 1024 s in
  let s := set_strstart_ 6 s in
  let s := set_lookahead_ 300 s in
  let s := set_head_ (put (head_ s) 0 4) s in
  set_prev_ (put (put (prev_ s) 4 1) 5 2) s.

(** The stream that [deflate(Z_NO_FLUSH)] leaves at level 6 after the 266
    bytes [abcabc...]: it stopped at position 5 for lack of lookahead, with
    the match found at position 4 still to be decided. *)
Definition lazy_pending : deflate_stream (Z * Z) :=
  match deflate 20
          (with_buffers (map (fun i => 97 + Z.of_nat i mod 3) (seq 0 266)) 100
             (init 6 9 1 0))
          Z_NO_FLUSH with
  | Some (_, s) => s
  | None => blank
  end.

(** [lazy_pending] at the decision of the next turn of [deflate_slow]. *)
Definition lazy_decision : deflate_stream (Z * Z) := slow_search lazy_pending.




(** A level-6 stream with a 512-byte window, offered the three bytes [abc]
    and room for 100 bytes of output. *)
Definition fresh_abc : deflate_stream (Z * Z) :=
  with_buffers [97; 98; 99] 100 (init 6 9 1 0).

(** What [deflate(Z_FINISH)] makes of [fresh_abc]. *)
Definition finished_abc : deflate_stream (Z * Z) :=
  match deflate 20 fresh_abc Z_FINISH with
  | Some (_, s) => s
  | None => blank
  end.

(** A level-0 stream offered [abc], with room for 4 bytes of output only,
    where the stored block takes 8. *)
Definition cramped_abc : deflate_stream (Z * Z) :=
  with_buffers [97; 98; 99] 4 (init 0 9 1 0).

(** What [deflate(Z_FINISH)] makes of [cramped_abc]: 4 bytes are written and
    4 are pending. *)
Definition stalled_abc : deflate_stream (Z * Z) :=
  match deflate 9 cramped_abc Z_FINISH with
  | Some (_, s) => s
  | None => blank
  end.

(** [stalled_abc] with room for 3 more bytes. *)
Definition resumed_abc : deflate_stream (Z * Z) := set_avail_out 3 stalled_abc.

(** A level-6 stream with the default window and memory level. *)
Definition default_6 : deflate_stream (Z * Z) := init 6 15 8 0.

(** A stream at position 28, with 300 bytes of lookahead, whose hash chain
    from position 20 holds three earlier strings: [abcdefzz] at 20,
    [abcdxxxx] at 12 and [abcdefgh] at 4, for the current string
    [abcdefgq]. *)
Definition three_candidates : deflate_stream (Z * Z) :=
  let s := init 6 9 1 0 in
  let text := [122; 122; 122; 122;
               97; 98; 99; 100; 101; 102; 103; 104;
               97; 98; 99; 100; 120; 120; 120; 120;
               97; 98; 99; 100; 101; 102; 122; 122;
               97; 98; 99; 100; 101; 102; 103; 113] in
  let s := set_window_ (blit (window_ s) 0 text) s in
  let s := set_high_water_ 1024 s in
  let s := set_strstart_ 28 s in
  let s := set_lookahead_ 300 s in
  set_prev_ (put (put (prev_ s) 20 12) 12 4) s.

(** A level-0 stream with a 512-byte window, offered 900 bytes with room
    for 600 bytes of output: [deflate] stops for lack of room after the
    second block, at position 900. *)
Definition stored_900 : deflate_stream (Z * Z) :=
  with_buffers (map (fun i => Z.of_nat i mod 251) (seq 0 900)) 600
    (init 0 9 1 0).

(** [stored_900] after [deflate(Z_NO_FLUSH)], offered three bytes more and
    room for 5000 bytes. *)
Definition stored_900_resumed : deflate_stream (Z * Z) :=
  match deflate 20 stored_900 Z_NO_FLUSH with
  | Some (_, s) => with_buffers [1; 2; 3] 5000 s
  | None => blank
  end.

End Examples.

(** * Properties *)

(** ** Machine integers and arrays *)

(** Evaluates the projections of updated records. *)
Ltac fields :=
  cbn [tr_priv pending_out_ last_lit_ d_buf_ l_buf_ dyn_ltree_ dyn_dtree_ data_type next_in avail_in total_in next_out avail_out total_out msg status_ pending_buf_size_ last_flush_ w_size_ w_bits_ w_mask_ window_ window_size_ prev_ head_ ins_h_ hash_size_ hash_bits_ hash_mask_ hash_shift_ block_start_ match_length_ prev_match_ match_available_ strstart_ match_start_ lookahead_ prev_length_ max_chain_length_ max_lazy_match_ level_ strategy_ good_match_ nice_match_ lit_bufsize_ insert_ high_water_ tr_ blocks_
       set_pending_out_ set_last_lit_ set_d_buf_ set_l_buf_ set_dyn_ltree_ set_dyn_dtree_ set_data_type set_next_in set_avail_in set_total_in set_next_out set_avail_out set_total_out set_msg set_status_ set_pending_buf_size_ set_last_flush_ set_w_size_ set_w_bits_ set_w_mask_ set_window_ set_window_size_ set_prev_ set_head_ set_ins_h_ set_hash_size_ set_hash_bits_ set_hash_mask_ set_hash_shift_ set_block_start_ set_match_length_ set_prev_match_ set_match_available_ set_strstart_ set_match_start_ set_lookahead_ set_prev_length_ set_max_chain_length_ set_max_lazy_match_ set_level_ set_strategy_ set_good_match_ set_nice_match_ set_lit_bufsize_ set_insert_ set_high_water_ set_tr_ set_blocks_
       fst snd] in *.

Lemma u32_small x : 0 <= x < 2 ^ 32 -> u32 x = x.
Proof. intros; unfold u32; apply Z.mod_small; lia. Qed.

Lemma u16_small x : 0 <= x < 2 ^ 16 -> u16 x = x.
Proof. intros; unfold u16; apply Z.mod_small; lia. Qed.

Lemma u8_small x : 0 <= x < 2 ^ 8 -> u8 x = x.
Proof. intros; unfold u8; apply Z.mod_small; lia. Qed.

Lemma uLong_small x : 0 <= x < 2 ^ 64 -> uLong x = x.
Proof. intros; unfold uLong; apply Z.mod_small; lia. Qed.

Lemma uLong_sub_l a b : uLong (uLong a - b) = uLong (a - b).
Proof. unfold uLong. apply Zminus_mod_idemp_l. Qed.

Lemma uLong_idem a : uLong (uLong a) = uLong a.
Proof. unfold uLong. apply Z.mod_mod. lia. Qed.

(** Removes, from the inside, the wrap-arounds that [lia] proves to be
    no-ops. *)
Ltac unwrap small :=
  repeat match goal with
  | |- context [?f ?x] =>
      lazymatch f with uLong => idtac | u32 => idtac | u16 => idtac | u8 => idtac end;
      lazymatch x with
      | context [uLong _] => fail | context [u32 _] => fail
      | context [u16 _] => fail | context [u8 _] => fail
      | _ => idtac
      end;
      rewrite (small x) by lia
  end.

Lemma ceil_div_shift n k : 0 < k -> 0 <= n ->
  Z.shiftr (n + (2 ^ k - 1)) k = ceil_div n (2 ^ k).
Proof.
  intros Hk Hn. rewrite Z.shiftr_div_pow2 by lia. unfold ceil_div.
  assert (Hp : 0 < 2 ^ k) by (apply Z.pow_pos_nonneg; lia).
  pose proof (Z.div_mod n (2 ^ k) ltac:(lia)) as E.
  pose proof (Z.mod_pos_bound n (2 ^ k) Hp) as B.
  destruct (Z.eqb_spec (n mod 2 ^ k) 0) as [e|ne].
  - rewrite e in E. rewrite Z.add_0_r.
    symmetry. apply Z.div_unique with (r := 2 ^ k - 1); lia.
  - symmetry. apply Z.div_unique with (r := n mod 2 ^ k - 1); lia.
Qed.

Lemma ceil_div_ge n d : 0 < d -> n <= d * ceil_div n d.
Proof.
  intros Hd. unfold ceil_div.
  pose proof (Z.div_mod n d ltac:(lia)) as E.
  pose proof (Z.mod_pos_bound n d Hd) as B.
  destruct (Z.eqb_spec (n mod d) 0); lia.
Qed.

(** ** The bound on the compressed size *)

Section Bound.
Context {T : Type} `{Trees T}.

(** [deflateBound] and [upper_bound] compute the same value. *)
Lemma deflateBound_upper_bound (s : deflate_stream T) (n : Z) :
  deflateBound s n = basic_deflate_stream.upper_bound s n.
Proof. reflexivity. Qed.

(** [reset] stores its parameters: [w_bits_] is [windowBits] (9 for 8) and
    [hash_bits_] is [memLevel + 7]. *)
Lemma reset_parameters_match (s0 : deflate_stream T)
    (level windowBits memLevel strategy : Z) :
  match basic_deflate_stream.reset s0 level windowBits memLevel strategy with
  | Some s =>
      w_bits_ s = (if windowBits =? 8 then 9 else windowBits)
      /\ hash_bits_ s = memLevel + 7
      /\ 8 <= windowBits <= 15 /\ 1 <= memLevel <= 9
  | None => True
  end.
Proof.
  unfold basic_deflate_stream.reset.
  destruct ((_ <? 0) || (9 <? _)); [exact I|].
  destruct ((_ <? 8) || (15 <? _)) eqn:Ew; [exact I|].
  destruct ((memLevel <? 1) || (MAX_MEM_LEVEL <? memLevel)) eqn:Em; [exact I|].
  apply orb_false_elim in Ew as [Ew1 Ew2], Em as [Em1 Em2].
  unfold MAX_MEM_LEVEL in *.
  split; [reflexivity|]. split; [reflexivity|].
  destruct (Z.eqb_spec windowBits 8); lia.
Qed.

Lemma reset_parameters (s0 s : deflate_stream T)
    (level windowBits memLevel strategy : Z) :
  basic_deflate_stream.reset s0 level windowBits memLevel strategy = Some s ->
  w_bits_ s = (if windowBits =? 8 then 9 else windowBits)
  /\ hash_bits_ s = memLevel + 7
  /\ 8 <= windowBits <= 15 /\ 1 <= memLevel <= 9.
Proof.
  intros E.
  pose proof (reset_parameters_match s0 level windowBits memLevel strategy) as P.
  rewrite E in P. exact P.
Qed.

(** The value of [upper_bound] in terms of the fields that it reads. *)
Lemma upper_bound_fields (s : deflate_stream T) (n : Z) :
  0 <= n ->
  let bound := if (w_bits_ s =? 15) && (hash_bits_ s =? 15)
               then n + Z.shiftr n 12 + Z.shiftr n 14 + Z.shiftr n 25 + 7
               else n + ceil_div n 8 + ceil_div n 64 + 5 in
  bound < 2 ^ 64 ->
  basic_deflate_stream.upper_bound s n = bound.
Proof.
  intros Hn bound Hb. unfold basic_deflate_stream.upper_bound.
  change (8 + 7) with 15.
  pose proof (proj2 (Z.shiftr_nonneg n 12) Hn) as S12.
  pose proof (proj2 (Z.shiftr_nonneg n 14) Hn) as S14.
  pose proof (proj2 (Z.shiftr_nonneg n 25) Hn) as S25.
  pose proof (ceil_div_shift n 3 ltac:(lia) Hn) as C8.
  pose proof (ceil_div_shift n 6 ltac:(lia) Hn) as C64.
  change (2 ^ 3 - 1) with 7 in C8. change (2 ^ 3) with 8 in C8.
  change (2 ^ 6 - 1) with 63 in C64. change (2 ^ 6) with 64 in C64.
  pose proof (ceil_div_ge n 8 ltac:(lia)) as G8.
  pose proof (ceil_div_ge n 64 ltac:(lia)) as G64.
  assert (0 <= ceil_div n 8) by (rewrite <- C8; apply Z.shiftr_nonneg; lia).
  assert (0 <= ceil_div n 64) by (rewrite <- C64; apply Z.shiftr_nonneg; lia).
  subst bound.
  destruct (Z.eqb_spec (w_bits_ s) 15), (Z.eqb_spec (hash_bits_ s) 15);
    cbn [negb orb andb] in *.
  - unwrap uLong_small.
    rewrite Z.add_0_r, uLong_idem, uLong_sub_l, uLong_small by lia. lia.
  - rewrite (uLong_small (n + 7)), (uLong_small (n + 63)) by lia.
    rewrite C8, C64. unwrap uLong_small. lia.
  - rewrite (uLong_small (n + 7)), (uLong_small (n + 63)) by lia.
    rewrite C8, C64. unwrap uLong_small. lia.
  - rewrite (uLong_small (n + 7)), (uLong_small (n + 63)) by lia.
    rewrite C8, C64. unwrap uLong_small. lia.
Qed.

(** C4, amended.  For a stream set up by
    [reset level windowBits memLevel strategy] and every [sourceLen] [n]
    for which the value below is less than [2^64], [upper_bound n] is
    [n + (n >> 12) + (n >> 14) + (n >> 25) + 7] when [windowBits = 15] and
    [memLevel = 8], and [n + ceil(n/8) + ceil(n/64) + 5] for every other
    combination of parameters.  [upper_bound] computes in [std::size_t]:
    beyond that range its sums wrap around. *)
Theorem upper_bound_spec (s0 s : deflate_stream T)
    (level windowBits memLevel strategy n : Z) :
  basic_deflate_stream.reset s0 level windowBits memLevel strategy = Some s ->
  0 <= n ->
  let bound := if (windowBits =? 15) && (memLevel =? 8)
               then n + Z.shiftr n 12 + Z.shiftr n 14 + Z.shiftr n 25 + 7
               else n + ceil_div n 8 + ceil_div n 64 + 5 in
  bound < 2 ^ 64 ->
  basic_deflate_stream.upper_bound s n = bound.
Proof.
  intros R Hn bound Hb.
  destruct (reset_parameters _ _ _ _ _ _ R) as (Ew & Eh & Hw & Hm).
  assert (E1 : (w_bits_ s =? 15) = (windowBits =? 15)).
  { rewrite Ew. destruct (Z.eqb_spec windowBits 8) as [->|]; reflexivity. }
  assert (E2 : (hash_bits_ s =? 15) = (memLevel =? 8)).
  { rewrite Eh. destruct (Z.eqb_spec (memLevel + 7) 15), (Z.eqb_spec memLevel 8);
      lia || reflexivity. }
  subst bound. rewrite <- E1, <- E2 in *.
  apply upper_bound_fields; assumption.
Qed.

End Bound.

(** [upper_bound_spec] on a stream with the default parameters and on one
    with a 512-byte window, for a source of 100000 bytes. *)
Lemma upper_bound_spec_witness :
  (exists s,
     basic_deflate_stream.reset StoredTrees.blank 6 15 8 0 = Some s
     /\ basic_deflate_stream.upper_bound s 100000 = 100037)
  /\ (exists s,
        basic_deflate_stream.reset StoredTrees.blank 6 9 8 0 = Some s
        /\ basic_deflate_stream.upper_bound s 100000 = 114068).
Proof.
  split.
  - eexists. split; [reflexivity|].
    apply (upper_bound_spec StoredTrees.blank _ 6 15 8 0 100000);
      [reflexivity | lia | vm_compute; reflexivity].
  - eexists. split; [reflexivity|].
    apply (upper_bound_spec StoredTrees.blank _ 6 9 8 0 100000);
      [reflexivity | lia | vm_compute; reflexivity].
Defined.

(** C4 as stated fails at the upper end of [std::size_t], where the sums
    wrap around.  For [sourceLen = 2^64 - 1] and a 512-byte window
    [upper_bound] returns 4, while [n + ceil(n/8) + ceil(n/64) + 5] is
    21040817459074957316, and 2594073385365405700 modulo [2^64].  With the
    default parameters it returns 5630049290027011, which is
    [n + (n >> 12) + (n >> 14) + (n >> 25) + 7] modulo [2^64] only. *)
Lemma upper_bound_counterexample :
  (exists s,
     basic_deflate_stream.reset StoredTrees.blank 6 9 8 0 = Some s
     /\ basic_deflate_stream.upper_bound s (2 ^ 64 - 1) = 4)
  /\ (2 ^ 64 - 1) + ceil_div (2 ^ 64 - 1) 8 + ceil_div (2 ^ 64 - 1) 64 + 5
     = 21040817459074957316
  /\ uLong 21040817459074957316 = 2594073385365405700
  /\ 4 <> 21040817459074957316 /\ 4 <> 2594073385365405700
  /\ (exists s,
        basic_deflate_stream.reset StoredTrees.blank 6 15 8 0 = Some s
        /\ basic_deflate_stream.upper_bound s (2 ^ 64 - 1) = 5630049290027011)
  /\ (2 ^ 64 - 1) + Z.shiftr (2 ^ 64 - 1) 12 + Z.shiftr (2 ^ 64 - 1) 14
     + Z.shiftr (2 ^ 64 - 1) 25 + 7
     = 18452374122999578627
  /\ 5630049290027011 <> 18452374122999578627.
Proof.
  split; [eexists; split; [reflexivity|vm_compute; reflexivity]|].
  split; [vm_compute; reflexivity|].
  split; [vm_compute; reflexivity|].
  split; [lia|]. split; [lia|].
  split; [eexists; split; [reflexivity|vm_compute; reflexivity]|].
  split; [vm_compute; reflexivity|lia].
Qed.
(** ** The session driver *)

Section Driver.
Context {T : Type} `{Trees T}.

(** The tests of the arguments at the start of [deflate] pass. *)
Lemma deflate_arguments_pass (s : deflate_stream T) (flush : Z) :
  0 <= flush <= Z_BLOCK ->
  next_out s <> None ->
  (next_in s = None -> avail_in s = 0) ->
  (status_ s = FINISH_STATE -> flush = Z_FINISH) ->
  (Z_BLOCK <? flush) || (flush <? 0) = false
  /\ match next_out s with None => true | Some _ => false end
     || (match next_in s with None => true | Some _ => false end
         && negb (avail_in s =? 0))
     || ((status_ s =? FINISH_STATE) && negb (flush =? Z_FINISH)) = false.
Proof.
  intros [Hlo Hhi] Hout Hin Hst. split.
  - apply orb_false_intro; apply Z.ltb_ge; lia.
  - destruct (next_out s); [|congruence]. cbn [orb].
    apply orb_false_intro.
    + destruct (next_in s); [reflexivity|]. rewrite (Hin eq_refl). reflexivity.
    + destruct (Z.eqb_spec (status_ s) FINISH_STATE) as [e|]; [|reflexivity].
      rewrite (Hst e). reflexivity.
Qed.

(** C10.  A call of [deflate] with otherwise valid arguments and
    [avail_out = 0] returns [Z_BUF_ERROR] at once: the stream that it leaves
    is the one that it was given, but for the error message [msg].  So no
    input byte is consumed, no output byte is produced, and [total_in],
    [total_out] and the compression state are unchanged. *)
Theorem deflate_no_output_space (fuel : nat) (s : deflate_stream T) (flush : Z) :
  0 <= flush <= Z_BLOCK ->
  next_out s <> None ->
  (next_in s = None -> avail_in s = 0) ->
  (status_ s = FINISH_STATE -> flush = Z_FINISH) ->
  avail_out s = 0 ->
  exists m, deflate fuel s flush = Some (Z_BUF_ERROR, set_msg m s).
Proof.
  intros Hf Hout Hin Hst Hav.
  destruct (deflate_arguments_pass s flush Hf Hout Hin Hst) as [E1 E2].
  unfold deflate. rewrite E1, E2, Hav. cbn.
  eexists. reflexivity.
Qed.

(** C3, amended.  When [deflate] is called with a valid flush value, a
    non-null [next_out] and a stream that is not finished, and there is no
    pending output, [avail_in = 0], [RANK(flush) <= RANK(last_flush_)] and
    [flush] is not [Z_FINISH], the call fails with [Z_BUF_ERROR] and
    produces no output. *)
Theorem deflate_redundant_flush (fuel : nat) (s : deflate_stream T) (flush : Z) :
  0 <= flush <= Z_BLOCK ->
  next_out s <> None ->
  status_ s <> FINISH_STATE ->
  pending_ s = 0 ->
  avail_in s = 0 ->
  RANK flush <= RANK (last_flush_ s) ->
  flush <> Z_FINISH ->
  exists s',
    deflate fuel s flush = Some (Z_BUF_ERROR, s')
    /\ next_out s' = next_out s /\ avail_out s' = avail_out s
    /\ total_out s' = total_out s /\ tr_ s' = tr_ s.
Proof.
  intros Hf Hout Hst Hp Hin Hr Hfin.
  destruct (deflate_arguments_pass s flush Hf Hout
              (fun _ => Hin) (fun e => False_ind _ (Hst e))) as [E1 E2].
  unfold deflate. rewrite E1, E2.
  destruct (avail_out s =? 0).
  - eexists. split; [reflexivity|]. repeat split.
  - unfold pending_ in *. cbn. rewrite Hp, Hin. cbn.
    replace (RANK flush <=? RANK (last_flush_ s)) with true
      by (symmetry; apply Z.leb_le; exact Hr).
    replace (flush =? Z_FINISH) with false
      by (symmetry; apply Z.eqb_neq; exact Hfin).
    cbn. eexists. split; [reflexivity|]. repeat split.
Qed.

End Driver.

(** [deflate_no_output_space] on a fresh stream whose output buffer is
    full. *)
Lemma deflate_no_output_space_witness :
  exists m,
    deflate 1 (StoredTrees.with_buffers [97] 0 (StoredTrees.init 6 9 1 0))
      Z_SYNC_FLUSH
    = Some (Z_BUF_ERROR,
            set_msg m (StoredTrees.with_buffers [97] 0 (StoredTrees.init 6 9 1 0))).
Proof.
  apply (deflate_no_output_space 1
           (StoredTrees.with_buffers [97] 0 (StoredTrees.init 6 9 1 0))
           Z_SYNC_FLUSH).
  - vm_compute. split; discriminate.
  - discriminate.
  - discriminate.
  - vm_compute. discriminate.
  - reflexivity.
Defined.

(** [deflate_redundant_flush] on a fresh stream: a first call without
    input and without flush. *)
Lemma deflate_redundant_flush_witness :
  exists s',
    deflate 1 (StoredTrees.with_buffers [] 100 (StoredTrees.init 6 9 1 0))
      Z_NO_FLUSH = Some (Z_BUF_ERROR, s')
    /\ next_out s' = Some [] /\ avail_out s' = 100
    /\ total_out s' = 0
    /\ tr_ s' = tr_ (StoredTrees.init 6 9 1 0).
Proof.
  apply (deflate_redundant_flush 1
           (StoredTrees.with_buffers [] 100 (StoredTrees.init 6 9 1 0))
           Z_NO_FLUSH).
  - vm_compute. split; discriminate.
  - discriminate.
  - vm_compute. discriminate.
  - reflexivity.
  - reflexivity.
  - vm_compute. discriminate.
  - discriminate.
Defined.

(** C3 as stated fails after the end of the stream.  [deflate(Z_FINISH)] on
    the one byte [97] returns [Z_STREAM_END]; on the stream that it leaves
    there is no pending output, [avail_in = 0] and
    [RANK(Z_NO_FLUSH) <= RANK(last_flush_)], and yet [deflate(Z_NO_FLUSH)]
    returns [Z_STREAM_ERROR], not [Z_BUF_ERROR]. *)
Lemma deflate_redundant_flush_counterexample :
  exists s,
    deflate 9 (StoredTrees.with_buffers [97] 100 (StoredTrees.init 6 9 1 0))
      Z_FINISH = Some (Z_STREAM_END, s)
    /\ pending_ s = 0 /\ avail_in s = 0
    /\ RANK Z_NO_FLUSH <= RANK (last_flush_ s)
    /\ Z_NO_FLUSH <> Z_FINISH
    /\ option_map fst (deflate 9 s Z_NO_FLUSH) = Some Z_STREAM_ERROR
    /\ Z_STREAM_ERROR <> Z_BUF_ERROR.
Proof.
  eexists. split; [vm_compute; reflexivity|].
  repeat split; try (vm_compute; congruence).
Qed.

(** ** Reset and dictionary *)

Section Reset.
Context {T : Type} `{Trees T}.

(** C8, amended.  [basic_deflate_stream::deflateResetKeep], where the
    assignments are commented out, leaves [total_in] and [total_out] as
    they are; [deflate_stream::deflateResetKeep] sets both to zero. *)
Theorem deflateResetKeep_totals (s : deflate_stream T) :
  (total_in (basic_deflate_stream.deflateResetKeep s) = total_in s
   /\ total_out (basic_deflate_stream.deflateResetKeep s) = total_out s)
  /\ (total_in (snd (deflateResetKeep s)) = 0
      /\ total_out (snd (deflateResetKeep s)) = 0).
Proof. repeat split. Qed.

(** C9, amended.  [deflateSetDictionary] fails with [Z_STREAM_ERROR], and
    leaves the stream as it is, when [lookahead_] is not zero: when bytes
    that were read into the window are still to be compressed. *)
Theorem deflateSetDictionary_lookahead (fuel : nat) (s : deflate_stream T)
    (dictionary : option (list Z)) (dictLength : Z) :
  lookahead_ s <> 0 ->
  deflateSetDictionary fuel s dictionary dictLength = Some (Z_STREAM_ERROR, s).
Proof.
  intros Hl. unfold deflateSetDictionary.
  replace (lookahead_ s =? 0) with false by (symmetry; apply Z.eqb_neq; exact Hl).
  reflexivity.
Qed.

End Reset.

(** C8 as stated fails for [deflate_stream::deflateResetKeep]: after one
    byte was compressed, [total_in = 1] and [total_out = 6], and the
    function sets both to [0]. *)
Lemma deflateResetKeep_counterexample :
  exists s,
    deflate 9 (StoredTrees.with_buffers [97] 100 (StoredTrees.init 6 9 1 0))
      Z_FINISH = Some (Z_STREAM_END, s)
    /\ total_in s = 1 /\ total_out s = 6
    /\ total_in (snd (deflateResetKeep s)) = 0
    /\ total_out (snd (deflateResetKeep s)) = 0.
Proof.
  eexists. split; [vm_compute; reflexivity|].
  repeat split.
Qed.

(** [deflateSetDictionary_lookahead] on a stream that holds one byte of
    lookahead: [deflate(Z_NO_FLUSH)] has read the byte [97] and waits for
    more input. *)
Lemma deflateSetDictionary_lookahead_witness :
  exists s,
    deflate 9 (StoredTrees.with_buffers [97] 100 (StoredTrees.init 6 9 1 0))
      Z_NO_FLUSH = Some (Z_OK, s)
    /\ lookahead_ s = 1
    /\ deflateSetDictionary 9 s (Some [98; 99; 100]) 3 = Some (Z_STREAM_ERROR, s).
Proof.
  eexists. split; [vm_compute; reflexivity|].
  split; [reflexivity|].
  apply deflateSetDictionary_lookahead. vm_compute. discriminate.
Defined.

(** C9 as stated fails on a stream that has consumed input and holds no
    lookahead.  After [deflate(Z_SYNC_FLUSH)] on the byte [97],
    [total_in = 1]; [deflateSetDictionary] with the dictionary [98 99 100]
    returns [Z_OK], writes the dictionary into the window and the hash
    table, and moves [strstart_] from 1 to 4. *)
Lemma deflateSetDictionary_counterexample :
  exists s s',
    deflate 9 (StoredTrees.with_buffers [97] 100 (StoredTrees.init 6 9 1 0))
      Z_SYNC_FLUSH = Some (Z_OK, s)
    /\ total_in s = 1
    /\ deflateSetDictionary 9 s (Some [98; 99; 100]) 3 = Some (Z_OK, s')
    /\ strstart_ s = 1 /\ strstart_ s' = 4
    /\ firstn 4 (window_ s) = [97; 0; 0; 0]
    /\ firstn 4 (window_ s') = [97; 98; 99; 100]
    /\ head_ s' <> head_ s.
Proof.
  eexists. eexists. split; [vm_compute; reflexivity|].
  split; [reflexivity|].
  split; [vm_compute; reflexivity|].
  repeat split. vm_compute. discriminate.
Qed.

(** ** The slide of the window *)

Lemma get_nth (l : list Z) (i : Z) : 0 <= i -> get l i = nth (Z.to_nat i) l 0.
Proof.
  intros Hi. unfold get.
  replace (i <? 0) with false by (symmetry; apply Z.ltb_ge; exact Hi).
  reflexivity.
Qed.

(** A full copy of the upper half onto the lower half. *)
Lemma blit_upper_half (w : list Z) (W : Z) :
  0 <= W -> zlen w = 2 * W ->
  blit w 0 (bytes_at (advance w W) W) = advance w W ++ advance w W.
Proof.
  intros HW Hlen. unfold blit, bytes_at, advance, zlen in *.
  assert (Hs : length (skipn (Z.to_nat W) w) = Z.to_nat W)
    by (rewrite length_skipn; lia).
  rewrite (firstn_all2 (n := Z.to_nat W)) by lia.
  rewrite (firstn_all2 (n := (length w - Z.to_nat 0)%nat)) by lia.
  change (Z.to_nat 0) with O. rewrite Hs. reflexivity.
Qed.

Lemma map_first_all (n : Z) (f : Z -> Z) (l : list Z) :
  zlen l = n -> map_first n f l = map f l.
Proof.
  intros <-. unfold map_first, zlen. rewrite Nat2Z.id.
  rewrite firstn_all, skipn_all. apply app_nil_r.
Qed.

(** On 16-bit entries the rebasing of the hash table needs no wrap-around. *)
Lemma rebase_entry (W m : Z) :
  0 < W -> 0 <= m < 2 ^ 16 ->
  u16 (if W <=? m then m - W else NIL) = (if m <? W then 0 else m - W).
Proof.
  intros HW Hm. unfold NIL.
  destruct (Z.leb_spec W m), (Z.ltb_spec m W); try lia.
  - apply u16_small. lia.
  - reflexivity.
Qed.

Section Slide.
Context {T : Type} `{Trees T}.

(** C5, amended.  When [fill_window] runs with [strstart >= W + MAX_DIST],
    on a stream whose window holds [2W] bytes and whose tables [head] and
    [prev] hold [hash_size] and [W] entries of 16 bits, its first effect is
    the slide [slide_window]: the rest of the turn, and the turns that
    follow, work on the stream that the slide leaves.  The slide copies
    [window[W .. 2W)] down to [[0 .. W)]; it decreases [strstart] and
    [block_start] by [W]; [match_start], which is unsigned, becomes
    [(match_start - W) mod 2^32], which is [match_start - W] when
    [match_start >= W]; and it replaces each entry of [head] and [prev] by
    [0] when it is below [W] and subtracts [W] from it otherwise. *)
Theorem fill_window_slides (fuel : nat) (s : deflate_stream T) :
  w_size_ s + MAX_DIST s <= strstart_ s ->
  MIN_LOOKAHEAD <= w_size_ s ->
  strstart_ s < 2 ^ 32 ->
  zlen (window_ s) = 2 * w_size_ s ->
  zlen (head_ s) = hash_size_ s ->
  zlen (prev_ s) = w_size_ s ->
  Forall (fun m => 0 <= m < 2 ^ 16) (head_ s) ->
  Forall (fun m => 0 <= m < 2 ^ 16) (prev_ s) ->
  let W := w_size_ s in
  let s1 := slide_window s in
  fill_window_loop (S fuel) s
  = (if avail_in s1 =? 0 then Some s1
     else
       let s2 := fill_window_read s1
                   (u32 (u32 (window_size_ s - lookahead_ s - strstart_ s) + W)) in
       if (lookahead_ s2 <? MIN_LOOKAHEAD) && negb (avail_in s2 =? 0)
       then fill_window_loop fuel s2 else Some s2)
  /\ (forall i, 0 <= i < W -> get (window_ s1) i = get (window_ s) (W + i))
  /\ match_start_ s1 = u32 (match_start_ s - W)
  /\ (W <= match_start_ s < 2 ^ 32 -> match_start_ s1 = match_start_ s - W)
  /\ strstart_ s1 = strstart_ s - W
  /\ block_start_ s1 = block_start_ s - W
  /\ head_ s1 = map (fun m => if m <? W then 0 else m - W) (head_ s)
  /\ prev_ s1 = map (fun m => if m <? W then 0 else m - W) (prev_ s).
Proof.
  intros Hslide HW' Hstr Hwin Hhead Hprev Fhead Fprev W s1.
  assert (HW : 0 < w_size_ s) by (unfold MIN_LOOKAHEAD, MAX_MATCH, MIN_MATCH in HW'; lia).
  assert (HMD : W <= strstart_ s)
    by (unfold MAX_DIST in Hslide; subst W; lia).
  repeat split.
  - cbn [fill_window_loop].
    replace (w_size_ s + MAX_DIST s <=? strstart_ s) with true
      by (symmetry; apply Z.leb_le; exact Hslide).
    reflexivity.
  - intros i Hi. subst s1. unfold slide_window. fields.
    rewrite blit_upper_half by (lia || assumption).
    rewrite !get_nth by lia. unfold advance.
    rewrite app_nth1 by (rewrite length_skipn; unfold zlen in Hwin; lia).
    rewrite nth_skipn. f_equal. subst W. lia.
  - intros Hm. subst s1. unfold slide_window. fields. apply u32_small. subst W. lia.
  - subst s1. unfold slide_window. fields. apply u32_small. subst W. lia.
  - subst s1. unfold slide_window. fields.
    rewrite map_first_all by assumption.
    apply map_ext_Forall. revert Fhead. apply Forall_impl.
    intros m Hm. apply rebase_entry; assumption.
  - subst s1. unfold slide_window. fields.
    rewrite map_first_all by assumption.
    apply map_ext_Forall. revert Fprev. apply Forall_impl.
    intros m Hm. apply rebase_entry; assumption.
Qed.

End Slide.

(** A list of 16-bit entries, by computation. *)
Lemma Forall_u16_check (l : list Z) :
  forallb (fun m => (0 <=? m) && (m <? 2 ^ 16)) l = true ->
  Forall (fun m => 0 <= m < 2 ^ 16) l.
Proof.
  intros E. apply Forall_forall. intros m Hm.
  rewrite forallb_forall in E. specialize (E m Hm).
  apply andb_prop in E as [E1 E2].
  apply Z.leb_le in E1. apply Z.ltb_lt in E2. lia.
Qed.

(** [fill_window_slides] on [Examples.before_slide], without input: the
    slide is all that [fill_window_loop] does; [strstart] goes from 800 to
    288, [block_start] from 780 to 268, [match_start] from 100 to
    [2^32 - 412], the byte at 0 is the one that was at 512, and the head
    600 becomes 88 while the head 40 becomes 0. *)
Lemma fill_window_slides_witness :
  let s := Examples.before_slide in
  let s1 := slide_window s in
  fill_window_loop 1 s = Some s1
  /\ get (window_ s1) 0 = get (window_ s) 512
  /\ match_start_ s1 = 4294966884
  /\ strstart_ s1 = 288
  /\ block_start_ s1 = 268
  /\ get (head_ s) 3 = 600 /\ get (head_ s1) 3 = 88
  /\ get (head_ s) 5 = 40 /\ get (head_ s1) 5 = 0.
Proof.
  intros s s1.
  destruct (fill_window_slides 0 s) as (E & Hw & Hm & _ & Hs & Hb & Hh & Hp).
  - vm_compute. discriminate.
  - vm_compute. discriminate.
  - reflexivity.
  - reflexivity.
  - reflexivity.
  - reflexivity.
  - apply Forall_u16_check. vm_compute. reflexivity.
  - apply Forall_u16_check. vm_compute. reflexivity.
  - subst s1. split; [exact E|].
    split; [apply (Hw 0); vm_compute; split; congruence|].
    split; [rewrite Hm; reflexivity|].
    split; [rewrite Hs; reflexivity|].
    split; [rewrite Hb; reflexivity|].
    split; [reflexivity|].
    split; [rewrite Hh; reflexivity|].
    split; [reflexivity|].
    rewrite Hh. reflexivity.
Defined.

(** C5 as stated fails for [match_start], which is unsigned.  On
    [Examples.stored_900_resumed], the level-0 stream that a call of
    [deflate] left at position 900 with [match_start = 0], [fill_window]
    slides the window of [W = 512] bytes: [strstart] and [block_start]
    decrease by 512, but [match_start] becomes [2^32 - 512], not
    [0 - 512]. *)
Lemma fill_window_slides_counterexample :
  w_size_ Examples.stored_900_resumed = 512
  /\ MAX_DIST Examples.stored_900_resumed = 250
  /\ (strstart_ Examples.stored_900_resumed,
      block_start_ Examples.stored_900_resumed,
      match_start_ Examples.stored_900_resumed) = (900, 900, 0)
  /\ w_size_ Examples.stored_900_resumed + MAX_DIST Examples.stored_900_resumed
     <= strstart_ Examples.stored_900_resumed
  /\ option_map (fun s => (strstart_ s, block_start_ s, match_start_ s))
       (fill_window 20 Examples.stored_900_resumed)
     = Some (388, 388, 4294966784)
  /\ 4294966784 <> 0 - 512.
Proof.
  split; [vm_compute; reflexivity|].
  split; [vm_compute; reflexivity|].
  split; [vm_compute; reflexivity|].
  split; [vm_compute; congruence|].
  split; [vm_compute; reflexivity|lia].
Qed.
(** ** The match finder *)

(** A group of tests moves [scan] by at least one and at most [k], and by
    [k] when all the tests succeed. *)
Lemma scan_group_range (k : nat) (w : list Z) (scan mtch : Z) :
  let '(scan', _, same) := scan_group k w scan mtch in
  scan <= scan' <= scan + Z.of_nat k
  /\ (k <> O -> scan < scan')
  /\ (same = true -> scan' = scan + Z.of_nat k).
Proof.
  revert scan mtch. induction k as [|k IH]; intros scan mtch; cbn [scan_group].
  - split; [lia|]. split; [congruence|]. intros _. cbn. lia.
  - destruct (get w (scan + 1) =? get w (mtch + 1)).
    + specialize (IH (scan + 1) (mtch + 1)).
      destruct (scan_group k w (scan + 1) (mtch + 1)) as [[scan' mtch'] same].
      destruct IH as (R & _ & E). split; [lia|]. split; [lia|].
      intros Hs. specialize (E Hs). lia.
    + split; [lia|]. split; [lia|]. discriminate.
Qed.

(** The comparison loop stops between [scan + 1] and [strend] when it has
    room for exactly [n + 1] groups: the bound [n] on its turns is never
    reached. *)
Lemma scan_loop_range (n : nat) (w : list Z) (scan mtch strend : Z) :
  strend - scan = 8 * (Z.of_nat n + 1) ->
  scan < fst (scan_loop n w scan mtch strend) <= strend.
Proof.
  revert scan mtch. induction n as [|n IH]; intros scan mtch Hroom;
    cbn [scan_loop];
    pose proof (scan_group_range 8 w scan mtch) as G;
    destruct (scan_group 8 w scan mtch) as [[scan' mtch'] same];
    destruct G as (R & Hlt & E); specialize (Hlt ltac:(discriminate));
    change (Z.of_nat 8) with 8 in *.
  - destruct same; cbn [andb fst].
    + specialize (E eq_refl).
      destruct (Z.ltb_spec scan' strend); cbn [fst]; lia.
    + lia.
  - destruct same; cbn [andb fst].
    + specialize (E eq_refl).
      destruct (Z.ltb_spec scan' strend); cbn [fst]; [|lia].
      specialize (IH scan' mtch' ltac:(lia)). lia.
    + lia.
Qed.

Section Match.
Context {T : Type} `{Trees T}.

Lemma longest_match_body_ok (s : deflate_stream T) (nice : Z) (c : chain_state) :
  chain_ok s c -> chain_ok s (fst (longest_match_body s nice c)).
Proof.
  intros [Hb Hf]. unfold longest_match_body.
  destruct (negb _ || negb _ || negb _ || negb _); [split; assumption|].
  pose proof (scan_loop_range 31 (window_ s) (strstart_ s + 2) (cur_match c + 2)
                (strstart_ s + MAX_MATCH)) as R.
  destruct (scan_loop 31 (window_ s) (strstart_ s + 2) (cur_match c + 2)
              (strstart_ s + MAX_MATCH)) as [scan' mtch'].
  cbn [fst] in R. specialize (R ltac:(unfold MAX_MATCH; lia)).
  set (len := MAX_MATCH - (strstart_ s + MAX_MATCH - scan')).
  assert (Hlen : MIN_MATCH <= len <= MAX_MATCH)
    by (subst len; unfold MIN_MATCH, MAX_MATCH in *; lia).
  cbn [cur_match best_len scan_end1 scan_end chain_match_start examined].
  destruct (Z.ltb_spec (best_len c) len) as [Hlt|Hge].
  - destruct (nice <=? len); cbn [fst]; split;
      cbn [best_len examined map snd fold_right];
      try (constructor; assumption); rewrite <- Hb; lia.
  - cbn [fst]; split; cbn [best_len examined map snd fold_right];
      try (constructor; assumption). rewrite <- Hb. lia.
Qed.

Lemma longest_match_chain_ok (n : nat) (s : deflate_stream T) (nice limit : Z)
    (c : chain_state) :
  chain_ok s c -> chain_ok s (longest_match_chain n s nice limit c).
Proof.
  revert c. induction n as [|n IH]; intros c Hc; cbn [longest_match_chain];
    pose proof (longest_match_body_ok s nice c Hc) as Hc';
    destruct (longest_match_body s nice c) as [c' stop]; cbn [fst] in Hc';
    destruct stop; try assumption;
    cbn [cur_match best_len scan_end1 scan_end chain_match_start examined];
    destruct (limit <? _); try (apply IH); exact Hc'.
Qed.

Lemma longest_match_search_ok (s : deflate_stream T) (cur : Z) :
  chain_ok s (longest_match_search s cur).
Proof.
  unfold longest_match_search. apply longest_match_chain_ok.
  split; [reflexivity|constructor].
Qed.

(** The largest of [p] and of lengths between [MIN_MATCH] and [MAX_MATCH]
    is between [p] and the larger of [p] and [MAX_MATCH]. *)
Lemma fold_max_range (p : Z) (l : list (Z * Z)) :
  Forall (fun e => MIN_MATCH <= snd e <= MAX_MATCH) l ->
  p <= fold_right Z.max p (map snd l) <= Z.max p MAX_MATCH.
Proof.
  induction 1 as [|e l He _ IH]; cbn [map fold_right]; lia.
Qed.

End Match.
(** ** The lazy engine *)

Lemma zseq_S (a : Z) (n : nat) : zseq a (S n) = zseq a n ++ [a + Z.of_nat n].
Proof.
  unfold zseq. rewrite seq_S, map_app. reflexivity.
Qed.

Lemma get_put_same (l : list Z) (i v : Z) :
  0 <= i < zlen l -> get (put l i v) i = v.
Proof.
  intros [H0 Hl]. unfold get, put, zlen in *.
  replace (i <? 0) with false by (symmetry; apply Z.ltb_ge; exact H0).
  assert (Hn : (Z.to_nat i < length l)%nat) by lia. clear H0 Hl.
  revert l Hn. induction (Z.to_nat i) as [|n IH]; intros [|h t] Hn;
    cbn in *; try lia; try reflexivity. apply IH. lia.
Qed.

Section Slow.
Context {T : Type} `{Trees T}.

Lemma same_hash_refl (s : deflate_stream T) : same_hash s s.
Proof. repeat split. Qed.

(** [INSERT_STRING] reads and writes the hash chains only. *)
Lemma INSERT_STRING_same_hash (s1 s2 : deflate_stream T) (p : Z) :
  same_hash s1 s2 ->
  same_hash (fst (INSERT_STRING s1 p)) (fst (INSERT_STRING s2 p)).
Proof.
  intros (Eh & Ep & Ei & Ew & Es & Em & Ewm).
  unfold same_hash, INSERT_STRING, UPDATE_HASH. fields.
  rewrite Eh, Ep, Ei, Ew, Es, Em, Ewm. repeat split.
Qed.

(** The fields that [INSERT_STRING] leaves alone. *)
Lemma INSERT_STRING_frame (s : deflate_stream T) (p : Z) :
  let s' := fst (INSERT_STRING s p) in
  strstart_ s' = strstart_ s /\ lookahead_ s' = lookahead_ s
  /\ tr_ s' = tr_ s /\ match_available_ s' = match_available_ s
  /\ prev_length_ s' = prev_length_ s /\ match_length_ s' = match_length_ s
  /\ block_start_ s' = block_start_ s /\ blocks_ s' = blocks_ s
  /\ avail_out s' = avail_out s /\ avail_in s' = avail_in s.
Proof. repeat split. Qed.

(** The insertion loop of the commit, run [n] times: it inserts the
    positions after [strstart] that are not beyond [max_insert], and leaves
    [strstart] [n] bytes further. *)
Lemma slow_insert_loop (max_insert : Z) (n : nat) (s : deflate_stream T) :
  0 <= strstart_ s -> strstart_ s + Z.of_nat n < 2 ^ 32 ->
  let s' := Nat.iter n (slow_insert_next max_insert) s in
  same_hash s'
    (insert_strings s
       (filter (fun p => p <=? max_insert) (zseq (strstart_ s + 1) n)))
  /\ strstart_ s' = strstart_ s + Z.of_nat n
  /\ lookahead_ s' = lookahead_ s /\ tr_ s' = tr_ s
  /\ match_available_ s' = match_available_ s.
Proof.
  intros H0. induction n as [|n IH]; intros Hn s'.
  - subst s'. cbn. repeat split. lia.
  - destruct (IH ltac:(lia)) as (Eh & Es & El & Et & Ea).
    subst s'. rewrite Nat.iter_succ.
    remember (Nat.iter n (slow_insert_next max_insert) s) as sn eqn:Esn.
    clear Esn.
    rewrite zseq_S, filter_app. unfold insert_strings. rewrite fold_left_app.
    fold (insert_strings s
            (filter (fun p => p <=? max_insert) (zseq (strstart_ s + 1) n))).
    remember (insert_strings s
                (filter (fun p => p <=? max_insert) (zseq (strstart_ s + 1) n)))
      as ref eqn:Eref.
    clear Eref.
    unfold slow_insert_next. fields. rewrite Es.
    rewrite (u32_small (strstart_ s + Z.of_nat n + 1)) by lia.
    replace (strstart_ s + 1 + Z.of_nat n) with (strstart_ s + Z.of_nat n + 1) by lia.
    cbn [filter].
    destruct (strstart_ s + Z.of_nat n + 1 <=? max_insert).
    + cbn [fold_left].
      pose proof (INSERT_STRING_frame
                    (set_strstart_ (strstart_ s + Z.of_nat n + 1) sn)
                    (strstart_ s + Z.of_nat n + 1)) as F.
      cbn zeta in F. destruct F as (F1 & F2 & F3 & F4 & _).
      rewrite F1, F2, F3, F4. fields. split.
      * apply INSERT_STRING_same_hash.
        destruct Eh as (? & ? & ? & ? & ? & ? & ?). repeat split; assumption.
      * repeat split; try assumption. lia.
    + cbn [fold_left]. fields. split.
      * destruct Eh as (? & ? & ? & ? & ? & ? & ?). repeat split; assumption.
      * repeat split; try assumption. lia.
Qed.

Lemma same_hash_trans (s1 s2 s3 : deflate_stream T) :
  same_hash s1 s2 -> same_hash s2 s3 -> same_hash s1 s3.
Proof.
  intros (? & ? & ? & ? & ? & ? & ?) (? & ? & ? & ? & ? & ? & ?).
  repeat split; congruence.
Qed.

Lemma insert_strings_same_hash (l : list Z) (s1 s2 : deflate_stream T) :
  same_hash s1 s2 -> same_hash (insert_strings s1 l) (insert_strings s2 l).
Proof.
  revert s1 s2. induction l as [|p l IH]; intros s1 s2 E; [exact E|].
  unfold insert_strings. cbn [fold_left].
  apply IH. apply INSERT_STRING_same_hash. exact E.
Qed.

(** C7.  In [deflate_slow], when the search leaves [prev_length >=
    MIN_MATCH] and [match_length <= prev_length], the decision is the commit
    of the previous match, followed by the flush of the block if the tally
    asks for it.  The commit appends the token [(strstart - 1 - prev_match,
    prev_length - MIN_MATCH)] to the tally; inserts into the hash the
    positions [strstart + 1 .. strstart + prev_length - 2] that are not
    beyond [strstart + lookahead - MIN_MATCH], in order; advances [strstart]
    by [prev_length - 1]; and clears [match_available].  The hypotheses
    after the first two say that the stream is one that the engine can be
    in: the match is not longer than [MAX_MATCH], its distance fits 16 bits,
    the positions do not wrap around, and the tally has room. *)
Theorem slow_commit_previous_match (s : deflate_stream T) :
  MIN_MATCH <= prev_length_ s ->
  match_length_ s <= prev_length_ s ->
  prev_length_ s <= MAX_MATCH ->
  0 <= strstart_ s ->
  strstart_ s + prev_length_ s < 2 ^ 32 ->
  MIN_MATCH <= strstart_ s + lookahead_ s < 2 ^ 32 ->
  0 <= strstart_ s - 1 - prev_match_ s < 2 ^ 16 ->
  0 <= last_lit_ (tr_ s) < zlen (d_buf_ (tr_ s)) ->
  last_lit_ (tr_ s) < zlen (l_buf_ (tr_ s)) ->
  last_lit_ (tr_ s) + 1 < 2 ^ 32 ->
  let max_insert := strstart_ s + lookahead_ s - MIN_MATCH in
  let s' := fst (slow_commit s) in
  slow_decide s = flush_if (snd (slow_commit s)) s'
  /\ get (d_buf_ (tr_ s')) (last_lit_ (tr_ s)) = strstart_ s - 1 - prev_match_ s
  /\ get (l_buf_ (tr_ s')) (last_lit_ (tr_ s)) = prev_length_ s - MIN_MATCH
  /\ last_lit_ (tr_ s') = last_lit_ (tr_ s) + 1
  /\ same_hash s'
       (insert_strings s
          (filter (fun p => p <=? max_insert)
             (zseq (strstart_ s + 1) (Z.to_nat (prev_length_ s - 2)))))
  /\ strstart_ s' = strstart_ s + prev_length_ s - 1
  /\ match_available_ s' = 0.
Proof.
  intros Hmin Hml Hmax Hs0 Hs Hmi Hdist Hd Hl Hll max_insert s'.
  unfold MIN_MATCH, MAX_MATCH in *.
  split.
  { unfold slow_decide. unfold MIN_MATCH.
    replace (3 <=? prev_length_ s) with true by (symmetry; apply Z.leb_le; lia).
    replace (match_length_ s <=? prev_length_ s) with true
      by (symmetry; apply Z.leb_le; lia).
    cbn [andb]. subst s'. destruct (slow_commit s). reflexivity. }
  subst s'. unfold slow_commit, _tr_tally_dist. unfold MIN_MATCH. fields.
  rewrite (u32_small (strstart_ s - 1 - prev_match_ s)) by lia.
  rewrite (u32_small (prev_length_ s - 3)) by lia.
  rewrite (u32_small (prev_length_ s - 2)) by lia.
  rewrite (u32_small (strstart_ s + lookahead_ s - 3)) by lia.
  rewrite (u16_small (strstart_ s - 1 - prev_match_ s)) by lia.
  rewrite (u8_small (prev_length_ s - 3)) by lia.
  rewrite (u32_small (last_lit_ (tr_ s) + 1)) by lia.
  unfold do_while_dec.
  replace (prev_length_ s - 2 =? 0) with false by (symmetry; apply Z.eqb_neq; lia).
  match goal with
  | |- context [Nat.iter ?n ?f ?a] =>
      pose proof (slow_insert_loop (strstart_ s + lookahead_ s - 3) n a) as L;
      remember (Nat.iter n f a) as sL eqn:EsL; clear EsL
  end.
  fields. cbn zeta in L.
  specialize (L Hs0 ltac:(rewrite Z2Nat.id by lia; lia)).
  rewrite Z2Nat.id in L by lia.
  destruct L as (Lh & Lst & Llk & Ltr & Lma).
  rewrite Ltr. fields.
  split; [apply get_put_same; lia|].
  split; [apply get_put_same; lia|].
  split; [reflexivity|].
  split.
  - apply same_hash_trans with (s2 := sL);
      [destruct Lh as (? & ? & ? & ? & ? & ? & ?); repeat split|].
    eapply same_hash_trans; [exact Lh|].
    subst max_insert. unfold MIN_MATCH.
    apply insert_strings_same_hash. repeat split.
  - split; [|reflexivity]. rewrite Lst, u32_small by lia. lia.
Qed.

End Slow.

(** [slow_commit_previous_match] on [Examples.lazy_decision]: the match of
    length 258 found at position 4, three bytes back, is committed at
    position 5; the token is [(3, 255)], no position is inserted beyond
    [5 + 261 - 3], and [strstart] becomes 262. *)
Lemma slow_commit_previous_match_witness :
  let s := Examples.lazy_decision in
  let s' := fst (slow_commit s) in
  strstart_ s = 5 /\ lookahead_ s = 261
  /\ prev_length_ s = 258 /\ match_length_ s = 2 /\ prev_match_ s = 1
  /\ slow_decide s = flush_if (snd (slow_commit s)) s'
  /\ get (d_buf_ (tr_ s')) (last_lit_ (tr_ s)) = 3
  /\ get (l_buf_ (tr_ s')) (last_lit_ (tr_ s)) = 255
  /\ same_hash s'
       (insert_strings s
          (filter (fun p => p <=? 263) (zseq 6 256)))
  /\ strstart_ s' = 262
  /\ match_available_ s' = 0.
Proof.
  intros s s'.
  destruct (slow_commit_previous_match s)
    as (Hdec & Hd & Hl & _ & Hh & Hs & Hm);
    try (vm_compute; (split; congruence) || congruence).
  do 5 (split; [vm_compute; reflexivity|]).
  split; [exact Hdec|].
  split; [exact Hd|].
  split; [exact Hl|].
  split; [exact Hh|].
  split; [exact Hs|exact Hm].
Defined.

(** ** The stored engine *)

Section Stored.
Context {T : Type} `{Trees T}.






















End Stored.



(** * Further properties *)

(** ** Arrays *)

Lemma nth_firstn_lt (l : list Z) (n i : nat) (d : Z) :
  (i < n)%nat -> nth i (firstn n l) d = nth i l d.
Proof.
  intros Hi. rewrite nth_firstn.
  replace (i <? n)%nat with true by (symmetry; apply Nat.ltb_lt; exact Hi).
  reflexivity.
Qed.

Lemma blit_length (dst : list Z) (off : Z) (src : list Z) :
  length (blit dst off src) = length dst.
Proof.
  unfold blit. cbn zeta.
  repeat (rewrite length_app || rewrite length_firstn || rewrite length_skipn).
  lia.
Qed.

Lemma get_blit_inside (dst : list Z) (off : Z) (src : list Z) (i : Z) :
  0 <= off -> off + zlen src <= zlen dst -> 0 <= i < zlen src ->
  get (blit dst off src) (off + i) = get src i.
Proof.
  unfold zlen. intros Ho Hfit Hi. rewrite !get_nth by lia. unfold blit.
  rewrite (firstn_all2 (n := (length dst - Z.to_nat off)%nat)) by lia.
  rewrite app_nth2; rewrite length_firstn; [|lia].
  rewrite app_nth1 by lia. f_equal. lia.
Qed.

Lemma get_blit_outside (dst : list Z) (off : Z) (src : list Z) (j : Z) :
  0 <= off -> off + zlen src <= zlen dst ->
  j < off \/ off + zlen src <= j ->
  get (blit dst off src) j = get dst j.
Proof.
  unfold zlen. intros Ho Hfit Hj.
  destruct (Z.ltb_spec j 0) as [Hneg|Hpos].
  { unfold get. replace (j <? 0) with true by (symmetry; apply Z.ltb_lt; lia).
    reflexivity. }
  rewrite !get_nth by lia. unfold blit.
  rewrite (firstn_all2 (n := (length dst - Z.to_nat off)%nat)) by lia.
  destruct Hj as [Hj|Hj].
  - rewrite app_nth1 by (rewrite length_firstn; lia).
    apply nth_firstn_lt. lia.
  - rewrite app_nth2; rewrite length_firstn; [|lia].
    rewrite app_nth2 by lia. rewrite nth_skipn. f_equal. lia.
Qed.

Lemma zlen_bytes_at (p : list Z) (n : Z) :
  0 <= n <= zlen p -> zlen (bytes_at p n) = n.
Proof.
  unfold zlen, bytes_at. intros Hn. rewrite length_firstn. lia.
Qed.

Lemma get_bytes_at (p : list Z) (n i : Z) :
  0 <= i < n -> get (bytes_at p n) i = get p i.
Proof.
  intros Hi. rewrite !get_nth by lia. unfold bytes_at.
  apply nth_firstn_lt. lia.
Qed.

Lemma get_put_other (l : list Z) (i j v : Z) :
  i <> j -> get (put l i v) j = get l j.
Proof.
  intros Hij. unfold get, put.
  destruct (Z.ltb_spec j 0); [reflexivity|].
  destruct (Z.ltb_spec i 0); [reflexivity|].
  assert (Hn : Z.to_nat i <> Z.to_nat j) by lia.
  clear -Hn. revert l Hn. generalize (Z.to_nat j) as m.
  induction (Z.to_nat i) as [|n IH]; intros m [|h t] Hn; destruct m;
    cbn; try reflexivity; try lia. apply IH. lia.
Qed.

Lemma put_length (l : list Z) (i v : Z) : length (put l i v) = length l.
Proof.
  unfold put. destruct (i <? 0); [reflexivity|].
  revert l. induction (Z.to_nat i) as [|n IH]; intros [|h t]; cbn;
    try reflexivity. f_equal. apply IH.
Qed.

(** ** Input and output *)

Section InputOutput.
Context {T : Type} `{Trees T}.

(** X1.  [flush_pending] lets the trees flush their whole bytes, then moves
    [min(pending, avail_out)] bytes, the oldest first, from the pending
    buffer to [next_out], and counts them in [avail_out] and [total_out].
    No byte is lost, repeated or reordered: what has been written, followed
    by what stays pending, is what had been written followed by what was
    pending. *)
Theorem flush_pending_moves (s : deflate_stream T) (out : list Z) :
  next_out s = Some out ->
  0 <= avail_out s < 2 ^ 32 ->
  0 <= total_out s < 2 ^ 64 ->
  let pending := pending_out_ (_tr_flush_bits (tr_ s)) in
  let n := Z.min (zlen pending) (avail_out s) in
  let s' := flush_pending s in
  next_out s' = Some (out ++ bytes_at pending n)
  /\ pending_out_ (tr_ s') = advance pending n
  /\ out ++ bytes_at pending n ++ pending_out_ (tr_ s') = out ++ pending
  /\ avail_out s' = avail_out s - n
  /\ total_out s' = uLong (total_out s + n)
  /\ avail_in s' = avail_in s /\ total_in s' = total_in s.
Proof.
  intros Eo Ha Ht pending n s'. subst s'. unfold flush_pending, pending_.
  fields. fold pending.
  assert (En : (if avail_out s <? zlen pending then avail_out s else zlen pending) = n)
    by (subst n; destruct (Z.ltb_spec (avail_out s) (zlen pending)); lia).
  rewrite En.
  assert (Hn : 0 <= n <= avail_out s) by (subst n; unfold zlen; lia).
  clearbody n.
  destruct (Z.eqb_spec n 0) as [->|Hn0]; fields.
  - change (bytes_at pending 0) with (@nil Z).
    change (advance pending 0) with pending.
    rewrite Eo, app_nil_r, Z.add_0_r, Z.sub_0_r, uLong_small by lia.
    repeat split.
  - rewrite Eo. cbn [option_map]. fold pending.
    rewrite (u32_small (avail_out s - n)) by lia.
    unfold bytes_at, advance. rewrite firstn_skipn. repeat split.
Qed.

(** X2.  [read_buf] takes [min(avail_in, size)] bytes from the input: it
    copies them to the window at [off], in order, returns their number,
    advances [next_in] and counts them in [avail_in] and [total_in].  The
    rest of the window is left as it is. *)
Theorem read_buf_copies (s : deflate_stream T) (off size : Z) (input : list Z) :
  next_in s = Some input ->
  0 <= avail_in s <= zlen input -> avail_in s < 2 ^ 32 ->
  0 <= total_in s < 2 ^ 64 ->
  0 <= size -> 0 <= off ->
  off + Z.min (avail_in s) size <= zlen (window_ s) ->
  let n := Z.min (avail_in s) size in
  let s' := fst (read_buf s off size) in
  snd (read_buf s off size) = n
  /\ avail_in s' = avail_in s - n
  /\ total_in s' = uLong (total_in s + n)
  /\ next_in s' = Some (advance input n)
  /\ (forall i, 0 <= i < n -> get (window_ s') (off + i) = get input i)
  /\ (forall j, j < off \/ off + n <= j -> get (window_ s') j = get (window_ s) j)
  /\ zlen (window_ s') = zlen (window_ s).
Proof.
  intros Ei Ha Ha' Ht Hs Ho Hfit n s'. subst s'. unfold read_buf.
  assert (En : (if size <? avail_in s then size else avail_in s) = n)
    by (subst n; destruct (Z.ltb_spec size (avail_in s)); lia).
  rewrite En.
  assert (Hn : 0 <= n <= avail_in s) by (subst n; lia).
  fold n in Hfit. clearbody n.
  destruct (Z.eqb_spec n 0) as [->|Hn0]; fields.
  - rewrite Ei, Z.add_0_r, Z.sub_0_r, uLong_small by lia.
    repeat split. intros i Hi. lia.
  - rewrite Ei. cbn [option_map].
    rewrite (u32_small (avail_in s - n)) by lia.
    assert (Hlen : zlen (bytes_at input n) = n) by (apply zlen_bytes_at; lia).
    repeat split.
    + intros i Hi. rewrite get_blit_inside by lia.
      apply get_bytes_at. exact Hi.
    + intros j Hj. apply get_blit_outside; lia.
    + unfold zlen. rewrite blit_length. reflexivity.
Qed.

End InputOutput.

(** ** The rolling hash and the hash chains *)

(** The mask [2^n - 1] keeps the bits below [n]. *)
Lemma testbit_mask (n i : Z) :
  0 <= n -> 0 <= i -> Z.testbit (2 ^ n - 1) i = (i <? n).
Proof.
  intros Hn Hi. rewrite Z.sub_1_r, <- Z.ones_equiv.
  apply Z.testbit_ones_nonneg; assumption.
Qed.

(** A masked number lies between zero and the mask. *)
Lemma land_range (x m : Z) : 0 <= m -> 0 <= Z.land x m <= m.
Proof.
  intros Hm. apply Z.ldiff_le; [exact Hm|].
  apply Z.bits_inj'. intros n Hn.
  rewrite Z.ldiff_spec, Z.land_spec, Z.bits_0.
  destruct (Z.testbit x n), (Z.testbit m n); reflexivity.
Qed.

Section Hash.
Context {T : Type} `{Trees T}.

(** A bit of an updated hash value. *)
Lemma UPDATE_HASH_bit (s : deflate_stream T) (h c i : Z) :
  hash_mask_ s = 2 ^ hash_bits_ s - 1 -> 0 <= hash_bits_ s -> 0 <= i ->
  Z.testbit (UPDATE_HASH s h c) i
  = (xorb (Z.testbit h (i - hash_shift_ s)) (Z.testbit c i)
     && (i <? hash_bits_ s))%bool.
Proof.
  intros Em Hb Hi. unfold UPDATE_HASH.
  rewrite Z.land_spec, Z.lxor_spec, Z.shiftl_spec, Em, testbit_mask by lia.
  reflexivity.
Qed.

(** The hash value is a number of [hash_bits_] bits. *)
Lemma UPDATE_HASH_range (s : deflate_stream T) (h c : Z) :
  0 <= hash_mask_ s -> 0 <= UPDATE_HASH s h c <= hash_mask_ s.
Proof.
  intros Hm. unfold UPDATE_HASH. apply land_range. exact Hm.
Qed.

(** X3.  The rolling hash forgets: after three updates the hash value
    depends on the last three bytes only, not on the value that it started
    from.  This holds when three shifts clear the [hash_bits_] bits of the
    mask, as they do with [hash_shift_ = (hash_bits_ + 2) / 3].  So equal
    strings of [MIN_MATCH] bytes have the same hash key wherever they
    occur. *)
Theorem UPDATE_HASH_forgets (s : deflate_stream T) (h h' a b c : Z) :
  hash_mask_ s = 2 ^ hash_bits_ s - 1 ->
  0 <= hash_bits_ s <= MIN_MATCH * hash_shift_ s ->
  UPDATE_HASH s (UPDATE_HASH s (UPDATE_HASH s h a) b) c
  = UPDATE_HASH s (UPDATE_HASH s (UPDATE_HASH s h' a) b) c.
Proof.
  intros Em [Hb Hs]. unfold MIN_MATCH in Hs.
  apply Z.bits_inj'. intros i Hi.
  rewrite !(UPDATE_HASH_bit s _ c i) by assumption.
  destruct (Z.ltb_spec i (hash_bits_ s)) as [Hlt|Hge];
    [|rewrite !andb_false_r; reflexivity].
  f_equal. f_equal.
  destruct (Z.ltb_spec (i - hash_shift_ s) 0) as [Hn|Hp];
    [rewrite !Z.testbit_neg_r by lia; reflexivity|].
  rewrite !(UPDATE_HASH_bit s _ b) by assumption.
  f_equal. f_equal.
  destruct (Z.ltb_spec (i - hash_shift_ s - hash_shift_ s) 0) as [Hn2|Hp2];
    [rewrite !Z.testbit_neg_r by lia; reflexivity|].
  rewrite !(UPDATE_HASH_bit s _ a) by assumption.
  f_equal. f_equal.
  rewrite !Z.testbit_neg_r by lia. reflexivity.
Qed.

(** X4.  With at least eight hash bits, two strings of three bytes that
    have the same hash key and the same first two bytes have the same third
    byte.  This is why [longest_match] does not compare [scan[2]] with
    [match[2]]. *)
Theorem UPDATE_HASH_third_byte (s : deflate_stream T) (h c c' : Z) :
  hash_mask_ s = 2 ^ hash_bits_ s - 1 ->
  8 <= hash_bits_ s ->
  0 <= c < 2 ^ 8 -> 0 <= c' < 2 ^ 8 ->
  UPDATE_HASH s h c = UPDATE_HASH s h c' ->
  c = c'.
Proof.
  intros Em Hb Hc Hc' E.
  apply Z.bits_inj'. intros i Hi.
  destruct (Z.ltb_spec i 8) as [Hlt|Hge].
  - assert (Ei : Z.testbit (UPDATE_HASH s h c) i
                 = Z.testbit (UPDATE_HASH s h c') i) by (rewrite E; reflexivity).
    rewrite !UPDATE_HASH_bit in Ei by lia.
    replace (i <? hash_bits_ s) with true in Ei
      by (symmetry; apply Z.ltb_lt; lia).
    rewrite !andb_true_r in Ei.
    destruct (Z.testbit h (i - hash_shift_ s)), (Z.testbit c i), (Z.testbit c' i);
      cbn in Ei; congruence.
  - rewrite !(Z.bits_above_log2) ; try reflexivity; try lia.
    + destruct (Z.eq_dec c' 0) as [->|]; [cbn; lia|].
      apply Z.log2_lt_pow2; try lia.
      apply Z.lt_le_trans with (m := 2 ^ 8); [lia|].
      apply Z.pow_le_mono_r; lia.
    + destruct (Z.eq_dec c 0) as [->|]; [cbn; lia|].
      apply Z.log2_lt_pow2; try lia.
      apply Z.lt_le_trans with (m := 2 ^ 8); [lia|].
      apply Z.pow_le_mono_r; lia.
Qed.

(** X5.  [INSERT_STRING] makes [str] the head of the chain of its hash key
    and links it to the head that it replaces, which it returns; the other
    chains and links are left as they are. *)
Theorem INSERT_STRING_links (s : deflate_stream T) (str : Z) :
  0 <= hash_mask_ s < zlen (head_ s) ->
  0 <= w_mask_ s < zlen (prev_ s) ->
  0 <= str < 2 ^ 16 ->
  let h := UPDATE_HASH s (ins_h_ s) (get (window_ s) (str + 2)) in
  let s' := fst (INSERT_STRING s str) in
  let link := Z.land str (w_mask_ s) in
  snd (INSERT_STRING s str) = get (head_ s) h
  /\ ins_h_ s' = h
  /\ get (head_ s') h = str
  /\ get (prev_ s') link = get (head_ s) h
  /\ (forall k, k <> h -> get (head_ s') k = get (head_ s) k)
  /\ (forall k, k <> link -> get (prev_ s') k = get (prev_ s) k)
  /\ window_ s' = window_ s /\ strstart_ s' = strstart_ s.
Proof.
  intros Hh Hw Hstr h s' link. subst s'.
  pose proof (UPDATE_HASH_range s (ins_h_ s) (get (window_ s) (str + 2))
                ltac:(lia)) as Rh. fold h in Rh.
  assert (Rl : 0 <= link <= w_mask_ s).
  { subst link. apply land_range. lia. }
  unfold INSERT_STRING. unfold MIN_MATCH.
  change (str + (3 - 1)) with (str + 2). fold h. fields.
  rewrite (u16_small str) by lia. fold link.
  split; [reflexivity|]. split; [reflexivity|].
  split; [apply get_put_same; lia|].
  split; [apply get_put_same; lia|].
  split; [intros k Hk; apply get_put_other; congruence|].
  split; [intros k Hk; apply get_put_other; congruence|].
  split; reflexivity.
Qed.

(** X6.  [CLEAR_HASH] empties every chain: all the [hash_size_] heads
    become [NIL].  It leaves [prev_], which is initialized on the fly, and
    the window as they are. *)
Theorem CLEAR_HASH_empties (s : deflate_stream T) :
  0 < hash_size_ s -> zlen (head_ s) = hash_size_ s ->
  head_ (CLEAR_HASH s) = repeat NIL (Z.to_nat (hash_size_ s))
  /\ (forall k, get (head_ (CLEAR_HASH s)) k = NIL)
  /\ prev_ (CLEAR_HASH s) = prev_ s /\ window_ (CLEAR_HASH s) = window_ s.
Proof.
  intros Hn Hlen.
  assert (E : head_ (CLEAR_HASH s) = repeat NIL (Z.to_nat (hash_size_ s))).
  { unfold CLEAR_HASH, NIL. fields.
    set (hd := put (head_ s) (hash_size_ s - 1) 0).
    assert (Hhd : zlen hd = hash_size_ s)
      by (subst hd; unfold zlen in *; rewrite put_length; exact Hlen).
    apply nth_ext with (d := 0) (d' := 0).
    - rewrite blit_length, repeat_length. unfold zlen in Hhd. lia.
    - intros n Hn'. rewrite blit_length in Hn'. unfold zlen in Hhd.
      rewrite nth_repeat.
      destruct (Nat.eq_dec n (Z.to_nat (hash_size_ s - 1))) as [->|Hne].
      + replace (nth (Z.to_nat (hash_size_ s - 1)) _ 0)
          with (get (blit hd 0 (repeat 0 (Z.to_nat (hash_size_ s - 1))))
                  (hash_size_ s - 1))
          by (rewrite get_nth by lia; reflexivity).
        rewrite get_blit_outside;
          unfold zlen; rewrite ?repeat_length; try lia.
        subst hd. apply get_put_same. unfold zlen in *. lia.
      + replace (nth n _ 0)
          with (get (blit hd 0 (repeat 0 (Z.to_nat (hash_size_ s - 1))))
                  (0 + Z.of_nat n))
          by (rewrite get_nth by lia; f_equal; lia).
        rewrite get_blit_inside;
          unfold zlen; rewrite ?repeat_length; try lia.
        rewrite get_nth by lia. apply nth_repeat. }
  split; [exact E|]. split; [|split; reflexivity].
  intros k. rewrite E. unfold get, NIL.
  destruct (k <? 0); [reflexivity|]. apply nth_repeat.
Qed.

End Hash.

(** ** More on the match finder *)

(** A group of tests: the bytes passed over agree; the last byte tested
    differs unless all the tests succeeded. *)
Lemma scan_group_spec (k : nat) (w : list Z) (scan mtch : Z) :
  let '(scan', mtch', same) := scan_group k w scan mtch in
  mtch' - mtch = scan' - scan
  /\ (forall j, 0 < j < scan' - scan -> get w (scan + j) = get w (mtch + j))
  /\ (same = true -> forall j, 0 < j <= scan' - scan ->
                     get w (scan + j) = get w (mtch + j))
  /\ (same = false -> get w scan' <> get w mtch').
Proof.
  revert scan mtch. induction k as [|k IH]; intros scan mtch; cbn [scan_group].
  - split; [lia|]. split; [intros; lia|]. split; [intros; lia|discriminate].
  - destruct (Z.eqb_spec (get w (scan + 1)) (get w (mtch + 1))) as [E|E].
    + specialize (IH (scan + 1) (mtch + 1)).
      pose proof (scan_group_range k w (scan + 1) (mtch + 1)) as R.
      destruct (scan_group k w (scan + 1) (mtch + 1)) as [[scan' mtch'] same].
      destruct IH as (D & A & B & C). destruct R as (R & _).
      split; [lia|]. split; [|split].
      * intros j Hj. destruct (Z.eq_dec j 1) as [->|]; [exact E|].
        replace (scan + j) with (scan + 1 + (j - 1)) by lia.
        replace (mtch + j) with (mtch + 1 + (j - 1)) by lia.
        apply A. lia.
      * intros Hs j Hj. destruct (Z.eq_dec j 1) as [->|]; [exact E|].
        replace (scan + j) with (scan + 1 + (j - 1)) by lia.
        replace (mtch + j) with (mtch + 1 + (j - 1)) by lia.
        apply B; [exact Hs|lia].
      * exact C.
    + split; [lia|]. split; [intros; lia|]. split; [discriminate|].
      intros _. exact E.
Qed.

(** The comparison loop: the bytes passed over agree, and the byte at which
    it stops before [strend] differs. *)
Lemma scan_loop_spec (n : nat) (w : list Z) (scan mtch strend : Z) :
  strend - scan = 8 * (Z.of_nat n + 1) ->
  let '(scan', mtch') := scan_loop n w scan mtch strend in
  mtch' - mtch = scan' - scan
  /\ scan < scan' <= strend
  /\ (forall j, 0 < j < scan' - scan -> get w (scan + j) = get w (mtch + j))
  /\ (scan' < strend -> get w scan' <> get w mtch').
Proof.
  revert scan mtch. induction n as [|n IH]; intros scan mtch Hroom;
    cbn [scan_loop];
    pose proof (scan_group_range 8 w scan mtch) as G;
    pose proof (scan_group_spec 8 w scan mtch) as S;
    destruct (scan_group 8 w scan mtch) as [[scan1 mtch1] same];
    destruct G as (R & Hlt & E); specialize (Hlt ltac:(discriminate));
    destruct S as (D & A & B & C);
    change (Z.of_nat 8) with 8 in *.
  - destruct same; cbn [andb].
    + specialize (E eq_refl).
      destruct (Z.ltb_spec scan1 strend); [lia|].
      split; [lia|]. split; [lia|]. split; [exact A|lia].
    + split; [lia|]. split; [lia|]. split; [exact A|]. intros _. apply C. reflexivity.
  - destruct same; cbn [andb].
    + specialize (E eq_refl). specialize (B eq_refl).
      destruct (Z.ltb_spec scan1 strend) as [Hs|Hs].
      * specialize (IH scan1 mtch1 ltac:(lia)).
        destruct (scan_loop n w scan1 mtch1 strend) as [scan' mtch'].
        destruct IH as (D' & R' & A' & C').
        split; [lia|]. split; [lia|]. split; [|exact C'].
        intros j Hj. destruct (Z_le_gt_dec j (scan1 - scan)) as [Hle|Hgt].
        -- apply B. lia.
        -- replace (scan + j) with (scan1 + (j - (scan1 - scan))) by lia.
           replace (mtch + j) with (mtch1 + (j - (scan1 - scan))) by lia.
           apply A'. lia.
      * split; [lia|]. split; [lia|]. split; [exact A|lia].
    + split; [lia|]. split; [lia|]. split; [exact A|]. intros _. apply C. reflexivity.
Qed.

Section MoreMatch.
Context {T : Type} `{Trees T}.

(** A property of the chain state that the body of the loop keeps, and that
    does not depend on [cur_match], holds when the loop ends. *)
Lemma longest_match_chain_keeps (P : chain_state -> Prop)
    (s : deflate_stream T) (nice limit : Z) :
  (forall c, P c -> P (fst (longest_match_body s nice c))) ->
  (forall c m, P c ->
     P {| cur_match := m; best_len := best_len c; scan_end1 := scan_end1 c;
          scan_end := scan_end c; chain_match_start := chain_match_start c;
          examined := examined c |}) ->
  forall n c, P c -> P (longest_match_chain n s nice limit c).
Proof.
  intros Hbody Hnext. induction n as [|n IH]; intros c Hc;
    cbn [longest_match_chain];
    pose proof (Hbody c Hc) as Hc';
    destruct (longest_match_body s nice c) as [c' stop]; cbn [fst] in Hc';
    destruct stop; try assumption;
    cbn [cur_match best_len scan_end1 scan_end chain_match_start examined];
    destruct (limit <? _); try (apply IH); apply Hnext; exact Hc'.
Qed.

(** The body of the loop, when it compares a candidate, records it with its
    length; otherwise it changes nothing. *)
Lemma longest_match_body_cases (s : deflate_stream T) (nice : Z) (c : chain_state) :
  let c' := fst (longest_match_body s nice c) in
  c' = c
  \/ exists len,
       candidate_ok s (cur_match c, len)
       /\ examined c' = (cur_match c, len) :: examined c
       /\ ((len <= best_len c /\ best_len c' = best_len c
            /\ chain_match_start c' = chain_match_start c)
           \/ (best_len c < len /\ best_len c' = len
               /\ chain_match_start c' = cur_match c)).
Proof.
  unfold longest_match_body.
  destruct (Z.eqb_spec (get (window_ s) (cur_match c + best_len c)) (scan_end c));
    cbn [negb orb]; [|left; reflexivity].
  destruct (Z.eqb_spec (get (window_ s) (cur_match c + best_len c - 1)) (scan_end1 c));
    cbn [negb orb]; [|left; reflexivity].
  destruct (Z.eqb_spec (get (window_ s) (cur_match c)) (get (window_ s) (strstart_ s)))
    as [E0|]; cbn [negb orb]; [|left; reflexivity].
  destruct (Z.eqb_spec (get (window_ s) (cur_match c + 1))
              (get (window_ s) (strstart_ s + 1)))
    as [E1|]; cbn [negb orb]; [|left; reflexivity].
  right.
  pose proof (scan_loop_spec 31 (window_ s) (strstart_ s + 2) (cur_match c + 2)
                (strstart_ s + MAX_MATCH) ltac:(unfold MAX_MATCH; lia)) as S.
  destruct (scan_loop 31 (window_ s) (strstart_ s + 2) (cur_match c + 2)
              (strstart_ s + MAX_MATCH)) as [scan' mtch'].
  destruct S as (D & R & A & C).
  exists (MAX_MATCH - (strstart_ s + MAX_MATCH - scan')).
  set (len := MAX_MATCH - (strstart_ s + MAX_MATCH - scan')).
  assert (Elen : scan' = strstart_ s + len) by (subst len; lia).
  assert (Em : mtch' = cur_match c + len) by lia.
  split.
  - unfold candidate_ok. unfold MIN_MATCH, MAX_MATCH in *.
    split; [lia|]. split; [exact E0|]. split; [exact E1|]. split.
    + intros i Hi.
      replace (cur_match c + i) with (cur_match c + 2 + (i - 2)) by lia.
      replace (strstart_ s + i) with (strstart_ s + 2 + (i - 2)) by lia.
      symmetry. apply A. lia.
    + intros Hl. rewrite <- Em, <- Elen. intros E. apply C; [lia|].
      symmetry. exact E.
  - cbn [cur_match best_len scan_end1 scan_end chain_match_start examined].
    destruct (Z.ltb_spec (best_len c) len) as [Hlt|Hge].
    + destruct (nice <=? len); cbn [fst examined best_len chain_match_start];
        (split; [reflexivity|]); right; repeat split; assumption.
    + cbn [fst examined best_len chain_match_start].
      split; [reflexivity|]. left. repeat split. lia.
Qed.

(** X7.  Every candidate that [longest_match] compares is recorded with a
    length [len] between [MIN_MATCH] and [MAX_MATCH] such that the candidate
    and the current string agree on the bytes 0 and 1 and on the bytes 3 to
    [len - 1], and differ at [len] when [len < MAX_MATCH].  The byte 2 is
    not compared. *)
Theorem longest_match_candidates (s : deflate_stream T) (cur : Z) :
  Forall (candidate_ok s) (examined (longest_match_search s cur)).
Proof.
  unfold longest_match_search.
  apply (longest_match_chain_keeps (fun c => Forall (candidate_ok s) (examined c))).
  - intros c Hc.
    match goal with
    | |- context [longest_match_body s ?n c] =>
        destruct (longest_match_body_cases s n c) as [->|(len & Ok & E & _)]
    end.
    + exact Hc.
    + rewrite E. constructor; assumption.
  - intros c m Hc. exact Hc.
  - constructor.
Qed.

(** X8.  When [longest_match] ends, either no candidate was longer than
    [prev_length], and then [match_start_] is the one on entry; or the match
    that it has recorded, [match_start_] with the length [best_len], is one
    of the candidates compared, [best_len] exceeds [prev_length], and no
    candidate compared is longer. *)
Theorem longest_match_reports_best (s : deflate_stream T) (cur : Z) :
  let c := longest_match_search s cur in
  match_start_ (fst (longest_match s cur)) = chain_match_start c
  /\ best_recorded s c
  /\ Forall (fun e => snd e <= best_len c) (examined c).
Proof.
  intros c. split; [reflexivity|]. subst c. unfold longest_match_search.
  apply (longest_match_chain_keeps
           (fun c => best_recorded s c
                     /\ Forall (fun e => snd e <= best_len c) (examined c))).
  - intros c [Hb Hf].
    destruct (longest_match_body_cases s
                (if lookahead_ s <? u32 (nice_match_ s)
                 then lookahead_ s else nice_match_ s) c)
      as [->|(len & Ok & E & [(Hle & Eb & Em)|(Hlt & Eb & Em)])].
    + split; assumption.
    + split.
      * unfold best_recorded in *. rewrite Eb, Em, E.
        destruct Hb as [Hb|[Hb Hin]]; [left; exact Hb|right].
        split; [exact Hb|right; exact Hin].
      * rewrite E, Eb. constructor; [exact Hle|exact Hf].
    + split.
      * unfold best_recorded. rewrite Eb, Em, E. right. split.
        -- destruct Hb as [[Hb _]|[Hb _]]; lia.
        -- left. reflexivity.
      * rewrite E, Eb. constructor; [cbn; lia|].
        revert Hf. apply Forall_impl. intros e He. lia.
  - intros c m Hc. exact Hc.
  - split; [left; split; reflexivity|constructor].
Qed.

(** The chain loop compares at most one candidate a turn. *)
Lemma longest_match_chain_count (n : nat) (s : deflate_stream T)
    (nice limit : Z) (c : chain_state) :
  (length (examined (longest_match_chain n s nice limit c))
   <= length (examined c) + S n)%nat.
Proof.
  revert c. induction n as [|n IH]; intros c; cbn [longest_match_chain];
    pose proof (longest_match_body_cases s nice c) as B; cbn zeta in B;
    destruct (longest_match_body s nice c) as [c' stop]; cbn [fst] in B;
    assert (Hc' : (length (examined c') <= S (length (examined c)))%nat)
      by (destruct B as [->|(len & _ & E & _)]; [lia|rewrite E; cbn; lia]);
    destruct stop; try lia;
    cbn [cur_match best_len scan_end1 scan_end chain_match_start examined];
    destruct (limit <? _); cbn [examined]; try lia.
  match goal with
  | |- context [longest_match_chain n s nice limit ?x] => specialize (IH x)
  end.
  cbn [examined] in IH. lia.
Qed.

(** X9.  [longest_match] compares at most [max_chain_length_] candidates,
    and at most a quarter of that when [prev_length] has reached
    [good_match_].  This needs [max_chain_length_ >= 4], which the
    configuration table provides at the levels 1 to 9: with a budget of
    zero the counter of the loop would wrap around. *)
Theorem longest_match_budget (s : deflate_stream T) (cur : Z) :
  4 <= max_chain_length_ s < 2 ^ 32 ->
  Z.of_nat (length (examined (longest_match_search s cur)))
  <= (if good_match_ s <=? prev_length_ s
      then max_chain_length_ s / 4 else max_chain_length_ s).
Proof.
  intros Hc. unfold longest_match_search.
  match goal with
  | |- context [longest_match_chain ?n s ?nice ?limit ?c] =>
      pose proof (longest_match_chain_count n s nice limit c) as L
  end.
  cbn [examined length] in L.
  rewrite Z.shiftr_div_pow2 in * by lia. change (2 ^ 2) with 4 in *.
  assert (1 <= max_chain_length_ s / 4 < 2 ^ 32).
  { split; [apply Z.div_le_lower_bound; lia|].
    apply Z.div_lt_upper_bound; lia. }
  revert L. destruct (good_match_ s <=? prev_length_ s); intros L;
    rewrite u32_small in L |- * by lia; lia.
Qed.

(** The configuration table meets the requirement of [deflate]:
    [max_lazy >= MIN_MATCH] and [max_chain >= 4] at the levels 1 to 9. *)
Lemma configuration_table_requirement (level : Z) :
  1 <= level <= 9 ->
  MIN_MATCH <= max_lazy (get_config level)
  /\ 4 <= max_chain (get_config level) < 2 ^ 32.
Proof.
  intros Hl.
  assert (E : level = 1 \/ level = 2 \/ level = 3 \/ level = 4 \/ level = 5
              \/ level = 6 \/ level = 7 \/ level = 8 \/ level = 9) by lia.
  unfold MIN_MATCH.
  destruct E as [->|[->|[->|[->|[->|[->|[->|[->| ->]]]]]]]];
    (split; [|split]); vm_compute; (reflexivity || discriminate).
Qed.

End MoreMatch.

(** ** The result of the search *)

Section MatchResult.
Context {T : Type} `{Trees T}.

Lemma chain_pos_shift (s : deflate_stream T) (cur : Z) (i : nat) :
  chain_pos s cur (S i) = chain_pos s (chain_pos s cur 1) i.
Proof.
  induction i as [|i IH]; [reflexivity|].
  change (chain_pos s cur (S (S i)))
    with (get (prev_ s) (Z.land (chain_pos s cur (S i)) (w_mask_ s))).
  rewrite IH. reflexivity.
Qed.

(** Strings that differ at [k] agree over at most [k] bytes. *)
Lemma agree_differs (s : deflate_stream T) (m n k : Z) :
  0 <= k ->
  get (window_ s) (m + k) <> get (window_ s) (strstart_ s + k) ->
  agree s m n -> n <= k.
Proof.
  intros Hk D A. destruct (Z_le_gt_dec n k) as [L|G]; [exact L|].
  exfalso. apply D. apply A. lia.
Qed.

(** The length computed for a candidate is not less than that of the real
    match. *)
Lemma agree_bound (s : deflate_stream T) (m len n : Z) :
  candidate_ok s (m, len) -> n <= MAX_MATCH -> agree s m n -> n <= len.
Proof.
  intros (R & _ & _ & _ & D) Hn A.
  destruct (Z_le_gt_dec n len) as [L|G]; [exact L|].
  apply (agree_differs s m n len); [unfold MIN_MATCH in R; lia| |exact A].
  apply D. lia.
Qed.

(** One turn of the chain loop: the candidate is passed over only when its
    match cannot be longer than the best one; otherwise it is compared, and
    the best length becomes the larger of the two.  The loop is left when
    the new length reaches [nice_match]; else [scan_end] and [scan_end1]
    follow the best length. *)
Lemma longest_match_body_covers (s : deflate_stream T) (nice : Z)
    (c : chain_state) :
  scan_end c = get (window_ s) (strstart_ s + best_len c) ->
  scan_end1 c = get (window_ s) (strstart_ s + best_len c - 1) ->
  1 <= best_len c ->
  let r := longest_match_body s nice c in
  cur_match (fst r) = cur_match c
  /\ best_len c <= best_len (fst r)
  /\ (forall n, n <= MAX_MATCH -> agree s (cur_match c) n -> n <= best_len (fst r))
  /\ (examined (fst r) = examined c
      \/ exists len, examined (fst r) = (cur_match c, len) :: examined c)
  /\ (snd r = true -> nice <= best_len (fst r))
  /\ (snd r = false ->
      scan_end (fst r) = get (window_ s) (strstart_ s + best_len (fst r))
      /\ scan_end1 (fst r)
         = get (window_ s) (strstart_ s + best_len (fst r) - 1)).
Proof.
  intros E0 E1 Hb. unfold longest_match_body. cbn zeta.
  destruct (Z.eqb_spec (get (window_ s) (cur_match c + best_len c)) (scan_end c))
    as [T1|T1]; cbn [negb orb].
  2:{ cbn [fst snd]. split; [reflexivity|]. split; [lia|]. split.
      - intros n _ A. apply (agree_differs s (cur_match c) n (best_len c));
          [lia|rewrite <- E0; exact T1|exact A].
      - split; [left; reflexivity|]. split; [discriminate|].
        intros _. split; assumption. }
  destruct (Z.eqb_spec (get (window_ s) (cur_match c + best_len c - 1))
              (scan_end1 c)) as [T2|T2]; cbn [negb orb].
  2:{ cbn [fst snd]. split; [reflexivity|]. split; [lia|]. split.
      - intros n _ A.
        assert (n <= best_len c - 1); [|lia].
        apply (agree_differs s (cur_match c) n (best_len c - 1)); [lia| |exact A].
        replace (cur_match c + (best_len c - 1))
          with (cur_match c + best_len c - 1) by lia.
        replace (strstart_ s + (best_len c - 1))
          with (strstart_ s + best_len c - 1) by lia.
        rewrite <- E1. exact T2.
      - split; [left; reflexivity|]. split; [discriminate|].
        intros _. split; assumption. }
  destruct (Z.eqb_spec (get (window_ s) (cur_match c))
              (get (window_ s) (strstart_ s))) as [T3|T3]; cbn [negb orb].
  2:{ cbn [fst snd]. split; [reflexivity|]. split; [lia|]. split.
      - intros n _ A.
        assert (n <= 0); [|lia].
        apply (agree_differs s (cur_match c) n 0); [lia| |exact A].
        rewrite !Z.add_0_r. exact T3.
      - split; [left; reflexivity|]. split; [discriminate|].
        intros _. split; assumption. }
  destruct (Z.eqb_spec (get (window_ s) (cur_match c + 1))
              (get (window_ s) (strstart_ s + 1))) as [T4|T4]; cbn [negb orb].
  2:{ cbn [fst snd]. split; [reflexivity|]. split; [lia|]. split.
      - intros n _ A.
        assert (n <= 1); [|lia].
        apply (agree_differs s (cur_match c) n 1); [lia|exact T4|exact A].
      - split; [left; reflexivity|]. split; [discriminate|].
        intros _. split; assumption. }
  pose proof (scan_loop_spec 31 (window_ s) (strstart_ s + 2) (cur_match c + 2)
                (strstart_ s + MAX_MATCH) ltac:(unfold MAX_MATCH; lia)) as S.
  destruct (scan_loop 31 (window_ s) (strstart_ s + 2) (cur_match c + 2)
              (strstart_ s + MAX_MATCH)) as [scan' mtch'].
  destruct S as (D & R & A & C).
  set (len := MAX_MATCH - (strstart_ s + MAX_MATCH - scan')).
  assert (Elen : scan' = strstart_ s + len) by (subst len; lia).
  assert (Em : mtch' = cur_match c + len) by lia.
  assert (Rlen : 3 <= len <= MAX_MATCH) by (subst len; lia).
  assert (Cover : forall n, n <= MAX_MATCH -> agree s (cur_match c) n -> n <= len).
  { intros n Hn Ag. destruct (Z_le_gt_dec n len) as [L|G]; [exact L|].
    apply (agree_differs s (cur_match c) n len); [lia| |exact Ag].
    rewrite <- Em, <- Elen. intros E. apply C; [lia|]. symmetry. exact E. }
  clearbody len.
  cbn [cur_match best_len scan_end1 scan_end chain_match_start examined].
  destruct (Z.ltb_spec (best_len c) len) as [Hlt|Hge].
  - destruct (Z.leb_spec nice len) as [Hn|Hn];
      cbn [fst snd cur_match best_len scan_end1 scan_end examined].
    + split; [reflexivity|]. split; [lia|]. split; [exact Cover|].
      split; [right; exists len; reflexivity|].
      split; [intros _; exact Hn|discriminate].
    + split; [reflexivity|]. split; [lia|]. split; [exact Cover|].
      split; [right; exists len; reflexivity|].
      split; [discriminate|]. intros _. split; reflexivity.
  - cbn [fst snd cur_match best_len scan_end1 scan_end examined].
    split; [reflexivity|]. split; [lia|]. split.
    + intros n Hn Ag. specialize (Cover n Hn Ag). lia.
    + split; [right; exists len; reflexivity|]. split; [discriminate|].
      intros _. split; assumption.
Qed.

(** The chain loop: unless it has reached [nice_match], its best length is
    not less than the match of any position that the chain reaches within
    the budget and above the limit; and every candidate that it compares
    is such a position. *)
Lemma longest_match_chain_covers (n : nat) (s : deflate_stream T)
    (nice limit : Z) (c : chain_state) :
  scan_end c = get (window_ s) (strstart_ s + best_len c) ->
  scan_end1 c = get (window_ s) (strstart_ s + best_len c - 1) ->
  1 <= best_len c ->
  let c' := longest_match_chain n s nice limit c in
  best_len c <= best_len c'
  /\ (best_len c' < nice ->
      forall i, (i <= n)%nat ->
      (forall j, (0 < j <= i)%nat -> limit < chain_pos s (cur_match c) j) ->
      forall m, m <= MAX_MATCH -> agree s (chain_pos s (cur_match c) i) m ->
      m <= best_len c').
Proof.
  revert c. induction n as [|n IH]; intros c E0 E1 Hb; cbn [longest_match_chain];
    pose proof (longest_match_body_covers s nice c E0 E1 Hb) as B; cbn zeta in B;
    destruct (longest_match_body s nice c) as [c1 stop]; cbn [fst snd] in B;
    destruct B as (Ec & Hle & Cov & _ & Hstop & Hgo);
    (destruct stop; [split; [exact Hle|]; specialize (Hstop eq_refl); lia|]);
    destruct (Hgo eq_refl) as [G0 G1];
    cbn [cur_match best_len scan_end1 scan_end chain_match_start examined];
    rewrite Ec.
  - assert (R : forall x : chain_state, best_len x = best_len c1 ->
                 best_len c <= best_len x
                 /\ (best_len x < nice ->
                     forall i, (i <= 0)%nat ->
                     (forall j, (0 < j <= i)%nat ->
                                limit < chain_pos s (cur_match c) j) ->
                     forall m, m <= MAX_MATCH ->
                     agree s (chain_pos s (cur_match c) i) m ->
                     m <= best_len x)).
    { intros x Ex. rewrite Ex. split; [exact Hle|].
      intros _ i Hi _ m Hm A. replace i with 0%nat in A by lia.
      apply Cov; assumption. }
    destruct (limit <? _); apply R; reflexivity.
  - destruct (Z.ltb_spec limit
                (get (prev_ s) (Z.land (cur_match c) (w_mask_ s)))) as [Hl|Hl].
    + match goal with
      | |- context [longest_match_chain n s nice limit ?x] =>
          specialize (IH x G0 G1 ltac:(cbn [best_len]; lia));
          cbn zeta in IH; cbn [best_len cur_match] in IH;
          remember (longest_match_chain n s nice limit x) as c' eqn:Ec';
          clear Ec'
      end.
      destruct IH as [IH1 IH2]. split; [lia|].
      intros Hn i Hi Hj m Hm A. destruct i as [|i].
      * specialize (Cov m Hm A). lia.
      * rewrite chain_pos_shift in A.
        apply (IH2 Hn i ltac:(lia)); [|exact Hm|exact A].
        intros j Hj'. change (get (prev_ s) (Z.land (cur_match c) (w_mask_ s)))
          with (chain_pos s (cur_match c) 1).
        rewrite <- chain_pos_shift. apply Hj. lia.
    + cbn [best_len]. split; [exact Hle|].
      intros _ i Hi Hj m Hm A. destruct i as [|i].
      * apply Cov; assumption.
      * specialize (Hj 1%nat ltac:(lia)).
        change (chain_pos s (cur_match c) 1)
          with (get (prev_ s) (Z.land (cur_match c) (w_mask_ s))) in Hj. lia.
Qed.

(** Every candidate that the chain loop compares is a position of the
    chain, within the budget. *)
Lemma longest_match_chain_on_chain (n : nat) (s : deflate_stream T)
    (nice limit : Z) (c : chain_state) :
  Forall (fun e => In e (examined c)
                   \/ exists i, (i <= n)%nat /\ fst e = chain_pos s (cur_match c) i)
    (examined (longest_match_chain n s nice limit c)).
Proof.
  revert c. induction n as [|n IH]; intros c; cbn [longest_match_chain];
    pose proof (longest_match_body_cases s nice c) as B; cbn zeta in B;
    assert (Ecur : cur_match (fst (longest_match_body s nice c)) = cur_match c)
      by (unfold longest_match_body; cbn zeta;
          destruct (_ || _); [reflexivity|];
          destruct (scan_loop _ _ _ _ _) as [a b];
          destruct (_ <? _); [destruct (_ <=? _)|]; reflexivity);
    destruct (longest_match_body s nice c) as [c1 stop]; cbn [fst] in B, Ecur;
    assert (F1 : Forall (fun e => In e (examined c)
                                  \/ exists i, (i <= 0)%nat
                                               /\ fst e = chain_pos s (cur_match c) i)
                   (examined c1))
      by (destruct B as [->|(len & _ & E & _)];
          [apply Forall_forall; intros e He; left; exact He|];
          rewrite E; constructor;
          [right; exists 0%nat; split; [lia|reflexivity]|];
          apply Forall_forall; intros e He; left; exact He).
  - assert (R : Forall (fun e => In e (examined c)
                                 \/ exists i, (i <= 0)%nat
                                              /\ fst e = chain_pos s (cur_match c) i)
                  (examined c1)) by exact F1.
    destruct stop; [exact R|].
    cbn [cur_match best_len scan_end1 scan_end chain_match_start examined].
    destruct (limit <? _); exact R.
  - assert (R : Forall (fun e => In e (examined c)
                                 \/ exists i, (i <= S n)%nat
                                              /\ fst e = chain_pos s (cur_match c) i)
                  (examined c1)).
    { revert F1. apply Forall_impl. intros e [He|(i & Hi & Ei)]; [left; exact He|].
      right. exists i. split; [lia|exact Ei]. }
    destruct stop; [exact R|].
    cbn [cur_match best_len scan_end1 scan_end chain_match_start examined].
    destruct (limit <? _); [|exact R].
    match goal with
    | |- context [longest_match_chain n s nice limit ?x] =>
        specialize (IH x); cbn [examined cur_match] in IH;
        remember (longest_match_chain n s nice limit x) as c' eqn:Ec'; clear Ec'
    end.
    rewrite Ecur in IH.
    apply Forall_forall. intros e He.
    rewrite Forall_forall in IH, R.
    destruct (IH e He) as [Hin|(i & Hi & Ei)].
    + apply R. exact Hin.
    + right. exists (S i). split; [lia|].
      rewrite chain_pos_shift. exact Ei.
Qed.

(** C6.  [longest_match] returns [min(best_len, lookahead)], so that the
    length returned never exceeds [lookahead]; [best_len] is the longest
    candidate length found, and at least [prev_length].  The candidates
    found are positions of the hash chain that starts at [cur_match],
    within the budget of [chain_length]; the length found for each is that
    of its match with the current string, the third byte apart, which is
    not compared; and [best_len] is the largest of [prev_length] and of
    these lengths.  None was missed: when [prev_length] is at least 1 and
    the search has not stopped for a match of [nice_match] bytes, no
    position that the chain reaches within the budget and above [limit]
    matches the current string over more than [best_len] bytes.  Of the
    preconditions only the range of [prev_length], which is copied to an
    [int], is used. *)
Theorem longest_match_result (s : deflate_stream T) (cur : Z) :
  0 <= prev_length_ s < 2 ^ 31 ->
  let c := longest_match_search s cur in
  snd (longest_match s cur) = Z.min (best_len c) (lookahead_ s)
  /\ best_len c = fold_right Z.max (prev_length_ s) (map snd (examined c))
  /\ prev_length_ s <= best_len c
  /\ snd (longest_match s cur) <= lookahead_ s
  /\ Forall (candidate_ok s) (examined c)
  /\ Forall (fun e => exists i, (i <= chain_budget s)%nat
                                /\ fst e = chain_pos s cur i) (examined c)
  /\ (1 <= prev_length_ s -> best_len c < chain_nice s ->
      forall i, (i <= chain_budget s)%nat ->
      (forall j, (0 < j <= i)%nat -> chain_limit s < chain_pos s cur j) ->
      forall n, n <= MAX_MATCH -> agree s (chain_pos s cur i) n ->
      n <= best_len c).
Proof.
  intros Hp c.
  destruct (longest_match_search_ok s cur) as [Hb Hf]. fold c in Hb, Hf.
  pose proof (fold_max_range (prev_length_ s) _ Hf) as R. rewrite <- Hb in R.
  assert (Hu : u32 (best_len c) = best_len c)
    by (apply u32_small; unfold MAX_MATCH in R; lia).
  assert (Ec : c = longest_match_chain (chain_budget s) s (chain_nice s)
                     (chain_limit s)
                     {| cur_match := cur; best_len := prev_length_ s;
                        scan_end1 := get (window_ s)
                                       (strstart_ s + prev_length_ s - 1);
                        scan_end := get (window_ s)
                                      (strstart_ s + prev_length_ s);
                        chain_match_start := match_start_ s; examined := [] |})
    by reflexivity.
  split.
  { unfold longest_match. fold c. cbn [snd]. rewrite Hu.
    destruct (Z.leb_spec (best_len c) (lookahead_ s)); lia. }
  split; [exact Hb|]. split; [lia|]. split.
  { unfold longest_match. fold c. cbn [snd]. rewrite Hu.
    destruct (Z.leb_spec (best_len c) (lookahead_ s)); lia. }
  split.
  { rewrite Ec.
    apply (longest_match_chain_keeps (fun c => Forall (candidate_ok s) (examined c))).
    - intros c0 Hc0.
      destruct (longest_match_body_cases s (chain_nice s) c0)
        as [->|(len & Ok & E & _)]; [exact Hc0|].
      rewrite E. constructor; assumption.
    - intros c0 m Hc0. exact Hc0.
    - constructor. }
  split.
  { rewrite Ec.
    match goal with
    | |- Forall _ (examined (longest_match_chain ?n s ?a ?b ?x)) =>
        pose proof (longest_match_chain_on_chain n s a b x) as F
    end.
    cbn [examined cur_match] in F. revert F. apply Forall_impl.
    intros e [[]|P]. exact P. }
  intros Hp1 Hn. rewrite Ec in Hn |- *.
  match goal with
  | |- context [longest_match_chain ?n s ?a ?b ?x] =>
      destruct (longest_match_chain_covers n s a b x) as [_ Cov];
        [reflexivity|reflexivity|cbn [best_len]; exact Hp1|]
  end.
  cbn [cur_match] in Cov. exact (Cov Hn).
Qed.

End MatchResult.

(** [longest_match_result] on [Examples.three_candidates]: of the three
    positions on the chain, the one at 20 matches over 6 bytes, the one at
    12 is passed over, and the one at 4 matches over 7 bytes, which is the
    result; no position on the chain matches over more. *)
Lemma longest_match_result_witness :
  let s := Examples.three_candidates in
  let c := longest_match_search s 20 in
  20 < strstart_ s /\ strstart_ s - 20 <= MAX_DIST s
  /\ MIN_LOOKAHEAD <= lookahead_ s
  /\ 0 <= prev_length_ s < 2 ^ 31
  /\ examined c = [(4, 7); (20, 6)]
  /\ (chain_pos s 20 1, chain_pos s 20 2, chain_pos s 20 3) = (12, 4, 0)
  /\ snd (longest_match s 20) = 7
  /\ snd (longest_match s 20) = Z.min (best_len c) (lookahead_ s)
  /\ Forall (candidate_ok s) (examined c)
  /\ (forall n, n <= MAX_MATCH -> agree s 12 n -> n <= 7).
Proof.
  intros s c.
  assert (h : 0 <= prev_length_ s < 2 ^ 31) by (vm_compute; split; congruence).
  destruct (longest_match_result s 20 h) as (E & _ & _ & _ & Ok & _ & Cov).
  split; [vm_compute; reflexivity|].
  split; [vm_compute; congruence|].
  split; [vm_compute; congruence|].
  split; [exact h|].
  split; [vm_compute; reflexivity|].
  split; [vm_compute; reflexivity|].
  split; [vm_compute; reflexivity|].
  split; [exact E|]. split; [exact Ok|].
  intros n Hn A.
  assert (Eb : best_len (longest_match_search s 20) = 7) by (vm_compute; reflexivity).
  rewrite <- Eb.
  apply (Cov ltac:(vm_compute; congruence) ltac:(vm_compute; reflexivity) 1%nat).
  - vm_compute. lia.
  - intros j Hj. replace j with 1%nat by lia. vm_compute. reflexivity.
  - exact Hn.
  - exact A.
Defined.

(** ** The block states of the engines and the result of [deflate] *)

Lemma Some_inj {A : Type} (a b : A) : Some a = Some b -> a = b.
Proof. intros E. injection E as E'. exact E'. Qed.

Section Discipline.
Context {T : Type} `{Trees T}.

(** When [flush_pending] leaves room in the output, nothing is pending. *)
Lemma flush_pending_drained (s : deflate_stream T) :
  avail_out (flush_pending s) <> 0 -> pending_ (flush_pending s) = 0.
Proof.
  unfold flush_pending.
  remember (set_tr_ (_tr_flush_bits (tr_ s)) s) as s1 eqn:E1. clear E1 s.
  cbn zeta.
  assert (Hp : 0 <= pending_ s1) by (unfold pending_, zlen; lia).
  destruct (Z.ltb_spec (avail_out s1) (pending_ s1)) as [Hlt|Hge].
  - destruct (Z.eqb_spec (avail_out s1) 0) as [E|E]; [congruence|].
    fields. rewrite Z.sub_diag. intros C. exfalso. apply C. reflexivity.
  - destruct (Z.eqb_spec (pending_ s1) 0) as [E|E]; [intros _; exact E|].
    intros _. unfold pending_ in *. fields.
    unfold advance, zlen in *. rewrite length_skipn. lia.
Qed.

Lemma FLUSH_BLOCK_ONLY_drained (s : deflate_stream T) (last : Z) :
  avail_out (FLUSH_BLOCK_ONLY s last) <> 0 ->
  pending_ (FLUSH_BLOCK_ONLY s last) = 0.
Proof. unfold FLUSH_BLOCK_ONLY. cbn zeta. apply flush_pending_drained. Qed.

Lemma FLUSH_BLOCK_disciplined (flush : Z) (s : deflate_stream T)
    (k : deflate_stream T -> step T) :
  (forall s', step_disciplined flush (k s')) ->
  step_disciplined flush (FLUSH_BLOCK (Return (T := T)) s 0 k).
Proof.
  intros Hk. unfold FLUSH_BLOCK. cbn zeta.
  destruct (Z.eqb_spec (avail_out (FLUSH_BLOCK_ONLY s 0)) 0) as [E|E].
  - cbn. split; [reflexivity|right; exact E].
  - apply Hk.
Qed.

Lemma flush_if_disciplined (flush : Z) (b : bool) (s : deflate_stream T) :
  step_disciplined flush (flush_if b s).
Proof.
  unfold flush_if. destruct b; [|exact I].
  apply FLUSH_BLOCK_disciplined. intros; exact I.
Qed.

Lemma flush_if_may_slide_disciplined (flush : Z) (s : deflate_stream T) :
  step_disciplined flush (flush_if_may_slide s).
Proof.
  unfold flush_if_may_slide. destruct (_ <=? _); [|exact I].
  apply FLUSH_BLOCK_disciplined. intros; exact I.
Qed.

(** The end of a turn: the tally, then [if (bflush) FLUSH_BLOCK(s, 0)]. *)
Ltac tally_step :=
  first [ apply flush_if_disciplined
        | match goal with
          | |- context [let '(_, _) := ?x in _] => destruct x
          end; apply flush_if_disciplined ].

Lemma ensure_lookahead_disciplined (threshold flush : Z) (fuel : nat)
    (s : deflate_stream T) (st : step T) :
  0 < threshold ->
  ensure_lookahead threshold flush fuel s = Some st ->
  step_disciplined flush st.
Proof.
  intros Ht. unfold ensure_lookahead. destruct (lookahead_ s <? threshold).
  - destruct (fill_window fuel s) as [s1|]; [|discriminate].
    destruct (Z.ltb_spec (lookahead_ s1) threshold) as [E1|E1]; cbn [andb].
    + destruct (Z.eqb_spec flush Z_NO_FLUSH) as [E|E].
      * intros [= <-]. cbn. split; [reflexivity|left; exact E].
      * destruct (lookahead_ s1 =? 0); intros [= <-]; cbn; auto.
    + destruct (Z.eqb_spec (lookahead_ s1) 0) as [E0|E0]; [lia|].
      intros [= <-]. exact I.
  - intros [= <-]. exact I.
Qed.

Lemma stored_fill_disciplined (flush : Z) (fuel : nat)
    (s : deflate_stream T) (st : step T) :
  stored_fill flush fuel s = Some st -> step_disciplined flush st.
Proof.
  unfold stored_fill. destruct (lookahead_ s <=? 1).
  - destruct (fill_window fuel s) as [s1|]; [|discriminate].
    destruct (lookahead_ s1 =? 0); cbn [andb].
    + destruct (Z.eqb_spec flush Z_NO_FLUSH) as [E|E]; intros [= <-]; cbn; auto.
    + intros [= <-]. exact I.
  - intros [= <-]. exact I.
Qed.

Lemma stored_absorb_disciplined (flush : Z) (s : deflate_stream T) :
  step_disciplined flush (stored_absorb s).
Proof.
  unfold stored_absorb. cbn zeta. destruct (_ || _).
  - apply FLUSH_BLOCK_disciplined. apply flush_if_may_slide_disciplined.
  - apply flush_if_may_slide_disciplined.
Qed.

Lemma deflate_stored_body_disciplined (flush : Z) (fuel : nat)
    (s : deflate_stream T) (st : step T) :
  deflate_stored_body flush fuel s = Some st -> step_disciplined flush st.
Proof.
  unfold deflate_stored_body.
  destruct (stored_fill flush fuel s) as [[s1|s1|b s1]|] eqn:E;
    try discriminate.
  - intros [= <-]. apply stored_absorb_disciplined.
  - intros [= <-]. exact (stored_fill_disciplined _ _ _ _ E).
  - intros [= <-]. exact (stored_fill_disciplined _ _ _ _ E).
Qed.

Lemma deflate_fast_body_disciplined (flush : Z) (fuel : nat)
    (s : deflate_stream T) (st : step T) :
  deflate_fast_body flush fuel s = Some st -> step_disciplined flush st.
Proof.
  unfold deflate_fast_body.
  destruct (ensure_lookahead MIN_LOOKAHEAD flush fuel s) as [[s1|s1|b s1]|] eqn:E;
    try discriminate.
  - destruct (insert_current s1) as [s2 hash_head].
    remember (if negb (hash_head =? NIL)
                 && (u32 (strstart_ s2 - hash_head) <=? MAX_DIST s2)
              then let '(s0, len) := longest_match s2 hash_head in
                   set_match_length_ len s0
              else s2) as s3 eqn:E3.
    clear E3. intros E1. apply Some_inj in E1. subst st.
    destruct (MIN_MATCH <=? _).
    + tally_step.
    + tally_step.
  - intros [= <-].
    exact (ensure_lookahead_disciplined MIN_LOOKAHEAD _ _ _ _ ltac:(reflexivity) E).
  - intros [= <-].
    exact (ensure_lookahead_disciplined MIN_LOOKAHEAD _ _ _ _ ltac:(reflexivity) E).
Qed.

Lemma slow_decide_disciplined (flush : Z) (s : deflate_stream T) :
  step_disciplined flush (slow_decide s).
Proof.
  unfold slow_decide. destruct (_ && _).
  - destruct (slow_commit s) as [s1 bflush]. apply flush_if_disciplined.
  - destruct (negb _).
    + destruct (_tr_tally_lit _ _) as [s1 bflush]. cbn zeta.
      match goal with
      | |- context [if avail_out ?x =? 0 then _ else _] =>
          destruct (Z.eqb_spec (avail_out x) 0) as [E|E]
      end.
      * cbn. split; [reflexivity|right; exact E].
      * exact I.
    + exact I.
Qed.

Lemma deflate_slow_body_disciplined (flush : Z) (fuel : nat)
    (s : deflate_stream T) (st : step T) :
  deflate_slow_body flush fuel s = Some st -> step_disciplined flush st.
Proof.
  unfold deflate_slow_body.
  destruct (ensure_lookahead MIN_LOOKAHEAD flush fuel s) as [[s1|s1|b s1]|] eqn:E;
    try discriminate.
  - intros [= <-]. apply slow_decide_disciplined.
  - intros [= <-].
    exact (ensure_lookahead_disciplined MIN_LOOKAHEAD _ _ _ _ ltac:(reflexivity) E).
  - intros [= <-].
    exact (ensure_lookahead_disciplined MIN_LOOKAHEAD _ _ _ _ ltac:(reflexivity) E).
Qed.

Lemma deflate_rle_body_disciplined (flush : Z) (fuel : nat)
    (s : deflate_stream T) (st : step T) :
  deflate_rle_body flush fuel s = Some st -> step_disciplined flush st.
Proof.
  unfold deflate_rle_body.
  destruct (ensure_lookahead (MAX_MATCH + 1) flush fuel s) as [[s1|s1|b s1]|] eqn:E;
    try discriminate.
  - cbv zeta. intros E1. apply Some_inj in E1. subst st.
    destruct (MIN_MATCH <=? _).
    + tally_step.
    + tally_step.
  - intros [= <-].
    exact (ensure_lookahead_disciplined (MAX_MATCH + 1) _ _ _ _ ltac:(reflexivity) E).
  - intros [= <-].
    exact (ensure_lookahead_disciplined (MAX_MATCH + 1) _ _ _ _ ltac:(reflexivity) E).
Qed.

Lemma deflate_huff_body_disciplined (flush : Z) (fuel : nat)
    (s : deflate_stream T) (st : step T) :
  deflate_huff_body flush fuel s = Some st -> step_disciplined flush st.
Proof.
  unfold deflate_huff_body. cbn zeta.
  assert (L : forall s0 : deflate_stream T,
             step_disciplined flush
               (let '(s1, bflush) :=
                  _tr_tally_lit (set_match_length_ 0 s0)
                    (get (window_ (set_match_length_ 0 s0))
                       (strstart_ (set_match_length_ 0 s0))) in
                flush_if bflush
                  (set_strstart_ (u32 (strstart_ (set_lookahead_ (u32 (lookahead_ s1 - 1)) s1) + 1))
                     (set_lookahead_ (u32 (lookahead_ s1 - 1)) s1)))).
  { intros s0. destruct (_tr_tally_lit _ _) as [s1 b]. apply flush_if_disciplined. }
  destruct (lookahead_ s =? 0).
  - destruct (fill_window fuel s) as [s1|]; [|discriminate].
    destruct (lookahead_ s1 =? 0).
    + destruct (Z.eqb_spec flush Z_NO_FLUSH) as [E|E]; intros [= <-]; cbn; auto.
    + intros [= <-]. apply L.
  - intros [= <-]. apply L.
Qed.

(** What every turn keeps holds at the exit of the loop. *)
Lemma forever_disciplined (flush : Z)
    (body : nat -> deflate_stream T -> option (step T)) :
  (forall fuel s st, body fuel s = Some st -> step_disciplined flush st) ->
  forall fuel s r, forever body fuel s = Some r ->
  match r with
  | inl s' => step_disciplined flush (Break s')
  | inr (b, s') => step_disciplined flush (Return b s')
  end.
Proof.
  intros Hb. induction fuel as [|fuel IH]; intros s r; cbn [forever];
    [discriminate|].
  destruct (body fuel s) as [[s1|s1|b s1]|] eqn:E; try discriminate.
  - apply IH.
  - intros [= <-]. exact (Hb _ _ _ E).
  - intros [= <-]. exact (Hb _ _ _ E).
Qed.

Lemma flush_tail_ok (flush : Z) (s : deflate_stream T) :
  flush <> Z_NO_FLUSH -> engine_result_ok flush (flush_tail flush s).
Proof.
  intros Hf. unfold flush_tail, FLUSH_BLOCK. cbn zeta.
  destruct (Z.eqb_spec flush Z_FINISH) as [E|E].
  - destruct (Z.eqb_spec (avail_out (FLUSH_BLOCK_ONLY s 1)) 0) as [E0|E0];
      cbn; auto using FLUSH_BLOCK_ONLY_drained.
  - destruct (negb _); [|cbn; auto].
    destruct (Z.eqb_spec (avail_out (FLUSH_BLOCK_ONLY s 0)) 0) as [E0|E0];
      cbn; auto.
Qed.

Lemma deflate_stored_tail_disciplined (flush : Z) (s : deflate_stream T) :
  flush <> Z_NO_FLUSH -> engine_result_ok flush (deflate_stored_tail flush s).
Proof.
  intros Hf. unfold deflate_stored_tail, FLUSH_BLOCK. cbn zeta.
  destruct (Z.eqb_spec flush Z_FINISH) as [E|E].
  - destruct (Z.eqb_spec (avail_out (FLUSH_BLOCK_ONLY (set_insert_ 0 s) 1)) 0)
      as [E0|E0]; cbn; auto using FLUSH_BLOCK_ONLY_drained.
  - destruct (_ <? _); [|cbn; auto].
    destruct (Z.eqb_spec (avail_out (FLUSH_BLOCK_ONLY (set_insert_ 0 s) 0)) 0)
      as [E0|E0]; cbn; auto.
Qed.

(** An engine made of a disciplined loop and a disciplined tail. *)
Lemma after_loop_ok (flush : Z)
    (body : nat -> deflate_stream T -> option (step T))
    (tail : deflate_stream T -> block_state * deflate_stream T)
    (fuel : nat) (s : deflate_stream T) (r : block_state * deflate_stream T) :
  (forall fuel s st, body fuel s = Some st -> step_disciplined flush st) ->
  (flush <> Z_NO_FLUSH -> forall s, engine_result_ok flush (tail s)) ->
  after_loop (forever body fuel s) tail = Some r ->
  engine_result_ok flush r.
Proof.
  intros Hb Ht. unfold after_loop.
  destruct (forever body fuel s) as [[s1|[b s1]]|] eqn:E; try discriminate.
  - intros [= <-]. apply Ht. exact (forever_disciplined flush body Hb _ _ _ E).
  - intros [= <-]. destruct (forever_disciplined flush body Hb _ _ _ E) as [-> D].
    exact D.
Qed.

Lemma run_engine_block_state_aux (fuel : nat) (s : deflate_stream T)
    (flush : Z) (r : block_state * deflate_stream T) :
  run_engine fuel s flush = Some r -> engine_result_ok flush r.
Proof.
  unfold run_engine.
  destruct (strategy_ s =? Z_HUFFMAN_ONLY).
  { apply after_loop_ok.
    - apply deflate_huff_body_disciplined.
    - intros Hf s0. apply flush_tail_ok. exact Hf. }
  destruct (strategy_ s =? Z_RLE).
  { apply after_loop_ok.
    - apply deflate_rle_body_disciplined.
    - intros Hf s0. apply flush_tail_ok. exact Hf. }
  destruct (func (get_config (level_ s))).
  - apply after_loop_ok.
    + apply deflate_stored_body_disciplined.
    + intros Hf s0. apply deflate_stored_tail_disciplined. exact Hf.
  - apply after_loop_ok.
    + apply deflate_fast_body_disciplined.
    + intros Hf s0. apply flush_tail_ok. exact Hf.
  - apply after_loop_ok.
    + apply deflate_slow_body_disciplined.
    + intros Hf s0. apply flush_tail_ok. exact Hf.
Qed.

(** X10.  The block state that an engine returns tells what happened:
    [need_more] comes only without a flush or with the output full,
    [block_done] only for a flush other than [Z_FINISH], [finish_started]
    only for [Z_FINISH] with the output full, and [finish_done] only for
    [Z_FINISH] with room left in the output and nothing pending. *)
Theorem run_engine_block_state (fuel : nat) (s : deflate_stream T) (flush : Z)
    (r : block_state * deflate_stream T) :
  run_engine fuel s flush = Some r -> engine_result_ok flush r.
Proof. apply run_engine_block_state_aux. Qed.

Lemma deflate_end_ok (flush : Z) (s : deflate_stream T) :
  (flush = Z_FINISH -> status_ s = FINISH_STATE /\ pending_ s = 0) ->
  avail_out s <> 0 ->
  deflate_result_ok flush (deflate_end s flush).
Proof.
  intros Hf Ha. unfold deflate_end, deflate_result_ok.
  destruct (Z.eqb_spec flush Z_FINISH) as [E|E]; cbn [negb fst snd].
  - left. destruct (Hf E) as [Hs Hp]. repeat split; assumption.
  - right. left. split; [reflexivity|]. intros C. contradiction.
Qed.

Lemma deflate_after_engine_ok (flush : Z) (b : block_state)
    (s : deflate_stream T) :
  engine_result_ok flush (b, s) ->
  deflate_result_ok flush (deflate_after_engine s flush b).
Proof.
  unfold engine_result_ok, deflate_after_engine. cbn [fst snd].
  destruct b; cbn [is_finish_started is_finish_done is_need_more is_block_done
                   orb]; cbn zeta.
  - (* need_more *)
    intros Ok. unfold deflate_result_ok. cbn [fst snd]. right. left.
    split; [reflexivity|]. intros ->.
    destruct Ok as [Ok|Ok]; [discriminate Ok|].
    rewrite Ok. cbn [Z.eqb]. fields. split; [exact Ok|reflexivity].
  - (* block_done *)
    intros [_ Hf].
    match goal with
    | |- context [flush_pending ?x] => remember (flush_pending x) as s1 eqn:E1
    end.
    clear E1. destruct (Z.eqb_spec (avail_out s1) 0) as [E|E].
    + unfold deflate_result_ok. cbn [fst snd]. right. left.
      split; [reflexivity|]. intros C. contradiction.
    + apply deflate_end_ok; [intros C; contradiction|exact E].
  - (* finish_started *)
    intros [-> Ok]. unfold deflate_result_ok. cbn [fst snd]. right. left.
    split; [reflexivity|]. intros _. fields. rewrite Ok. cbn [Z.eqb]. fields.
    split; [exact Ok|reflexivity].
  - (* finish_done *)
    intros (-> & Ha & Hp). apply deflate_end_ok.
    + intros _. unfold pending_ in *. fields. split; [reflexivity|exact Hp].
    + fields. exact Ha.
Qed.

(** Every result of [deflate] is one of those that [deflate_result_ok]
    lists. *)
Lemma deflate_results (fuel : nat) (s : deflate_stream T) (flush : Z)
    (r : Z * deflate_stream T) :
  deflate fuel s flush = Some r -> deflate_result_ok flush r.
Proof.
  assert (G : forall s1 : deflate_stream T,
             avail_out s1 <> 0 -> pending_ s1 = 0 ->
             (if (status_ s1 =? FINISH_STATE) && negb (avail_in s1 =? 0)
              then Some (ERR_RETURN s1 Z_BUF_ERROR)
              else
                if negb (avail_in s1 =? 0) || negb (lookahead_ s1 =? 0)
                   || (negb (flush =? Z_NO_FLUSH)
                       && negb (status_ s1 =? FINISH_STATE))
                then
                  match run_engine fuel s1 flush with
                  | None => None
                  | Some (bstate, s2) => Some (deflate_after_engine s2 flush bstate)
                  end
                else Some (deflate_end s1 flush)) = Some r ->
             deflate_result_ok flush r).
  { intros s1 Ha Hp.
    destruct (_ && _).
    { intros [= <-]. unfold deflate_result_ok. cbn. auto. }
    destruct (negb (avail_in s1 =? 0)); cbn [orb].
    { destruct (run_engine fuel s1 flush) as [[b s2]|] eqn:E; [|discriminate].
      intros [= <-]. apply deflate_after_engine_ok.
      exact (run_engine_block_state_aux _ _ _ _ E). }
    destruct (negb (lookahead_ s1 =? 0)); cbn [orb].
    { destruct (run_engine fuel s1 flush) as [[b s2]|] eqn:E; [|discriminate].
      intros [= <-]. apply deflate_after_engine_ok.
      exact (run_engine_block_state_aux _ _ _ _ E). }
    destruct (Z.eqb_spec flush Z_NO_FLUSH) as [Ef|Ef]; cbn [negb andb].
    { intros [= <-]. apply deflate_end_ok; [|exact Ha].
      intros C. rewrite C in Ef. discriminate Ef. }
    destruct (Z.eqb_spec (status_ s1) FINISH_STATE) as [Es|Es]; cbn [negb].
    { intros [= <-]. apply deflate_end_ok; [|exact Ha].
      intros _. split; assumption. }
    destruct (run_engine fuel s1 flush) as [[b s2]|] eqn:E; [|discriminate].
    intros [= <-]. apply deflate_after_engine_ok.
    exact (run_engine_block_state_aux _ _ _ _ E). }
  unfold deflate.
  destruct (_ || _).
  { intros [= <-]. unfold deflate_result_ok. cbn. auto. }
  destruct (_ || _).
  { intros [= <-]. unfold deflate_result_ok. cbn. auto. }
  destruct (Z.eqb_spec (avail_out s) 0) as [Ea|Ea].
  { intros [= <-]. unfold deflate_result_ok. cbn. auto. }
  cbn zeta.
  destruct (Z.eqb_spec (pending_ (set_last_flush_ flush s)) 0) as [Ep|Ep];
    cbn [negb].
  - destruct (_ && _).
    { intros [= <-]. unfold deflate_result_ok. cbn. auto. }
    apply G; [fields; exact Ea|exact Ep].
  - destruct (Z.eqb_spec (avail_out (flush_pending (set_last_flush_ flush s))) 0)
      as [Eo|Eo].
    + intros [= <-]. unfold deflate_result_ok. cbn [fst snd]. right. left.
      split; [reflexivity|]. intros _. fields. split; [exact Eo|reflexivity].
    + apply G; [exact Eo|]. apply flush_pending_drained. exact Eo.
Qed.

(** X11.  When [deflate] returns [Z_STREAM_END], the flush mode was
    [Z_FINISH], the stream is in the state [FINISH_STATE], no output is
    pending, and there is room left in the output buffer. *)
Theorem deflate_stream_end (fuel : nat) (s s' : deflate_stream T) (flush : Z) :
  deflate fuel s flush = Some (Z_STREAM_END, s') ->
  flush = Z_FINISH /\ status_ s' = FINISH_STATE /\ pending_ s' = 0
  /\ avail_out s' <> 0.
Proof.
  intros E. apply deflate_results in E. unfold deflate_result_ok in E.
  cbn [fst snd] in E.
  destruct E as [(_ & E)|[(C & _)|[C|C]]]; [exact E|discriminate C..].
Qed.

(** X12.  When [deflate] with [Z_FINISH] returns [Z_OK] instead of
    [Z_STREAM_END], the output buffer is full, and [last_flush_] is set to
    -1, so that the next call with [Z_FINISH] and more room is not refused
    as a repeated one. *)
Theorem deflate_finish_needs_room (fuel : nat) (s s' : deflate_stream T) :
  deflate fuel s Z_FINISH = Some (Z_OK, s') ->
  avail_out s' = 0 /\ last_flush_ s' = -1.
Proof.
  intros E. apply deflate_results in E. unfold deflate_result_ok in E.
  cbn [fst snd] in E.
  destruct E as [(C & _)|[(_ & E)|[C|C]]]; [discriminate C| |discriminate C..].
  apply E. reflexivity.
Qed.

End Discipline.

(** ** The accounting of input and output *)

Lemma advance_advance (p : list Z) (a b : Z) :
  0 <= a -> 0 <= b -> advance (advance p a) b = advance p (a + b).
Proof.
  intros Ha Hb. unfold advance. rewrite skipn_skipn. f_equal. lia.
Qed.

Lemma uLong_add_l (a b : Z) : uLong (uLong a + b) = uLong (a + b).
Proof. unfold uLong. apply Zplus_mod_idemp_l. Qed.

Lemma uLong_range (a : Z) : 0 <= uLong a < 2 ^ 64.
Proof. unfold uLong. apply Z.mod_pos_bound. lia. Qed.

Section Accounting.
Context {T : Type} `{Trees T}.

Lemma same_io_refl (s : deflate_stream T) : same_io s s.
Proof. unfold same_io. repeat split. Qed.

Lemma same_io_trans (a b c : deflate_stream T) :
  same_io a b -> same_io b c -> same_io a c.
Proof.
  unfold same_io. intros (?&?&?&?&?&?) (?&?&?&?&?&?).
  repeat split; congruence.
Qed.

Lemma io_step_refl (s : deflate_stream T) : io_ok s -> io_step s s.
Proof.
  intros Ok. split; [exact Ok|]. exists 0, []. unfold io_ok in Ok.
  unfold io_moved. change (zlen []) with 0. rewrite !Z.add_0_r, !Z.sub_0_r.
  rewrite !uLong_small by lia.
  repeat split; try lia.
  - destruct (next_in s); reflexivity.
  - destruct (next_out s); cbn; [rewrite app_nil_r|]; reflexivity.
Qed.

Lemma io_step_trans (a b c : deflate_stream T) :
  io_step a b -> io_step b c -> io_step a c.
Proof.
  intros (Ok1 & k1 & b1 & M1) (Ok2 & k2 & b2 & M2). split; [exact Ok2|].
  exists (k1 + k2), (b1 ++ b2). unfold io_moved in *.
  destruct M1 as (Hk1 & A1 & T1 & N1 & L1 & O1 & U1 & P1).
  destruct M2 as (Hk2 & A2 & T2 & N2 & L2 & O2 & U2 & P2).
  assert (Z1 : 0 <= zlen b1) by (unfold zlen; lia).
  assert (Z2 : 0 <= zlen b2) by (unfold zlen; lia).
  assert (ZZ : zlen (b1 ++ b2) = zlen b1 + zlen b2)
    by (unfold zlen; rewrite length_app; lia).
  rewrite ZZ.
  split; [lia|]. split; [lia|]. split.
  { rewrite T2, T1, uLong_add_l. f_equal. lia. }
  split.
  { rewrite N2, N1. destruct (next_in a); cbn; [|reflexivity].
    rewrite advance_advance by lia. reflexivity. }
  split; [lia|]. split; [lia|]. split.
  { rewrite U2, U1, uLong_add_l. f_equal. lia. }
  rewrite P2, P1. destruct (next_out a); cbn; [|reflexivity].
  rewrite app_assoc. reflexivity.
Qed.

Lemma same_io_step (a b : deflate_stream T) :
  io_ok a -> same_io a b -> io_step a b.
Proof.
  intros Ok (E1 & E2 & E3 & E4 & E5 & E6).
  destruct (io_step_refl a Ok) as (_ & k & bs & M).
  split.
  - unfold io_ok in *. rewrite E2, E3, E5, E6. exact Ok.
  - exists k, bs. unfold io_moved in *. rewrite E1, E2, E3, E4, E5, E6. exact M.
Qed.

Lemma io_step_same (a b c : deflate_stream T) :
  io_step a b -> same_io b c -> io_step a c.
Proof.
  intros S E. apply (io_step_trans a b c S).
  apply same_io_step; [exact (proj1 S)|exact E].
Qed.

Lemma same_io_then (a b c : deflate_stream T) :
  io_ok a -> same_io a b -> io_step b c -> io_step a c.
Proof.
  intros Ok E S. apply (io_step_trans a b c); [|exact S].
  apply same_io_step; assumption.
Qed.

Lemma io_step_ok (a b : deflate_stream T) : io_step a b -> io_ok b.
Proof. intros S. exact (proj1 S). Qed.

(** [read_buf] consumes input and does nothing else to the [z_stream]
    part. *)
Lemma read_buf_io (s : deflate_stream T) (off size : Z) :
  io_ok s -> 0 <= size -> io_step s (fst (read_buf s off size)).
Proof.
  intros Ok Hs. unfold read_buf. cbn zeta.
  remember (if size <? avail_in s then size else avail_in s) as len eqn:El.
  assert (Hl : 0 <= len <= avail_in s).
  { unfold io_ok in Ok. subst len. destruct (Z.ltb_spec size (avail_in s)); lia. }
  clear El. destruct (Z.eqb_spec len 0) as [E0|E0].
  - cbn [fst]. apply io_step_refl. exact Ok.
  - cbn [fst]. unfold io_ok in Ok. split.
    + unfold io_ok. fields. rewrite u32_small by lia.
      pose proof (uLong_range (total_in s + len)). lia.
    + exists len, []. unfold io_moved. fields. change (zlen []) with 0.
      rewrite u32_small by lia. rewrite !Z.add_0_r, !Z.sub_0_r.
      rewrite (uLong_small (total_out s)) by lia.
      repeat split; try lia.
      destruct (next_out s); cbn; [rewrite app_nil_r|]; reflexivity.
Qed.

(** [flush_pending] writes output and does nothing else to the [z_stream]
    part. *)
Lemma flush_pending_io (s : deflate_stream T) :
  io_ok s -> io_step s (flush_pending s).
Proof.
  intros Ok. unfold flush_pending.
  assert (E1 : same_io s (set_tr_ (_tr_flush_bits (tr_ s)) s))
    by (unfold same_io; fields; repeat split; reflexivity).
  apply (same_io_then s _ _ Ok E1).
  assert (Ok1 : io_ok (set_tr_ (_tr_flush_bits (tr_ s)) s))
    by (apply io_step_ok with (a := s); apply same_io_step; assumption).
  remember (set_tr_ (_tr_flush_bits (tr_ s)) s) as s1 eqn:Es1.
  clear Es1 E1 Ok s. cbn zeta.
  remember (if avail_out s1 <? pending_ s1 then avail_out s1 else pending_ s1)
    as len eqn:El.
  assert (Hl : 0 <= len <= avail_out s1 /\ len <= pending_ s1).
  { unfold io_ok in Ok1. subst len. unfold pending_, zlen in *.
    destruct (Z.ltb_spec (avail_out s1) (Z.of_nat (length (pending_out_ (tr_ s1)))));
      lia. }
  clear El. destruct (Z.eqb_spec len 0) as [E0|E0].
  - apply io_step_refl. exact Ok1.
  - unfold io_ok in Ok1.
    assert (Zc : zlen (bytes_at (pending_out_ (tr_ s1)) len) = len).
    { apply zlen_bytes_at. unfold pending_ in Hl. lia. }
    split.
    + unfold io_ok. fields. rewrite u32_small by lia.
      pose proof (uLong_range (total_out s1 + len)). lia.
    + exists 0, (bytes_at (pending_out_ (tr_ s1)) len). unfold io_moved. fields.
      rewrite Zc. rewrite u32_small by lia. rewrite !Z.add_0_r, !Z.sub_0_r.
      rewrite (uLong_small (total_in s1)) by lia.
      repeat split; try lia.
      destruct (next_in s1); reflexivity.
Qed.

(** A setter of a field outside of the [z_stream] part. *)
Ltac io_frame := solve [unfold same_io; fields; repeat split; reflexivity].

Lemma iter_io (n : nat) (f : deflate_stream T -> deflate_stream T)
    (s : deflate_stream T) :
  (forall x, same_io x (f x)) -> same_io s (Nat.iter n f s).
Proof.
  intros Hf. induction n as [|n IH]; [apply same_io_refl|].
  rewrite Nat.iter_succ. exact (same_io_trans _ _ _ IH (Hf _)).
Qed.

Lemma do_while_dec_io (n : Z) (f : deflate_stream T -> deflate_stream T)
    (s : deflate_stream T) :
  (forall x, same_io x (f x)) -> same_io s (do_while_dec n f s).
Proof. intros Hf. unfold do_while_dec. apply iter_io. exact Hf. Qed.

Lemma INSERT_STRING_io (s : deflate_stream T) (str : Z) :
  same_io s (fst (INSERT_STRING s str)).
Proof. unfold INSERT_STRING. io_frame. Qed.

Lemma insert_current_io (s : deflate_stream T) :
  same_io s (fst (insert_current s)).
Proof.
  unfold insert_current. destruct (MIN_MATCH <=? lookahead_ s).
  - apply INSERT_STRING_io.
  - apply same_io_refl.
Qed.

Lemma longest_match_io (s : deflate_stream T) (cur : Z) :
  same_io s (fst (longest_match s cur)).
Proof. unfold longest_match. io_frame. Qed.

Lemma _tr_tally_lit_io (s : deflate_stream T) (c : Z) :
  same_io s (fst (_tr_tally_lit s c)).
Proof. unfold _tr_tally_lit. io_frame. Qed.

Lemma _tr_tally_dist_io (s : deflate_stream T) (d l : Z) :
  same_io s (fst (_tr_tally_dist s d l)).
Proof. unfold _tr_tally_dist. io_frame. Qed.

Lemma CLEAR_HASH_io (s : deflate_stream T) : same_io s (CLEAR_HASH s).
Proof. unfold CLEAR_HASH. io_frame. Qed.

Lemma slide_window_io (s : deflate_stream T) : same_io s (slide_window s).
Proof. unfold slide_window. io_frame. Qed.

Lemma fill_window_insert_io (n : nat) (s : deflate_stream T) (str : Z) :
  same_io s (fill_window_insert n s str).
Proof.
  revert s str. induction n as [|n IH]; intros s str; cbn [fill_window_insert];
    [apply same_io_refl|].
  destruct (insert_ s =? 0); [apply same_io_refl|]. cbn zeta.
  match goal with
  | |- same_io _ (if _ then ?x else _) =>
      assert (E : same_io s x) by io_frame; remember x as s1 eqn:E1; clear E1
  end.
  destruct (_ <? _); [exact E|].
  exact (same_io_trans _ _ _ E (IH _ _)).
Qed.

Lemma fill_window_high_water_io (s : deflate_stream T) :
  same_io s (fill_window_high_water s).
Proof.
  unfold fill_window_high_water. cbn zeta.
  destruct (_ <? _); [|apply same_io_refl].
  destruct (_ <? _); [io_frame|].
  destruct (_ <? _); [io_frame|apply same_io_refl].
Qed.

Lemma fill_window_read_io (s : deflate_stream T) (more : Z) :
  io_ok s -> 0 <= more -> io_step s (fill_window_read s more).
Proof.
  intros Ok Hm. unfold fill_window_read.
  pose proof (read_buf_io s (strstart_ s + lookahead_ s) more Ok Hm) as R.
  destruct (read_buf s (strstart_ s + lookahead_ s) more) as [s1 n].
  cbn [fst] in R. cbn zeta.
  apply (io_step_trans _ _ _ R). apply same_io_step; [exact (proj1 R)|].
  assert (E : same_io s1 (set_lookahead_ (u32 (lookahead_ s1 + n)) s1)) by io_frame.
  remember (set_lookahead_ (u32 (lookahead_ s1 + n)) s1) as s2 eqn:E2. clear E2.
  destruct (MIN_MATCH <=? _); [|exact E].
  apply (same_io_trans _ _ _ E).
  match goal with
  | |- same_io _ (fill_window_insert ?n ?x ?str) =>
      apply (same_io_trans _ x); [io_frame|apply fill_window_insert_io]
  end.
Qed.

Lemma fill_window_loop_io (fuel : nat) (s s' : deflate_stream T) :
  io_ok s -> fill_window_loop fuel s = Some s' -> io_step s s'.
Proof.
  revert s. induction fuel as [|fuel IH]; intros s Ok; cbn [fill_window_loop];
    [discriminate|]. cbn zeta.
  assert (Hm : 0 <= u32 (window_size_ s - lookahead_ s - strstart_ s))
    by (unfold u32; apply Z.mod_pos_bound; lia).
  remember (u32 (window_size_ s - lookahead_ s - strstart_ s)) as more eqn:Em.
  clear Em.
  assert (P : forall s1 more1, same_io s s1 -> 0 <= more1 ->
              (if avail_in s1 =? 0 then Some s1
               else
                 if (lookahead_ (fill_window_read s1 more1) <? MIN_LOOKAHEAD)
                    && negb (avail_in (fill_window_read s1 more1) =? 0)
                 then fill_window_loop fuel (fill_window_read s1 more1)
                 else Some (fill_window_read s1 more1)) = Some s' ->
              io_step s s').
  { intros s1 more1 E1 Hm1.
    assert (S1 : io_step s s1) by (apply same_io_step; assumption).
    destruct (avail_in s1 =? 0).
    - intros [= <-]. exact S1.
    - pose proof (fill_window_read_io s1 more1 (proj1 S1) Hm1) as R.
      remember (fill_window_read s1 more1) as s2 eqn:E2. clear E2.
      destruct (_ && _).
      + intros E. apply (io_step_trans _ _ _ S1). apply (io_step_trans _ _ _ R).
        apply IH; [exact (proj1 R)|exact E].
      + intros [= <-]. exact (io_step_trans _ _ _ S1 R). }
  destruct (w_size_ s + MAX_DIST s <=? strstart_ s).
  - apply P; [apply slide_window_io|].
    unfold u32. apply Z.mod_pos_bound. lia.
  - apply P; [apply same_io_refl|exact Hm].
Qed.

Lemma fill_window_io (fuel : nat) (s s' : deflate_stream T) :
  io_ok s -> fill_window fuel s = Some s' -> io_step s s'.
Proof.
  intros Ok. unfold fill_window.
  destruct (fill_window_loop fuel s) as [s1|] eqn:E; [|discriminate].
  cbn [option_map]. intros [= <-].
  apply (io_step_same _ s1); [exact (fill_window_loop_io _ _ _ Ok E)|].
  apply fill_window_high_water_io.
Qed.

Lemma FLUSH_BLOCK_ONLY_io (s : deflate_stream T) (last : Z) :
  io_ok s -> io_step s (FLUSH_BLOCK_ONLY s last).
Proof.
  intros Ok. unfold FLUSH_BLOCK_ONLY. cbn zeta.
  match goal with
  | |- io_step _ (flush_pending ?x) =>
      assert (E : same_io s x) by io_frame; remember x as s1 eqn:E1; clear E1
  end.
  apply (same_io_then _ _ _ Ok E). apply flush_pending_io.
  exact (proj1 (same_io_step _ _ Ok E)).
Qed.

Lemma fast_insert_next_io (s : deflate_stream T) :
  same_io s (fast_insert_next s).
Proof.
  unfold fast_insert_next. cbn zeta.
  match goal with
  | |- same_io ?a (fst (INSERT_STRING ?y ?str)) =>
      apply (same_io_trans a y); [io_frame|apply INSERT_STRING_io]
  end.
Qed.

Lemma slow_insert_next_io (m : Z) (s : deflate_stream T) :
  same_io s (slow_insert_next m s).
Proof.
  unfold slow_insert_next. cbn zeta. destruct (_ <=? _); [|io_frame].
  match goal with
  | |- same_io ?a (fst (INSERT_STRING ?y ?str)) =>
      apply (same_io_trans a y); [io_frame|apply INSERT_STRING_io]
  end.
Qed.

(** Peels the setters, the insertions and the loops of insertions off the
    state on the right. *)
Ltac io_peel :=
  repeat first
    [ apply same_io_refl
    | assumption
    | match goal with
      | |- same_io ?a (do_while_dec ?n fast_insert_next ?y) =>
          apply (same_io_trans a y);
          [|apply do_while_dec_io; apply fast_insert_next_io]
      | |- same_io ?a (do_while_dec ?n (slow_insert_next ?m) ?y) =>
          apply (same_io_trans a y);
          [|apply do_while_dec_io; apply slow_insert_next_io]
      | |- same_io ?a (fst (INSERT_STRING ?y ?str)) =>
          apply (same_io_trans a y); [|apply INSERT_STRING_io]
      | |- same_io ?a (if ?c then _ else _) => destruct c
      | |- same_io ?a (?f ?x ?y) => apply (same_io_trans a y); [|io_frame]
      end ].

Lemma FLUSH_BLOCK_step_io (s : deflate_stream T) (last : Z)
    (k : deflate_stream T -> step T) :
  io_ok s ->
  (forall s1, io_ok s1 -> io_step s1 (step_state (k s1))) ->
  io_step s (step_state (FLUSH_BLOCK (Return (T := T)) s last k)).
Proof.
  intros Ok Hk. unfold FLUSH_BLOCK. cbn zeta.
  pose proof (FLUSH_BLOCK_ONLY_io s last Ok) as F.
  destruct (avail_out (FLUSH_BLOCK_ONLY s last) =? 0).
  - exact F.
  - exact (io_step_trans _ _ _ F (Hk _ (proj1 F))).
Qed.

Lemma FLUSH_BLOCK_pair_io (s : deflate_stream T) (last : Z) (b : block_state) :
  io_ok s ->
  io_step s (snd (FLUSH_BLOCK pair s last (pair b))).
Proof.
  intros Ok. unfold FLUSH_BLOCK. cbn zeta.
  pose proof (FLUSH_BLOCK_ONLY_io s last Ok) as F.
  destruct (avail_out (FLUSH_BLOCK_ONLY s last) =? 0); exact F.
Qed.

Lemma flush_if_io (a b : deflate_stream T) (bflush : bool) :
  io_ok a -> same_io a b -> io_step a (step_state (flush_if bflush b)).
Proof.
  intros Ok E. apply (same_io_then _ _ _ Ok E).
  pose proof (proj1 (same_io_step _ _ Ok E)) as Okb.
  unfold flush_if. destruct bflush.
  - apply FLUSH_BLOCK_step_io; [exact Okb|]. intros s1 Ok1.
    apply io_step_refl. exact Ok1.
  - apply io_step_refl. exact Okb.
Qed.

Lemma flush_if_may_slide_io (s : deflate_stream T) :
  io_ok s -> io_step s (step_state (flush_if_may_slide s)).
Proof.
  intros Ok. unfold flush_if_may_slide. destruct (_ <=? _).
  - apply FLUSH_BLOCK_step_io; [exact Ok|]. intros s1 Ok1.
    apply io_step_refl. exact Ok1.
  - apply io_step_refl. exact Ok.
Qed.

Lemma stored_absorb_io (s : deflate_stream T) :
  io_ok s -> io_step s (step_state (stored_absorb s)).
Proof.
  intros Ok. unfold stored_absorb. cbn zeta.
  destruct (_ || _).
  - match goal with
    | |- io_step _ (step_state (FLUSH_BLOCK _ ?x _ _)) =>
        assert (E : same_io s x) by io_frame; remember x as s1 eqn:E1; clear E1
    end.
    apply (same_io_then _ _ _ Ok E).
    apply FLUSH_BLOCK_step_io; [exact (proj1 (same_io_step _ _ Ok E))|].
    apply flush_if_may_slide_io.
  - match goal with
    | |- io_step _ (step_state (flush_if_may_slide ?x)) =>
        assert (E : same_io s x) by io_frame; remember x as s1 eqn:E1; clear E1
    end.
    apply (same_io_then _ _ _ Ok E).
    apply flush_if_may_slide_io. exact (proj1 (same_io_step _ _ Ok E)).
Qed.

Lemma stored_fill_io (flush : Z) (fuel : nat) (s : deflate_stream T)
    (st : step T) :
  io_ok s -> stored_fill flush fuel s = Some st -> io_step s (step_state st).
Proof.
  intros Ok. unfold stored_fill. destruct (lookahead_ s <=? 1).
  - destruct (fill_window fuel s) as [s1|] eqn:E; [|discriminate].
    pose proof (fill_window_io _ _ _ Ok E) as F.
    destruct (_ && _); [intros [= <-]; exact F|].
    destruct (_ =? _); intros [= <-]; exact F.
  - intros [= <-]. apply io_step_refl. exact Ok.
Qed.

Lemma ensure_lookahead_io (threshold flush : Z) (fuel : nat)
    (s : deflate_stream T) (st : step T) :
  io_ok s -> ensure_lookahead threshold flush fuel s = Some st ->
  io_step s (step_state st).
Proof.
  intros Ok. unfold ensure_lookahead. destruct (lookahead_ s <? threshold).
  - destruct (fill_window fuel s) as [s1|] eqn:E; [|discriminate].
    pose proof (fill_window_io _ _ _ Ok E) as F.
    destruct (_ && _); [intros [= <-]; exact F|].
    destruct (_ =? _); intros [= <-]; exact F.
  - intros [= <-]. apply io_step_refl. exact Ok.
Qed.

Lemma deflate_stored_body_io (flush : Z) (fuel : nat) (s : deflate_stream T)
    (st : step T) :
  io_ok s -> deflate_stored_body flush fuel s = Some st ->
  io_step s (step_state st).
Proof.
  intros Ok. unfold deflate_stored_body.
  destruct (stored_fill flush fuel s) as [[s1|s1|b s1]|] eqn:E;
    try discriminate; pose proof (stored_fill_io _ _ _ _ Ok E) as F;
    cbn [step_state] in F; intros [= <-]; try exact F.
  apply (io_step_trans _ _ _ F). apply stored_absorb_io. exact (proj1 F).
Qed.

Lemma deflate_fast_body_io (flush : Z) (fuel : nat) (s : deflate_stream T)
    (st : step T) :
  io_ok s -> deflate_fast_body flush fuel s = Some st ->
  io_step s (step_state st).
Proof.
  intros Ok. unfold deflate_fast_body.
  destruct (ensure_lookahead MIN_LOOKAHEAD flush fuel s) as [[s1|s1|b s1]|] eqn:E;
    try discriminate; pose proof (ensure_lookahead_io _ _ _ _ _ Ok E) as F;
    cbn [step_state] in F.
  2: intros [= <-]; exact F.
  2: intros [= <-]; exact F.
  clear E. pose proof (insert_current_io s1) as I.
  destruct (insert_current s1) as [s2 hash_head]. cbn [fst] in I.
  assert (L : same_io s2
                (if negb (hash_head =? NIL)
                    && (u32 (strstart_ s2 - hash_head) <=? MAX_DIST s2)
                 then let '(s0, len) := longest_match s2 hash_head in
                      set_match_length_ len s0
                 else s2)).
  { destruct (_ && _); [|apply same_io_refl].
    pose proof (longest_match_io s2 hash_head) as M.
    destruct (longest_match s2 hash_head) as [s0 len]. cbn [fst] in M.
    apply (same_io_trans _ _ _ M). io_frame. }
  remember (if negb (hash_head =? NIL)
               && (u32 (strstart_ s2 - hash_head) <=? MAX_DIST s2)
            then let '(s0, len) := longest_match s2 hash_head in
                 set_match_length_ len s0
            else s2) as s3 eqn:E3.
  clear E3. intros E1. apply Some_inj in E1. subst st.
  apply (io_step_trans _ _ _ F).
  pose proof (proj1 F) as Ok1.
  pose proof (same_io_trans _ _ _ I L) as E13.
  apply (same_io_then _ _ _ Ok1 E13).
  pose proof (proj1 (same_io_step _ _ Ok1 E13)) as Ok3.
  clear F I L E13 Ok1 Ok s s1 s2.
  destruct (MIN_MATCH <=? match_length_ s3).
  - unfold _tr_tally_dist. cbv beta iota zeta.
    apply flush_if_io; [exact Ok3|]. io_peel.
  - unfold _tr_tally_lit. cbv beta iota zeta.
    apply flush_if_io; [exact Ok3|]. io_peel.
Qed.

Lemma slow_search_io (s : deflate_stream T) : same_io s (slow_search s).
Proof.
  unfold slow_search. pose proof (insert_current_io s) as I.
  destruct (insert_current s) as [s1 hash_head]. cbn [fst] in I. cbn zeta.
  apply (same_io_trans _ _ _ I).
  match goal with
  | |- same_io _ (if ?c then _ else _) => destruct c; [|io_frame]
  end.
  match goal with
  | |- context [longest_match ?x ?h] =>
      pose proof (longest_match_io x h) as M;
      assert (E : same_io s1 x) by io_frame;
      remember x as s2 eqn:E2; clear E2
  end.
  destruct (longest_match s2 hash_head) as [s3 len]. cbn [fst] in M. cbn zeta.
  apply (same_io_trans _ _ _ E). apply (same_io_trans _ _ _ M).
  io_peel.
Qed.

Lemma slow_commit_io (s : deflate_stream T) : same_io s (fst (slow_commit s)).
Proof.
  unfold slow_commit. cbn zeta.
  pose proof (_tr_tally_dist_io s (u32 (strstart_ s - 1 - prev_match_ s))
                (u32 (prev_length_ s - MIN_MATCH))) as D.
  destruct (_tr_tally_dist s _ _) as [s1 bflush]. cbn [fst] in *.
  apply (same_io_trans _ _ _ D). io_peel.
Qed.

Lemma slow_decide_io (s : deflate_stream T) :
  io_ok s -> io_step s (step_state (slow_decide s)).
Proof.
  intros Ok. unfold slow_decide. destruct (_ && _).
  - pose proof (slow_commit_io s) as C.
    destruct (slow_commit s) as [s1 bflush]. cbn [fst] in C.
    apply flush_if_io; assumption.
  - destruct (negb _).
    + pose proof (_tr_tally_lit_io s (get (window_ s) (strstart_ s - 1))) as D.
      destruct (_tr_tally_lit s _) as [s1 bflush]. cbn [fst] in D. cbn zeta.
      pose proof (proj1 (same_io_step _ _ Ok D)) as Ok1.
      assert (F : io_step s (if bflush then FLUSH_BLOCK_ONLY s1 0 else s1)).
      { apply (same_io_then _ _ _ Ok D). destruct bflush.
        - apply FLUSH_BLOCK_ONLY_io. exact Ok1.
        - apply io_step_refl. exact Ok1. }
      remember (if bflush then FLUSH_BLOCK_ONLY s1 0 else s1) as s2 eqn:E2.
      clear E2.
      match goal with
      | |- io_step _ (step_state (if _ then Return _ ?x else _)) =>
          assert (E : same_io s2 x) by io_frame; remember x as s3 eqn:E3;
          clear E3
      end.
      destruct (_ =? _); cbn [step_state]; exact (io_step_same _ _ _ F E).
    + cbn zeta. cbn [step_state]. apply same_io_step; [exact Ok|io_frame].
Qed.

Lemma deflate_slow_body_io (flush : Z) (fuel : nat) (s : deflate_stream T)
    (st : step T) :
  io_ok s -> deflate_slow_body flush fuel s = Some st ->
  io_step s (step_state st).
Proof.
  intros Ok. unfold deflate_slow_body.
  destruct (ensure_lookahead MIN_LOOKAHEAD flush fuel s) as [[s1|s1|b s1]|] eqn:E;
    try discriminate; pose proof (ensure_lookahead_io _ _ _ _ _ Ok E) as F;
    cbn [step_state] in F; intros [= <-]; try exact F.
  apply (io_step_trans _ _ _ F).
  apply (same_io_then _ _ _ (proj1 F) (slow_search_io s1)).
  apply slow_decide_io.
  exact (proj1 (same_io_step _ _ (proj1 F) (slow_search_io s1))).
Qed.

Lemma rle_match_io (s : deflate_stream T) : same_io s (rle_match s).
Proof.
  unfold rle_match. cbn zeta. destruct (_ && _); [|io_frame].
  destruct (rle_group 3 _ _ _) as [scan same]. destruct same; [|io_frame].
  io_peel.
Qed.

Lemma deflate_rle_body_io (flush : Z) (fuel : nat) (s : deflate_stream T)
    (st : step T) :
  io_ok s -> deflate_rle_body flush fuel s = Some st ->
  io_step s (step_state st).
Proof.
  intros Ok. unfold deflate_rle_body.
  destruct (ensure_lookahead (MAX_MATCH + 1) flush fuel s)
    as [[s1|s1|b s1]|] eqn:E;
    try discriminate; pose proof (ensure_lookahead_io _ _ _ _ _ Ok E) as F;
    cbn [step_state] in F.
  2: intros [= <-]; exact F.
  2: intros [= <-]; exact F.
  pose proof (rle_match_io s1) as R. cbv zeta.
  remember (rle_match s1) as s3 eqn:E3. clear E3.
  intros E1. apply Some_inj in E1. subst st.
  apply (io_step_trans _ _ _ F).
  apply (same_io_then _ _ _ (proj1 F) R).
  pose proof (proj1 (same_io_step _ _ (proj1 F) R)) as Ok3.
  clear F R E Ok s s1.
  destruct (MIN_MATCH <=? match_length_ s3).
  - unfold _tr_tally_dist. cbv beta iota zeta.
    apply flush_if_io; [exact Ok3|]. io_peel.
  - unfold _tr_tally_lit. cbv beta iota zeta.
    apply flush_if_io; [exact Ok3|]. io_peel.
Qed.

Lemma deflate_huff_body_io (flush : Z) (fuel : nat) (s : deflate_stream T)
    (st : step T) :
  io_ok s -> deflate_huff_body flush fuel s = Some st ->
  io_step s (step_state st).
Proof.
  intros Ok. unfold deflate_huff_body. cbn zeta.
  assert (L : forall s0 : deflate_stream T, io_ok s0 ->
             io_step s0
               (step_state
                  (let '(s1, bflush) :=
                     _tr_tally_lit (set_match_length_ 0 s0)
                       (get (window_ (set_match_length_ 0 s0))
                          (strstart_ (set_match_length_ 0 s0))) in
                   flush_if bflush
                     (set_strstart_
                        (u32 (strstart_ (set_lookahead_ (u32 (lookahead_ s1 - 1)) s1) + 1))
                        (set_lookahead_ (u32 (lookahead_ s1 - 1)) s1))))).
  { intros s0 Ok0.
    assert (E0 : same_io s0 (set_match_length_ 0 s0)) by io_frame.
    pose proof (_tr_tally_lit_io (set_match_length_ 0 s0)
                  (get (window_ (set_match_length_ 0 s0))
                     (strstart_ (set_match_length_ 0 s0)))) as D.
    destruct (_tr_tally_lit _ _) as [s1 b]. cbn [fst] in D.
    apply flush_if_io; [exact Ok0|].
    apply (same_io_trans _ _ _ E0). apply (same_io_trans _ _ _ D). io_peel. }
  destruct (lookahead_ s =? 0).
  - destruct (fill_window fuel s) as [s1|] eqn:E; [|discriminate].
    pose proof (fill_window_io _ _ _ Ok E) as F.
    destruct (lookahead_ s1 =? 0).
    + destruct (flush =? Z_NO_FLUSH); intros [= <-]; exact F.
    + intros [= <-]. apply (io_step_trans _ _ _ F). apply L. exact (proj1 F).
  - intros [= <-]. apply L. exact Ok.
Qed.

Lemma forever_io (body : nat -> deflate_stream T -> option (step T)) :
  (forall fuel s st, io_ok s -> body fuel s = Some st ->
                     io_step s (step_state st)) ->
  forall fuel s r, io_ok s -> forever body fuel s = Some r ->
  io_step s (match r with inl s' => s' | inr x => snd x end).
Proof.
  intros Hb. induction fuel as [|fuel IH]; intros s r Ok; cbn [forever];
    [discriminate|].
  destruct (body fuel s) as [[s1|s1|b s1]|] eqn:E; try discriminate;
    pose proof (Hb _ _ _ Ok E) as F; cbn [step_state] in F.
  - intros R. apply (io_step_trans _ _ _ F). apply IH; [exact (proj1 F)|exact R].
  - intros [= <-]. exact F.
  - intros [= <-]. exact F.
Qed.

Lemma flush_tail_io (flush : Z) (a s : deflate_stream T) :
  io_ok a -> same_io a s -> io_step a (snd (flush_tail flush s)).
Proof.
  intros Ok E. apply (same_io_then _ _ _ Ok E).
  pose proof (proj1 (same_io_step _ _ Ok E)) as Oks.
  unfold flush_tail. destruct (flush =? Z_FINISH).
  - apply FLUSH_BLOCK_pair_io. exact Oks.
  - destruct (negb _).
    + apply FLUSH_BLOCK_pair_io. exact Oks.
    + apply io_step_refl. exact Oks.
Qed.

Lemma deflate_stored_tail_io (flush : Z) (s : deflate_stream T) :
  io_ok s -> io_step s (snd (deflate_stored_tail flush s)).
Proof.
  intros Ok. unfold deflate_stored_tail. cbn zeta.
  assert (E : same_io s (set_insert_ 0 s)) by io_frame.
  apply (same_io_then _ _ _ Ok E).
  pose proof (proj1 (same_io_step _ _ Ok E)) as Oks.
  remember (set_insert_ 0 s) as s1 eqn:E1. clear E1.
  destruct (flush =? Z_FINISH).
  - apply FLUSH_BLOCK_pair_io. exact Oks.
  - destruct (_ <? _).
    + apply FLUSH_BLOCK_pair_io. exact Oks.
    + apply io_step_refl. exact Oks.
Qed.

Lemma deflate_fast_tail_io (flush : Z) (s : deflate_stream T) :
  io_ok s -> io_step s (snd (deflate_fast_tail flush s)).
Proof.
  intros Ok. unfold deflate_fast_tail. cbn zeta.
  apply flush_tail_io; [exact Ok|io_frame].
Qed.

Lemma deflate_slow_tail_io (flush : Z) (s : deflate_stream T) :
  io_ok s -> io_step s (snd (deflate_slow_tail flush s)).
Proof.
  intros Ok. unfold deflate_slow_tail. cbn zeta.
  apply flush_tail_io; [exact Ok|].
  match goal with
  | |- same_io _ (set_insert_ _ ?x) => apply (same_io_trans _ x); [|io_frame]
  end.
  destruct (negb _); [|apply same_io_refl].
  pose proof (_tr_tally_lit_io s (get (window_ s) (strstart_ s - 1))) as D.
  destruct (_tr_tally_lit s _) as [s1 b]. cbn [fst] in D.
  apply (same_io_trans _ _ _ D). io_frame.
Qed.

Lemma zero_insert_tail_io (flush : Z) (s : deflate_stream T) :
  io_ok s -> io_step s (snd (zero_insert_tail flush s)).
Proof.
  intros Ok. unfold zero_insert_tail.
  apply flush_tail_io; [exact Ok|io_frame].
Qed.

Lemma after_loop_io
    (body : nat -> deflate_stream T -> option (step T))
    (tail : deflate_stream T -> block_state * deflate_stream T)
    (fuel : nat) (s : deflate_stream T) (r : block_state * deflate_stream T) :
  (forall fuel s st, io_ok s -> body fuel s = Some st ->
                     io_step s (step_state st)) ->
  (forall s, io_ok s -> io_step s (snd (tail s))) ->
  io_ok s ->
  after_loop (forever body fuel s) tail = Some r ->
  io_step s (snd r).
Proof.
  intros Hb Ht Ok. unfold after_loop.
  destruct (forever body fuel s) as [[s1|[b s1]]|] eqn:E; try discriminate;
    pose proof (forever_io body Hb _ _ _ Ok E) as F; cbn [snd] in F.
  - intros [= <-]. apply (io_step_trans _ _ _ F). apply Ht. exact (proj1 F).
  - intros [= <-]. exact F.
Qed.

Lemma run_engine_io (fuel : nat) (s : deflate_stream T) (flush : Z)
    (r : block_state * deflate_stream T) :
  io_ok s -> run_engine fuel s flush = Some r -> io_step s (snd r).
Proof.
  intros Ok. unfold run_engine.
  destruct (strategy_ s =? Z_HUFFMAN_ONLY).
  { apply after_loop_io; [apply deflate_huff_body_io| |exact Ok].
    apply zero_insert_tail_io. }
  destruct (strategy_ s =? Z_RLE).
  { apply after_loop_io; [apply deflate_rle_body_io| |exact Ok].
    apply zero_insert_tail_io. }
  destruct (func (get_config (level_ s))).
  - apply after_loop_io; [apply deflate_stored_body_io| |exact Ok].
    apply deflate_stored_tail_io.
  - apply after_loop_io; [apply deflate_fast_body_io| |exact Ok].
    apply deflate_fast_tail_io.
  - apply after_loop_io; [apply deflate_slow_body_io| |exact Ok].
    apply deflate_slow_tail_io.
Qed.

Lemma deflate_end_io (a s : deflate_stream T) (flush : Z) :
  io_step a s -> io_step a (snd (deflate_end s flush)).
Proof. intros S. unfold deflate_end. destruct (negb _); exact S. Qed.

Lemma deflate_after_engine_io (s : deflate_stream T) (flush : Z)
    (b : block_state) :
  io_ok s -> io_step s (snd (deflate_after_engine s flush b)).
Proof.
  intros Ok. unfold deflate_after_engine. cbn zeta.
  assert (E : same_io s (if is_finish_started b || is_finish_done b
                         then set_status_ FINISH_STATE s else s)).
  { destruct (_ || _); [io_frame|apply same_io_refl]. }
  apply (same_io_then _ _ _ Ok E).
  pose proof (proj1 (same_io_step _ _ Ok E)) as Ok1.
  remember (if is_finish_started b || is_finish_done b
            then set_status_ FINISH_STATE s else s) as s1 eqn:E1.
  clear E1 E Ok s.
  destruct (_ || _).
  { cbn [snd]. apply same_io_step; [exact Ok1|].
    destruct (_ =? _); [io_frame|apply same_io_refl]. }
  destruct (is_block_done b).
  - match goal with
    | |- context [flush_pending ?x] =>
        assert (E : same_io s1 x); [|remember x as s2 eqn:E2; clear E2]
    end.
    { destruct (flush =? Z_PARTIAL_FLUSH); [io_frame|].
      destruct (negb _); [|apply same_io_refl].
      destruct (flush =? Z_FULL_FLUSH); [|io_frame].
      match goal with
      | |- context [CLEAR_HASH ?x] =>
          assert (E : same_io s1 (CLEAR_HASH x))
            by (apply (same_io_trans _ x); [io_frame|apply CLEAR_HASH_io]);
          remember (CLEAR_HASH x) as s2 eqn:E2; clear E2
      end.
      destruct (_ =? _); [|exact E].
      apply (same_io_trans _ _ _ E). io_frame. }
    pose proof (proj1 (same_io_step _ _ Ok1 E)) as Ok2.
    apply (same_io_then _ _ _ Ok1 E).
    pose proof (flush_pending_io s2 Ok2) as F.
    remember (flush_pending s2) as s3 eqn:E3. clear E3.
    destruct (_ =? _).
    + cbn [snd]. apply (io_step_same _ _ _ F). io_frame.
    + apply deflate_end_io. exact F.
  - apply deflate_end_io. apply io_step_refl. exact Ok1.
Qed.

(** [deflate] only consumes input and writes output. *)
Lemma deflate_io (fuel : nat) (s : deflate_stream T) (flush : Z)
    (r : Z * deflate_stream T) :
  io_ok s -> deflate fuel s flush = Some r -> io_step s (snd r).
Proof.
  intros Ok.
  assert (G : forall s1 : deflate_stream T,
             io_step s s1 ->
             (if (status_ s1 =? FINISH_STATE) && negb (avail_in s1 =? 0)
              then Some (ERR_RETURN s1 Z_BUF_ERROR)
              else
                if negb (avail_in s1 =? 0) || negb (lookahead_ s1 =? 0)
                   || (negb (flush =? Z_NO_FLUSH)
                       && negb (status_ s1 =? FINISH_STATE))
                then
                  match run_engine fuel s1 flush with
                  | None => None
                  | Some (bstate, s2) => Some (deflate_after_engine s2 flush bstate)
                  end
                else Some (deflate_end s1 flush)) = Some r ->
             io_step s (snd r)).
  { intros s1 S1.
    destruct (_ && _).
    { intros [= <-]. cbn [ERR_RETURN snd]. apply (io_step_same _ _ _ S1). io_frame. }
    destruct (_ || _).
    - destruct (run_engine fuel s1 flush) as [[b s2]|] eqn:E; [|discriminate].
      intros [= <-]. pose proof (run_engine_io _ _ _ _ (proj1 S1) E) as R.
      cbn [snd] in R. apply (io_step_trans _ _ _ S1).
      apply (io_step_trans _ _ _ R). apply deflate_after_engine_io.
      exact (proj1 R).
    - intros [= <-]. apply deflate_end_io. exact S1. }
  unfold deflate.
  destruct (_ || _).
  { intros [= <-]. apply io_step_refl. exact Ok. }
  destruct (_ || _).
  { intros [= <-]. cbn [ERR_RETURN snd]. apply same_io_step; [exact Ok|io_frame]. }
  destruct (avail_out s =? 0).
  { intros [= <-]. cbn [ERR_RETURN snd]. apply same_io_step; [exact Ok|io_frame]. }
  cbn zeta.
  assert (S0 : io_step s (set_last_flush_ flush s))
    by (apply same_io_step; [exact Ok|io_frame]).
  remember (set_last_flush_ flush s) as s0 eqn:E0. clear E0.
  destruct (negb (pending_ s0 =? 0)).
  - pose proof (io_step_trans _ _ _ S0 (flush_pending_io s0 (proj1 S0))) as F.
    remember (flush_pending s0) as s1 eqn:E1. clear E1.
    destruct (avail_out s1 =? 0).
    + intros [= <-]. cbn [snd]. apply (io_step_same _ _ _ F). io_frame.
    + apply G. exact F.
  - destruct (_ && _).
    + intros [= <-]. cbn [ERR_RETURN snd]. apply (io_step_same _ _ _ S0). io_frame.
    + apply G. exact S0.
Qed.

(** X13.  A call of [deflate], whatever it returns, only consumes input and
    appends output, and keeps the books: it takes some [k] bytes at the
    front of the input, [k <= avail_in], and appends some bytes to the
    output, not more than [avail_out]; [next_in] and [avail_in] move by [k]
    and [total_in] goes up by [k], and likewise for the output, the totals
    being counted modulo [2^64]. *)
Theorem deflate_accounting (fuel : nat) (s s' : deflate_stream T)
    (flush code : Z) (input out : list Z) :
  next_in s = Some input -> next_out s = Some out ->
  0 <= avail_in s < 2 ^ 32 -> 0 <= avail_out s < 2 ^ 32 ->
  0 <= total_in s < 2 ^ 64 -> 0 <= total_out s < 2 ^ 64 ->
  deflate fuel s flush = Some (code, s') ->
  exists k bytes,
    0 <= k <= avail_in s
    /\ next_in s' = Some (advance input k)
    /\ avail_in s' = avail_in s - k
    /\ total_in s' = uLong (total_in s + k)
    /\ zlen bytes <= avail_out s
    /\ next_out s' = Some (out ++ bytes)
    /\ avail_out s' = avail_out s - zlen bytes
    /\ total_out s' = uLong (total_out s + zlen bytes).
Proof.
  intros Ni No Hai Hao Hti Hto E.
  assert (Ok : io_ok s) by (unfold io_ok; repeat split; lia).
  destruct (deflate_io _ _ _ _ Ok E) as (_ & k & bytes & M).
  cbn [snd] in M. unfold io_moved in M. rewrite Ni, No in M. cbn [option_map] in M.
  destruct M as (Hk & A & Ti & N & L & Ao & To & P).
  exists k, bytes. repeat split; assumption || lia.
Qed.

End Accounting.

(** ** Instances *)

Lemma flush_pending_moves_witness :
  let s := Examples.resumed_abc in
  next_out s = Some [1; 3; 0; 252]
  /\ 0 <= avail_out s < 2 ^ 32
  /\ 0 <= total_out s < 2 ^ 64
  /\ pending_out_ (tr_ s) = [255; 97; 98; 99]
  /\ next_out (flush_pending s) = Some [1; 3; 0; 252; 255; 97; 98]
  /\ pending_out_ (tr_ (flush_pending s)) = [99]
  /\ avail_out (flush_pending s) = 0.
Proof.
  intros s.
  assert (h1 : next_out s = Some [1; 3; 0; 252]) by (vm_compute; reflexivity).
  assert (h2 : 0 <= avail_out s < 2 ^ 32) by (vm_compute; split; congruence).
  assert (h3 : 0 <= total_out s < 2 ^ 64) by (vm_compute; split; congruence).
  pose proof (flush_pending_moves s _ h1 h2 h3) as P. cbv zeta in P.
  destruct P as (A & B & _ & C & _).
  split; [exact h1|]. split; [exact h2|]. split; [exact h3|].
  split; [vm_compute; reflexivity|].
  split; [rewrite A; vm_compute; reflexivity|].
  split; [rewrite B; vm_compute; reflexivity|].
  rewrite C. vm_compute. reflexivity.
Defined.

Lemma read_buf_copies_witness :
  let s := Examples.fresh_abc in
  let s' := fst (read_buf s 10 2) in
  next_in s = Some [97; 98; 99] /\ avail_in s = 3
  /\ snd (read_buf s 10 2) = 2
  /\ avail_in s' = 1
  /\ next_in s' = Some [99]
  /\ get (window_ s') 10 = 97 /\ get (window_ s') 11 = 98
  /\ get (window_ s') 12 = get (window_ s) 12.
Proof.
  intros s s'.
  assert (h1 : next_in s = Some [97; 98; 99]) by (vm_compute; reflexivity).
  assert (h2 : 0 <= avail_in s <= zlen [97; 98; 99]) by (vm_compute; split; congruence).
  assert (h3 : avail_in s < 2 ^ 32) by (vm_compute; reflexivity).
  assert (h4 : 0 <= total_in s < 2 ^ 64) by (vm_compute; split; congruence).
  assert (h5 : 0 <= 2) by lia.
  assert (h6 : 0 <= 10) by lia.
  assert (h7 : 10 + Z.min (avail_in s) 2 <= zlen (window_ s))
    by (vm_compute; congruence).
  pose proof (read_buf_copies s 10 2 _ h1 h2 h3 h4 h5 h6 h7) as P. cbv zeta in P.
  destruct P as (A & B & _ & C & D & E & _).
  split; [exact h1|]. split; [vm_compute; reflexivity|].
  split; [rewrite A; vm_compute; reflexivity|].
  split; [subst s'; rewrite B; vm_compute; reflexivity|].
  split; [subst s'; rewrite C; vm_compute; reflexivity|].
  split; [exact (D 0 ltac:(vm_compute; split; congruence))|].
  split; [exact (D 1 ltac:(vm_compute; split; congruence))|].
  apply E. right. vm_compute. congruence.
Defined.

Lemma UPDATE_HASH_forgets_witness :
  let s := Examples.default_6 in
  hash_bits_ s = 15 /\ hash_shift_ s = 5 /\ hash_mask_ s = 32767
  /\ UPDATE_HASH s (UPDATE_HASH s (UPDATE_HASH s 0 97) 98) 99
     = UPDATE_HASH s (UPDATE_HASH s (UPDATE_HASH s 12345 97) 98) 99.
Proof.
  intros s. do 3 (split; [vm_compute; reflexivity|]).
  apply (UPDATE_HASH_forgets s 0 12345 97 98 99).
  - vm_compute. reflexivity.
  - vm_compute. split; congruence.
Defined.

Lemma UPDATE_HASH_third_byte_witness :
  let s := Examples.default_6 in
  UPDATE_HASH s 3201 99 = 4163
  /\ (forall c, 0 <= c < 2 ^ 8 -> UPDATE_HASH s 3201 c = 4163 -> c = 99).
Proof.
  intros s. split; [vm_compute; reflexivity|].
  intros c Hc E.
  apply (UPDATE_HASH_third_byte s 3201 c 99).
  - vm_compute. reflexivity.
  - vm_compute. congruence.
  - exact Hc.
  - vm_compute. split; congruence.
  - rewrite E. vm_compute. reflexivity.
Defined.

Lemma INSERT_STRING_links_witness :
  let s := Examples.repeating in
  let s' := fst (INSERT_STRING s 6) in
  hash_mask_ s = 255 /\ zlen (head_ s) = 256
  /\ w_mask_ s = 511 /\ zlen (prev_ s) = 512
  /\ ins_h_ s' = UPDATE_HASH s (ins_h_ s) 99
  /\ get (head_ s') (ins_h_ s') = 6
  /\ get (prev_ s') 6 = snd (INSERT_STRING s 6)
  /\ get (prev_ s') 4 = 1.
Proof.
  intros s s'.
  assert (h1 : 0 <= hash_mask_ s < zlen (head_ s)) by (vm_compute; split; congruence).
  assert (h2 : 0 <= w_mask_ s < zlen (prev_ s)) by (vm_compute; split; congruence).
  assert (h3 : 0 <= 6 < 2 ^ 16) by (vm_compute; split; congruence).
  pose proof (INSERT_STRING_links s 6 h1 h2 h3) as P. cbv zeta in P.
  destruct P as (A & B & C & D & _ & F & _).
  do 4 (split; [vm_compute; reflexivity|]).
  split; [exact B|].
  split; [subst s'; rewrite B; exact C|].
  split; [rewrite A; exact D|].
  subst s'. rewrite (F 4) by (vm_compute; congruence). vm_compute. reflexivity.
Defined.

Lemma CLEAR_HASH_empties_witness :
  let s := Examples.before_slide in
  get (head_ s) 3 = 600 /\ hash_size_ s = 256
  /\ head_ (CLEAR_HASH s) = repeat NIL 256
  /\ get (head_ (CLEAR_HASH s)) 3 = NIL.
Proof.
  intros s.
  assert (h1 : 0 < hash_size_ s) by (vm_compute; reflexivity).
  assert (h2 : zlen (head_ s) = hash_size_ s) by (vm_compute; reflexivity).
  destruct (CLEAR_HASH_empties s h1 h2) as (A & B & _).
  do 2 (split; [vm_compute; reflexivity|]).
  split; [exact A|apply B].
Defined.

Lemma longest_match_budget_witness :
  let s := Examples.repeating in
  max_chain_length_ s = 128 /\ good_match_ s = 8 /\ prev_length_ s = 2
  /\ Z.of_nat (length (examined (longest_match_search s 3))) <= 128.
Proof.
  intros s. do 3 (split; [vm_compute; reflexivity|]).
  apply (longest_match_budget s 3). vm_compute. split; congruence.
Defined.

Lemma run_engine_block_state_witness :
  let r := match run_engine 20 Examples.fresh_abc Z_FINISH with
           | Some r => r
           | None => (need_more, StoredTrees.blank)
           end in
  run_engine 20 Examples.fresh_abc Z_FINISH = Some r
  /\ fst r = finish_done
  /\ engine_result_ok Z_FINISH r.
Proof.
  intros r.
  assert (h : run_engine 20 Examples.fresh_abc Z_FINISH = Some r)
    by (vm_compute; reflexivity).
  split; [exact h|]. split; [vm_compute; reflexivity|].
  exact (run_engine_block_state 20 Examples.fresh_abc Z_FINISH r h).
Defined.

Lemma deflate_stream_end_witness :
  let s' := Examples.finished_abc in
  deflate 20 Examples.fresh_abc Z_FINISH = Some (Z_STREAM_END, s')
  /\ status_ s' = FINISH_STATE /\ pending_ s' = 0 /\ avail_out s' <> 0
  /\ next_out s' = Some [1; 3; 0; 252; 255; 97; 98; 99].
Proof.
  intros s'.
  assert (h : deflate 20 Examples.fresh_abc Z_FINISH = Some (Z_STREAM_END, s'))
    by (vm_compute; reflexivity).
  destruct (deflate_stream_end 20 Examples.fresh_abc s' Z_FINISH h)
    as (_ & A & B & C).
  split; [exact h|]. split; [exact A|]. split; [exact B|]. split; [exact C|].
  vm_compute. reflexivity.
Defined.

Lemma deflate_finish_needs_room_witness :
  let s' := Examples.stalled_abc in
  deflate 9 Examples.cramped_abc Z_FINISH = Some (Z_OK, s')
  /\ avail_out s' = 0 /\ last_flush_ s' = -1
  /\ pending_out_ (tr_ s') = [255; 97; 98; 99].
Proof.
  intros s'.
  assert (h : deflate 9 Examples.cramped_abc Z_FINISH = Some (Z_OK, s'))
    by (vm_compute; reflexivity).
  destruct (deflate_finish_needs_room 9 Examples.cramped_abc s' h) as (A & B).
  split; [exact h|]. split; [exact A|]. split; [exact B|].
  vm_compute. reflexivity.
Defined.

Lemma deflate_accounting_witness :
  let s := Examples.cramped_abc in
  let s' := Examples.stalled_abc in
  deflate 9 s Z_FINISH = Some (Z_OK, s')
  /\ (exists k bytes,
        0 <= k <= avail_in s
        /\ next_in s' = Some (advance [97; 98; 99] k)
        /\ avail_in s' = avail_in s - k
        /\ total_in s' = uLong (total_in s + k)
        /\ zlen bytes <= avail_out s
        /\ next_out s' = Some ([] ++ bytes)
        /\ avail_out s' = avail_out s - zlen bytes
        /\ total_out s' = uLong (total_out s + zlen bytes))
  /\ total_in s' = 3 /\ next_out s' = Some [1; 3; 0; 252].
Proof.
  intros s s'.
  assert (h : deflate 9 s Z_FINISH = Some (Z_OK, s')) by (vm_compute; reflexivity).
  split; [exact h|]. split; [|split; vm_compute; reflexivity].
  apply (deflate_accounting 9 s s' Z_FINISH Z_OK [97; 98; 99] []);
    try exact h; vm_compute; try reflexivity; split; congruence.
Defined.
